(** * functorch: the dynamic layer stack and its two dispatch fallbacks

    A shallow embedding of [functorch/csrc/DynamicLayer.cpp] (the layer
    stack, the front and back fallbacks registered on the two
    dynamic-layer mode keys) and of the plumbing function of
    [functorch/csrc/BatchRulesLoss.cpp], with the properties of the
    design document proved or refuted against it.

    Conventions.
    - [int64_t] and [size_t] values are [Z]; a [std::vector] never holds
      2^63 elements, so [1 + size()] and [size() - n] are computed in [Z]
      (a negative difference is what the wrapped [size_t], read back as
      [int64_t], is).
    - Thread-local state is one record, threaded explicitly.
    - A C++ exception is an outcome [Throw] that carries the state in
      which unwinding left the thread; [std::terminate] (an exception
      leaving a destructor) and undefined behaviour (indexing past the end
      of a vector, [back()] of an empty one) are outcomes of their own. *)

From Stdlib Require Import ZArith Lia Bool String.
From stdpp Require Import base decidable option list.

Open Scope Z_scope.

Set Warnings "-register-all".

(** ** Dispatch keys and key sets (c10) *)

(** The keys of [c10::DispatchKey] that this file mentions, in the order of
    the enumeration; [Autograd] is the alias key that names the eleven
    per-backend autograd keys. *)
Inductive DispatchKey :=
| Undefined
| CPU
| CUDA
| FuncTorchDynamicLayerBackMode
| ADInplaceOrView
| AutogradOther
| AutogradCPU
| AutogradCUDA
| AutogradXLA
| AutogradLazy
| AutogradXPU
| AutogradMLC
| AutogradHPU
| AutogradNestedTensor
| AutogradPrivateUse1
| AutogradPrivateUse2
| AutogradPrivateUse3
| FuncTorchBatched
| FuncTorchVmapMode
| Batched
| VmapMode
| FuncTorchGradWrapper
| FuncTorchDynamicLayerFrontMode
| Autograd.

#[global] Instance DispatchKey_eq_dec : EqDecision DispatchKey.
Proof. solve_decision. Defined.

(** The position of a key.  Only that the positions differ matters here;
    they follow the order of c10's enumeration, which has more keys than
    the ones listed.  An alias key such as [Autograd] lies beyond the 64
    bits of a key set and is never put into one. *)
Definition key_value (k : DispatchKey) : Z :=
  match k with
  | Undefined => 0
  | CPU => 1
  | CUDA => 2
  | FuncTorchDynamicLayerBackMode => 3
  | ADInplaceOrView => 4
  | AutogradOther => 5
  | AutogradCPU => 6
  | AutogradCUDA => 7
  | AutogradXLA => 8
  | AutogradLazy => 9
  | AutogradXPU => 10
  | AutogradMLC => 11
  | AutogradHPU => 12
  | AutogradNestedTensor => 13
  | AutogradPrivateUse1 => 14
  | AutogradPrivateUse2 => 15
  | AutogradPrivateUse3 => 16
  | FuncTorchBatched => 17
  | FuncTorchVmapMode => 18
  | Batched => 19
  | VmapMode => 20
  | FuncTorchGradWrapper => 21
  | FuncTorchDynamicLayerFrontMode => 22
  | Autograd => 65
  end.

(** [c10::DispatchKeySet] is a 64-bit word [repr_], one bit per key:
    [DispatchKeySet(t)] is [0] for [Undefined] and [1 << (t - 1)]
    otherwise.  Union, intersection and difference are [|], [&] and
    [& ~]; none of them leaves the 64-bit range. *)
Definition DispatchKeySet := Z.

Definition ks_of (k : DispatchKey) : DispatchKeySet :=
  match k with
  | Undefined => 0
  | _ => Z.shiftl 1 (key_value k - 1)
  end.
Definition ks_or (a b : DispatchKeySet) : DispatchKeySet := Z.lor a b.
Definition ks_and (a b : DispatchKeySet) : DispatchKeySet := Z.land a b.
Definition ks_sub (a b : DispatchKeySet) : DispatchKeySet := Z.ldiff a b.
Definition ks_add (s : DispatchKeySet) (k : DispatchKey) : DispatchKeySet :=
  ks_or s (ks_of k).
Definition ks_remove (s : DispatchKeySet) (k : DispatchKey) : DispatchKeySet :=
  ks_sub s (ks_of k).
Definition ks_has (s : DispatchKeySet) (k : DispatchKey) : bool :=
  negb (Z.land s (ks_of k) =? 0).
Definition ks_empty (s : DispatchKeySet) : bool := s =? 0.
Definition ks_of_list (l : list DispatchKey) : DispatchKeySet :=
  foldl ks_add 0 l.

(** [c10::autograd_dispatch_keyset]. *)
Definition autograd_dispatch_keyset : DispatchKeySet :=
  ks_of_list
    [ AutogradCPU; AutogradCUDA; AutogradXLA; AutogradLazy;
      AutogradNestedTensor; AutogradMLC; AutogradHPU; AutogradXPU;
      AutogradPrivateUse1; AutogradPrivateUse2; AutogradPrivateUse3;
      AutogradOther ].

(** The key names of [functorch/csrc/Constants.h]. *)
Definition kDynamicLayerFrontModeKey := FuncTorchDynamicLayerFrontMode.
Definition kDynamicLayerBackModeKey := FuncTorchDynamicLayerBackMode.
Definition kGradWrapperKey := FuncTorchGradWrapper.
Definition kBatchedKey := FuncTorchBatched.
Definition kVmapModeKey := FuncTorchVmapMode.

Definition all_dynlayer_keyset : DispatchKeySet :=
  ks_or
    (ks_of_list
       [ kDynamicLayerFrontModeKey; kDynamicLayerBackModeKey; kGradWrapperKey;
         kBatchedKey; ADInplaceOrView ])
    autograd_dispatch_keyset.

(** [c10::impl::LocalDispatchKeySet]. *)
Record LocalDispatchKeySet := mkLocalDispatchKeySet {
  included_ : DispatchKeySet;
  excluded_ : DispatchKeySet
}.

(** ** Exceptions and outcomes *)

Inductive Exn :=
| InternalAssert (what : string)   (* TORCH_INTERNAL_ASSERT failed *)
| TorchCheck (msg : string)        (* TORCH_CHECK failed: user-facing error *)
| BadOptionalAccess                (* optional::value() on nullopt *)
| OperatorError (code : Z).        (* raised inside the re-dispatched call *)

(** A call that only computes a value, or throws. *)
Inductive Res (A : Type) :=
| Ok (a : A)
| Err (e : Exn).
Arguments Ok {A} a.
Arguments Err {A} e.

(** A call on mutable state [S]. *)
Inductive Outcome (S A : Type) :=
| Ret (a : A) (s : S)
| Throw (e : Exn) (s : S)
| Terminate
| UB.
Arguments Ret {S A} a s.
Arguments Throw {S A} e s.
Arguments Terminate {S A}.
Arguments UB {S A}.

Definition M (S A : Type) := S -> Outcome S A.

Definition ret {S A} (a : A) : M S A := fun s => Ret a s.
Definition throw {S A} (e : Exn) : M S A := fun s => Throw e s.
Definition bind {S A B} (m : M S A) (k : A -> M S B) : M S B :=
  fun s =>
    match m s with
    | Ret a s' => k a s'
    | Throw e s' => Throw e s'
    | Terminate => Terminate
    | UB => UB
    end.
Definition gets {S A} (f : S -> A) : M S A := fun s => Ret (f s) s.
Definition modify {S} (f : S -> S) : M S unit := fun s => Ret tt (f s).
Definition lift_res {S A} (r : Res A) : M S A :=
  match r with
  | Ok a => ret a
  | Err e => throw e
  end.
Definition undefined_behaviour {S A} : M S A := fun _ => UB.

Declare Scope cpp_scope.
Delimit Scope cpp_scope with cpp.
Notation "'do' x <- m ; k" := (bind m (fun x => k))
  (at level 10, x name, m at level 100, k at level 200) : cpp_scope.
Notation "'run' m ; k" := (bind m (fun _ => k))
  (at level 10, m at level 100, k at level 200) : cpp_scope.
Open Scope cpp_scope.

Definition TORCH_INTERNAL_ASSERT {S} (cond : bool) (what : string) : M S unit :=
  if cond then ret tt else throw (InternalAssert what).

(** A scope with a guard object: [dtor] runs when the scope is left,
    normally or by an exception.  A destructor that throws ends the
    process ([std::terminate]). *)
Definition with_dtor {S A} (body : M S A) (dtor : M S unit) : M S A :=
  fun s =>
    match body s with
    | Ret a s' =>
        match dtor s' with
        | Ret _ s'' => Ret a s''
        | UB => UB
        | _ => Terminate
        end
    | Throw e s' =>
        match dtor s' with
        | Ret _ s'' => Throw e s''
        | UB => UB
        | _ => Terminate
        end
    | Terminate => Terminate
    | UB => UB
    end.

(** ** Tensors, wrappers and boxed values *)

(** A life handle is the address of a [std::shared_ptr<bool>] cell. *)
Definition LifeHandle := nat.

(** Modelled from the spec: the tensor representation and the two wrapper
    kinds ([TensorWrapper.h], [BatchedTensorImpl.h]) are not among the
    sources.  A Value Wrapper carries the level of the layer that
    created it, the inner value and a shared reference to that layer's
    liveness cell; a batching wrapper carries the inner value, the
    vectorized axis and its level.  [UndefinedTensor] is the undefined
    [at::Tensor]; [DenseTensor] stands for every tensor without wrapper. *)
Inductive Tensor :=
| UndefinedTensor
| DenseTensor (id : Z)
| TensorWrapper (value_ : Tensor) (level_ : Z) (is_alive_ : LifeHandle)
| BatchedTensorImpl (value_ : Tensor) (bdim_ : Z) (level_ : Z).

Definition defined (t : Tensor) : bool :=
  match t with
  | UndefinedTensor => false
  | _ => true
  end.

(** Modelled from the spec: [maybeGetTensorWrapper] ([TensorWrapper.cpp] is
    not among the sources) answers whether the tensor carries a grad
    wrapper; here it returns the wrapper's fields, or [None] for
    [nullptr]. *)
Definition maybeGetTensorWrapper (t : Tensor) : option (Tensor * Z * LifeHandle) :=
  match t with
  | TensorWrapper v l h => Some (v, l, h)
  | _ => None
  end.

(** Modelled from the spec: [maybeGetBatchedImpl] ([BatchedTensorImpl.h]
    is not among the sources) answers whether the tensor carries a
    batching wrapper; here it returns value, bdim and level, or [None]. *)
Definition maybeGetBatchedImpl (t : Tensor) : option (Tensor * Z * Z) :=
  match t with
  | BatchedTensorImpl v b l => Some (v, b, l)
  | _ => None
  end.

(** The element type recorded in a [c10::List]. *)
Inductive ListElementType :=
| TensorType
| OptionalTensorType
| IntType
| AnyType.

(** [c10::IValue], with the tags the fallbacks look at.  ATen keeps every
    list as a generic list with an element type: [isList()] tests the tag
    and [isTensorList()] tests the tag and the element type. *)
Inductive IValue :=
| IVNone
| IVTensor (t : Tensor)
| IVInt (n : Z)
| IVBool (b : bool)
| IVList (ty : ListElementType) (elems : list IValue)
| IVGenericDict (entries : list (IValue * IValue)).

Definition isTensor (v : IValue) : bool :=
  match v with IVTensor _ => true | _ => false end.
Definition isList (v : IValue) : bool :=
  match v with IVList _ _ => true | _ => false end.
Definition isTensorList (v : IValue) : bool :=
  match v with IVList TensorType _ => true | _ => false end.
Definition isGenericDict (v : IValue) : bool :=
  match v with IVGenericDict _ => true | _ => false end.

(** [IValue::toTensor()] reports a type error on any other tag. *)
Definition toTensor (v : IValue) : Res Tensor :=
  match v with
  | IVTensor t => Ok t
  | _ => Err (TorchCheck "Expected Tensor but got another tag")
  end.

(** ** Operator schemas *)

Record AliasInfo := mkAliasInfo { isWrite : bool }.
Record Argument := mkArgument { alias_info : option AliasInfo }.
Record FunctionSchema := mkFunctionSchema {
  operator_name : string;
  arguments : list Argument;
  returns : list Argument
}.

Definition writes (a : Argument) : bool :=
  match alias_info a with
  | Some ai => isWrite ai
  | None => false
  end.

(** [FunctionSchema::is_mutable()] (ATen): some argument is written to. *)
Definition is_mutable (schema : FunctionSchema) : bool :=
  existsb writes (arguments schema).

(** [isInplaceOp]. *)
Definition isInplaceOp (schema : FunctionSchema) : bool :=
  if negb (is_mutable schema) || negb (length (returns schema) =? 1)%nat then false
  else
    match arguments schema with
    | [] => false (* unreachable: a mutable schema has an argument *)
    | first :: others =>
        (* Check that the first argument is being written to *)
        if negb (writes first) then false
        (* Check that none of the other args are being aliased *)
        else if existsb (fun a => bool_decide (is_Some (alias_info a))) others then false
        else
          (* Check that the first tensor is being returned *)
          match returns schema with
          | r :: _ => writes r
          | [] => false
          end
    end.

(** ** [foreachTensorInplace] *)

(** The loop over the copy of a generic list: every element that is a
    tensor is replaced, and [modified] records whether one was. *)
Fixpoint foreach_in_list (func : Tensor -> Res Tensor) (elems : list IValue)
  : Res (list IValue * bool) :=
  match elems with
  | [] => Ok ([], false)
  | elt :: rest =>
      match elt with
      | IVTensor t =>
          match func t with
          | Err e => Err e
          | Ok t' =>
              match foreach_in_list func rest with
              | Err e => Err e
              | Ok (rest', _) => Ok (IVTensor t' :: rest', true)
              end
          end
      | _ =>
          match foreach_in_list func rest with
          | Err e => Err e
          | Ok (rest', modified) => Ok (elt :: rest', modified)
          end
      end
  end.

(** The loop of the [isTensorList()] branch, which writes into the list it
    shares with [args[idx]]: the elements already replaced stay replaced
    when [func] throws. *)
Fixpoint foreach_in_tensor_list (func : Tensor -> Res Tensor) (elems : list IValue)
  : list IValue * option Exn :=
  match elems with
  | [] => ([], None)
  | elt :: rest =>
      match toTensor elt with
      | Err e => (elt :: rest, Some e)
      | Ok t =>
          match func t with
          | Err e => (elt :: rest, Some e)
          | Ok t' =>
              let '(rest', r) := foreach_in_tensor_list func rest in
              (IVTensor t' :: rest', r)
          end
      end
  end.

(** One iteration of the loop over [idx]. *)
Definition foreach_body (func : Tensor -> Res Tensor) (idx : nat)
  : M (list IValue) unit :=
  fun args =>
    match args !! idx with
    | None => UB
    | Some ivalue =>
        match ivalue with
        | IVList ty elems =>
            (* isList(): work on a copy, store it back if modified *)
            match foreach_in_list func elems with
            | Err e => Throw e args
            | Ok (copy, modified) =>
                Ret tt (if modified then <[idx := IVList ty copy]> args else args)
            end
        | _ =>
            let after_tensor_list :=
              if isTensorList ivalue then
                match ivalue with
                | IVList ty elems =>
                    let '(shared, r) := foreach_in_tensor_list func elems in
                    match r with
                    | Some e => Throw e (<[idx := IVList ty shared]> args)
                    | None => Ret tt (<[idx := IVList ty shared]> args)
                    end
                | _ => Ret tt args
                end
              else Ret tt args in
            match after_tensor_list with
            | Ret _ args1 =>
                if isGenericDict ivalue then
                  Throw (InternalAssert "No operators can accept GenericDict") args1
                else
                  match ivalue with
                  | IVTensor value =>
                      match func value with
                      | Err e => Throw e args1
                      | Ok replacement =>
                          let args2 := <[idx := IVTensor replacement]> args1 in
                          (* sanity checks *)
                          if defined value && negb (defined replacement) then
                            Throw (InternalAssert "args[idx].toTensor().defined()") args2
                          else Ret tt args2
                      end
                  | _ => Ret tt args1
                  end
            | other => other
            end
        end
    end.

Fixpoint foreach_loop (func : Tensor -> Res Tensor) (count idx : nat)
  : M (list IValue) unit :=
  match count with
  | O => ret tt
  | S count' => run foreach_body func idx; foreach_loop func count' (S idx)
  end.

Definition foreachTensorInplace (begin end_ : Z) (func : Tensor -> Res Tensor)
  : M (list IValue) unit :=
  run TORCH_INTERNAL_ASSERT (0 <=? begin) "begin >= 0";
  run TORCH_INTERNAL_ASSERT (0 <=? end_) "end >= 0";
  run TORCH_INTERNAL_ASSERT (begin <=? end_) "begin <= end";
  foreach_loop func (Z.to_nat (end_ - begin)) (Z.to_nat begin).

(** ** Layers and thread-local state *)

(** Modelled from the spec: [DynamicLayer.h] is not among the sources.  A
    Layer Descriptor has the four fields the constructor sets and a
    liveness cell, shared with every copy of the descriptor and every
    wrapper it stamps, that is [true] from construction until the
    descriptor is popped. *)
Record DynamicLayer := mkDynamicLayer {
  key : DispatchKey;
  layerId : Z;
  batchSize_ : option Z;
  prevGradMode : option bool;
  lifeHandle : LifeHandle
}.

Section Interpreter.

(** What lies behind the tensors (sizes, strides, storage): only
    [TensorWrapper::refreshMetadata] and the operators touch it. *)
Context {Ext : Type}.

(** The thread's state: [FuncTorchTLS] ([dynamicLayerStack] and
    [prev_local_keyset_]), c10's local dispatch key set and grad mode, the
    liveness cells, and the boxed-call stack the fallbacks receive by
    pointer. *)
Record State := mkState {
  dynamicLayerStack : list DynamicLayer;
  prev_local_keyset_ : option LocalDispatchKeySet;
  tls_local_dispatch_key_set : LocalDispatchKeySet;
  grad_mode : bool;
  life_cells : list bool;
  stack : list IValue;
  ext : Ext
}.

Definition set_dynamicLayerStack (dls : list DynamicLayer) (s : State) : State :=
  mkState dls (prev_local_keyset_ s) (tls_local_dispatch_key_set s)
          (grad_mode s) (life_cells s) (stack s) (ext s).
Definition set_prev_local_keyset (p : option LocalDispatchKeySet) (s : State) : State :=
  mkState (dynamicLayerStack s) p (tls_local_dispatch_key_set s)
          (grad_mode s) (life_cells s) (stack s) (ext s).
Definition force_tls_local_dispatch_key_set (ks : LocalDispatchKeySet) (s : State) : State :=
  mkState (dynamicLayerStack s) (prev_local_keyset_ s) ks
          (grad_mode s) (life_cells s) (stack s) (ext s).
Definition set_grad_mode (b : bool) (s : State) : State :=
  mkState (dynamicLayerStack s) (prev_local_keyset_ s) (tls_local_dispatch_key_set s)
          b (life_cells s) (stack s) (ext s).
Definition set_life_cells (c : list bool) (s : State) : State :=
  mkState (dynamicLayerStack s) (prev_local_keyset_ s) (tls_local_dispatch_key_set s)
          (grad_mode s) c (stack s) (ext s).
Definition set_stack (st : list IValue) (s : State) : State :=
  mkState (dynamicLayerStack s) (prev_local_keyset_ s) (tls_local_dispatch_key_set s)
          (grad_mode s) (life_cells s) st (ext s).
Definition set_ext (x : Ext) (s : State) : State :=
  mkState (dynamicLayerStack s) (prev_local_keyset_ s) (tls_local_dispatch_key_set s)
          (grad_mode s) (life_cells s) (stack s) x.

(** Run a call on the boxed stack inside the thread state. *)
Definition on_stack {A} (m : M (list IValue) A) : M State A :=
  fun s =>
    match m (stack s) with
    | Ret a st => Ret a (set_stack st s)
    | Throw e st => Throw e (set_stack st s)
    | Terminate => Terminate
    | UB => UB
    end.

(** Modelled from the spec: [TensorWrapper::is_alive()] ([TensorWrapper.h]
    is not among the sources) reads the shared liveness cell.  Every
    handle held by a layer or a wrapper was allocated, so the default is
    never read. *)
Definition cell_alive (cells : list bool) (h : LifeHandle) : bool :=
  default false (cells !! h).

(** Modelled from the spec: [TensorWrapper::level()] ([TensorWrapper.h] is
    not among the sources) is the level while the wrapper is alive and
    empty once it is dead, as a dead wrapper carries no transform
    semantics. *)
Definition wrapper_level (cells : list bool) (level_ : Z) (h : LifeHandle) : option Z :=
  if cell_alive cells h then Some level_ else None.

(** [c10::impl::tls_set_dispatch_key_included]. *)
Definition tls_set_dispatch_key_included (x : DispatchKey) (desired_state : bool)
  (s : State) : State :=
  let tls := tls_local_dispatch_key_set s in
  let current_state := ks_has (included_ tls) x in
  if eqb desired_state current_state then s
  else if desired_state then
    force_tls_local_dispatch_key_set
      (mkLocalDispatchKeySet (ks_add (included_ tls) x) (excluded_ tls)) s
  else
    force_tls_local_dispatch_key_set
      (mkLocalDispatchKeySet (ks_remove (included_ tls) x) (excluded_ tls)) s.

Definition setDynamicLayerFrontBackKeysIncluded (included : bool) (s : State) : State :=
  tls_set_dispatch_key_included kDynamicLayerBackModeKey included
    (tls_set_dispatch_key_included kDynamicLayerFrontModeKey included s).

(** The key set [resetFunctorchLocalDispatchKeySetRAII] forces: the
    functorch-tracked keys are taken out of the current sets and put back
    as they were in [prev_keyset]. *)
Definition reset_keyset (cur prev_keyset : LocalDispatchKeySet) : LocalDispatchKeySet :=
  mkLocalDispatchKeySet
    (ks_or (ks_sub (included_ cur) all_dynlayer_keyset)
           (ks_and (included_ prev_keyset) all_dynlayer_keyset))
    (ks_or (ks_sub (excluded_ cur) all_dynlayer_keyset)
           (ks_and (excluded_ prev_keyset) all_dynlayer_keyset)).

(** [auto guard = resetFunctorchLocalDispatchKeySetRAII(); body]: the
    guard is a [ForceLocalDispatchKeySet], which saves the current key set,
    forces the new one and forces the saved one back when destroyed. *)
Definition with_resetFunctorchLocalDispatchKeySetRAII {A} (body : M State A) : M State A :=
  do cur <- gets tls_local_dispatch_key_set;
  do prev_keyset <- gets prev_local_keyset_;
  match prev_keyset with
  | None => throw (InternalAssert "prev_keyset.has_value()")
  | Some prev =>
      with_dtor
        (run modify (force_tls_local_dispatch_key_set (reset_keyset cur prev)); body)
        (modify (force_tls_local_dispatch_key_set cur))
  end.

(** [getLifeHandleForLevel].  It only reads the thread state; after the
    two assertions the index is in range. *)
Definition getLifeHandleForLevel (s : State) (level : Z) : Res LifeHandle :=
  if negb (1 <=? level) then Err (InternalAssert "level >= 1")
  else
    let idx := level - 1 in
    let dls := dynamicLayerStack s in
    if negb (idx <? Z.of_nat (length dls)) then
      Err (InternalAssert
             "Objects should be constructed when the associated DynamicLayer is on the stack")
    else
      match dls !! Z.to_nat idx with
      | Some l => Ok (lifeHandle l)
      | None =>
          Err (InternalAssert
                 "Objects should be constructed when the associated DynamicLayer is on the stack")
      end.

(** [maybeCurrentDynamicLayer]. *)
Definition maybeCurrentDynamicLayer (s : State) : option DynamicLayer :=
  last (dynamicLayerStack s).

(** [setDynamicLayerStack]. *)
Definition setDynamicLayerStack (stack : list DynamicLayer) (s : State) : State :=
  set_dynamicLayerStack stack s.

(** [areTransformsActive]. *)
Definition areTransformsActive (s : State) : bool :=
  ks_has (included_ (tls_local_dispatch_key_set s)) kDynamicLayerBackModeKey.

(** The constructor of [DynamicLayer]: a new liveness cell holding [true]
    is allocated for the descriptor.  (The assertion of the body is
    checked first here; when it fails the cell is released unseen.) *)
Definition DynamicLayer_ctor (key : DispatchKey) (layerId : Z)
  (batchSize : option Z) (prev_grad_mode : option bool) : M State DynamicLayer :=
  run TORCH_INTERNAL_ASSERT
        (if decide (key = Autograd) then bool_decide (is_Some prev_grad_mode) else true)
        "prev_grad_mode.has_value()";
  do cells <- gets life_cells;
  run modify (set_life_cells (cells ++ [true]));
  ret (mkDynamicLayer key layerId batchSize prev_grad_mode (length cells)).

(** [popDynamicLayer]. *)
Definition popDynamicLayer : M State DynamicLayer :=
  do dynamicLayerStack <- gets dynamicLayerStack;
  run TORCH_INTERNAL_ASSERT (0 <? Z.of_nat (length dynamicLayerStack))
        "dynamicLayerStack.size() > 0";
  match last dynamicLayerStack with
  | None => undefined_behaviour
  | Some result =>
      run TORCH_INTERNAL_ASSERT (negb (bool_decide (key result = Undefined)))
            "result.key() != DispatchKey::Undefined";
      run modify (set_dynamicLayerStack (removelast dynamicLayerStack));
      run (if (length (removelast dynamicLayerStack) =? 0)%nat
           then modify (setDynamicLayerFrontBackKeysIncluded false)
           else ret tt);
      ret result
  end.

(** [pushDynamicLayer]. *)
Definition pushDynamicLayer (dynamic_layer : DynamicLayer) : M State Z :=
  do dynamicLayerStack <- gets dynamicLayerStack;
  let was_empty := (length dynamicLayerStack =? 0)%nat in
  let layerId_ := 1 + Z.of_nat (length dynamicLayerStack) in
  run TORCH_INTERNAL_ASSERT (layerId_ =? layerId dynamic_layer)
        "layerId == dynamic_layer.layerId()";
  run modify (set_dynamicLayerStack (dynamicLayerStack ++ [dynamic_layer]));
  run (if was_empty then
         do prev <- gets prev_local_keyset_;
         run TORCH_INTERNAL_ASSERT (bool_decide (is_Some prev))
               "prev_local_keyset_.has_value()";
         modify (setDynamicLayerFrontBackKeysIncluded true)
       else ret tt);
  ret layerId_.

(** [initAndPushDynamicLayer]. *)
Definition initAndPushDynamicLayer (key : DispatchKey) (batch_size : option Z)
  (prev_grad_mode : option bool) : M State Z :=
  do dynamicLayerStack <- gets dynamicLayerStack;
  let was_empty := (length dynamicLayerStack =? 0)%nat in
  run (if was_empty then
         do cur <- gets tls_local_dispatch_key_set;
         modify (set_prev_local_keyset (Some cur))
       else
         do prev <- gets prev_local_keyset_;
         TORCH_INTERNAL_ASSERT (bool_decide (is_Some prev))
           "prev_local_keyset_.has_value()");
  run TORCH_INTERNAL_ASSERT (negb (bool_decide (key = Undefined)))
        "key != DispatchKey::Undefined";
  run TORCH_INTERNAL_ASSERT (negb (bool_decide (key = Batched)))
        "key != DispatchKey::Batched";
  run (if decide (key = Autograd) then
         TORCH_INTERNAL_ASSERT (bool_decide (is_Some prev_grad_mode))
           "prev_grad_mode.has_value()"
       else ret tt);
  let layerId := 1 + Z.of_nat (length dynamicLayerStack) in
  do layer <- DynamicLayer_ctor key layerId batch_size prev_grad_mode;
  pushDynamicLayer layer.

(** [popDynamicLayerAndDeleteMetadata]. *)
Definition popDynamicLayerAndDeleteMetadata : M State DynamicLayer :=
  do result <- popDynamicLayer;
  (* *result.lifeHandle() = false *)
  do cells <- gets life_cells;
  run modify (set_life_cells (<[lifeHandle result := false]> cells));
  do dynamicLayerStack <- gets dynamicLayerStack;
  let is_empty := (length dynamicLayerStack =? 0)%nat in
  run (if is_empty then modify (set_prev_local_keyset None) else ret tt);
  ret result.

(** Modelled from the spec: [makeTensorWrapper] ([TensorWrapper.cpp] is not
    among the sources) materializes a fresh wrapper over the tensor,
    tagged with the level and sharing the liveness cell of the layer at
    that level, which it gets from [getLifeHandleForLevel]. *)
Definition makeTensorWrapper (s : State) (tensor : Tensor) (level : Z) : Res Tensor :=
  match getLifeHandleForLevel s level with
  | Ok h => Ok (TensorWrapper tensor level h)
  | Err e => Err e
  end.

(** [materializeGradWrappers]. *)
Definition materializeGradWrappers (s : State) (tensor : Tensor)
  (dynlayerStack : list DynamicLayer) : Res Tensor :=
  if negb (defined tensor) then Ok tensor
  else
    match last dynlayerStack with
    | None => Err (InternalAssert "dynlayerStack.size() > 0")
    | Some back =>
        if negb (bool_decide (key back = Autograd)) then Ok tensor
        else
          let cur_level := layerId back in
          match maybeGetTensorWrapper tensor with
          | None => makeTensorWrapper s tensor cur_level
          | Some (_, level_, h) =>
              match wrapper_level (life_cells s) level_ h with
              | None => Err BadOptionalAccess
              | Some level =>
                  if negb (level <=? cur_level) then Err (InternalAssert "escaped?")
                  else if level =? cur_level then Ok tensor
                  else makeTensorWrapper s tensor cur_level
              end
          end
    end.

(** [unwrapIfDead]. *)
Definition unwrapIfDead (s : State) (tensor : Tensor) : Tensor :=
  match maybeGetTensorWrapper tensor with
  | None => tensor
  | Some (value, _, h) =>
      if cell_alive (life_cells s) h then tensor else value
  end.

(** [allTensors]: the loop returns [false] at the first tensor that fails
    [pred]; a dictionary met before that is an assertion failure.  (The
    [isTensorList()] branch of the source comes after the [isList()]
    branch, which has taken every list already.) *)
Fixpoint allTensors (args : list IValue) (pred : Tensor -> bool) : Res bool :=
  match args with
  | [] => Ok true
  | ivalue :: rest =>
      match ivalue with
      | IVList _ elems =>
          if existsb (fun elt => match elt with
                                 | IVTensor t => negb (pred t)
                                 | _ => false
                                 end) elems
          then Ok false
          else allTensors rest pred
      | IVGenericDict _ => Err (InternalAssert "No operators can accept GenericDict")
      | IVTensor t => if negb (pred t) then Ok false else allTensors rest pred
      | _ => allTensors rest pred
      end
  end.

(** [anyTensors]. *)
Definition anyTensors (args : list IValue) (pred : Tensor -> bool) : Res bool :=
  match allTensors args (fun self => negb (pred self)) with
  | Ok b => Ok (negb b)
  | Err e => Err e
  end.

(** [torch::jit::last(stack, N)]: the last [N] values; undefined when the
    stack is shorter. *)
Definition jit_last (st : list IValue) (N : nat) : option (list IValue) :=
  if (N <=? length st)%nat then Some (drop (length st - N) st) else None.

(** The lambda of [sanityCheckStack]: both assertions, then the tensor
    itself. *)
Definition sanity_check_tensor (tensor : Tensor) : Res Tensor :=
  match maybeGetTensorWrapper tensor with
  | Some _ => Err (InternalAssert "wrapper == nullptr")
  | None =>
      match maybeGetBatchedImpl tensor with
      | Some _ => Err (InternalAssert "batched == nullptr")
      | None => Ok tensor
      end
  end.

(** [sanityCheckStack]. *)
Definition sanityCheckStack (op : FunctionSchema) : M State unit :=
  let num_args := Z.of_nat (length (arguments op)) in
  do st <- gets stack;
  let size := Z.of_nat (length st) in
  on_stack (foreachTensorInplace (size - num_args) size sanity_check_tensor).

(** [batchedAtCurrentLevel].  It is only called below a top layer; the
    [back()] of an empty stack has no level to compare with. *)
Definition batchedAtCurrentLevel (s : State) (tensor : Tensor) : bool :=
  match last (dynamicLayerStack s) with
  | None => false
  | Some layer =>
      let level := layerId layer in
      match maybeGetBatchedImpl tensor with
      | None => false
      | Some (_, _, batched_at_level) => batched_at_level =? level
      end
  end.

Definition mutation_error (name : string) : string :=
  ("During a grad (vjp, jvp, grad, etc) transform, the function provided "
   ++ "attempted to call in-place operation (" ++ name ++ ") "
   ++ "that would mutate a captured Tensor. This is not supported; please rewrite "
   ++ "the function being transformed to explicitly accept the mutated Tensor(s) "
   ++ "as inputs.")%string.

(** [checkForInvalidMutationOnCaptures]. *)
Definition checkForInvalidMutationOnCaptures (op : FunctionSchema)
  (dynamicLayerStack : list DynamicLayer) : M State unit :=
  match last dynamicLayerStack with
  | None => undefined_behaviour
  | Some back =>
      if negb (bool_decide (key back = Autograd)) then ret tt
      else if negb (isInplaceOp op) then ret tt
      else
        do st <- gets stack;
        match jit_last st (length (arguments op)) with
        | None | Some [] => undefined_behaviour
        | Some (arg0 :: _) =>
            do t <- lift_res (toTensor arg0);
            do s <- gets id;
            let mutated_arg := unwrapIfDead s t in
            let cur_level := layerId back in
            match maybeGetTensorWrapper mutated_arg with
            | Some (_, level_, h) =>
                match wrapper_level (life_cells s) level_ h with
                | Some level =>
                    if level =? cur_level then ret tt
                    else throw (TorchCheck (mutation_error (operator_name op)))
                | None => throw (TorchCheck (mutation_error (operator_name op)))
                end
            | None => throw (TorchCheck (mutation_error (operator_name op)))
            end
        end
  end.

(** [getIncludeExcludeSetsFor]. *)
Definition getIncludeExcludeSetsFor (key : DispatchKey)
  : Res (DispatchKeySet * DispatchKeySet) :=
  let include := 0 in
  let exclude := all_dynlayer_keyset in
  let exclude := ks_remove exclude kDynamicLayerBackModeKey in
  if decide (key = Autograd) then
    let exclude := ks_sub exclude autograd_dispatch_keyset in
    let exclude := ks_remove exclude ADInplaceOrView in
    Ok (include, exclude)
  else if decide (key = kBatchedKey) then
    let exclude := ks_remove exclude kBatchedKey in
    let include := ks_add include kVmapModeKey in
    Ok (include, exclude)
  else Err (InternalAssert "false").

(** [c10::impl::ExcludeDispatchKeyGuard]: adds the keys that are not
    excluded yet, and takes those same keys out again when destroyed. *)
Definition with_ExcludeDispatchKeyGuard {A} (exclude : DispatchKeySet)
  (body : M State A) : M State A :=
  do tls <- gets tls_local_dispatch_key_set;
  let exclude_ := ks_sub exclude (excluded_ tls) in
  let set_excluded f :=
    modify (fun s =>
      let t := tls_local_dispatch_key_set s in
      force_tls_local_dispatch_key_set
        (mkLocalDispatchKeySet (included_ t) (f (excluded_ t))) s) in
  run (if negb (ks_empty exclude_) then set_excluded (fun e => ks_or e exclude_)
       else ret tt);
  with_dtor body
    (if negb (ks_empty exclude_) then set_excluded (fun e => ks_sub e exclude_)
     else ret tt).

(** [c10::impl::IncludeDispatchKeyGuard]. *)
Definition with_IncludeDispatchKeyGuard {A} (include : DispatchKeySet)
  (body : M State A) : M State A :=
  do tls <- gets tls_local_dispatch_key_set;
  let include_ := ks_sub include (included_ tls) in
  let set_included f :=
    modify (fun s =>
      let t := tls_local_dispatch_key_set s in
      force_tls_local_dispatch_key_set
        (mkLocalDispatchKeySet (f (included_ t)) (excluded_ t)) s) in
  run (if negb (ks_empty include_) then set_included (fun i => ks_or i include_)
       else ret tt);
  with_dtor body
    (if negb (ks_empty include_) then set_included (fun i => ks_sub i include_)
     else ret tt).

(** [c10::AutoGradMode guard(enabled)]. *)
Definition with_AutoGradMode {A} (enabled : bool) (body : M State A) : M State A :=
  do prev_mode <- gets grad_mode;
  run modify (set_grad_mode enabled);
  with_dtor body (modify (set_grad_mode prev_mode)).

(** [struct WithoutTop]: the constructor pops the top layer, the
    destructor pushes it back. *)
Definition with_WithoutTop {A} (body : M State A) : M State A :=
  do layer_ <- popDynamicLayer;
  with_dtor body (run pushDynamicLayer layer_; ret tt).

(** The re-dispatch [op.callBoxed(stack)] goes through the dispatcher to
    whatever kernel the current key sets select; the operator table is
    outside this file. *)
Variable callBoxed : FunctionSchema -> M State unit.

(** [TensorWrapper::refreshMetadata], on what lies behind the tensors. *)
Variable refreshMetadata : Tensor -> Ext -> Ext.

(** The lambda [maybeTransformGradWrappers] of the front fallback. *)
Definition maybeTransformGradWrappers (s : State) (tensor : Tensor) : Res Tensor :=
  let result := unwrapIfDead s tensor in
  materializeGradWrappers s result (dynamicLayerStack s).

(** The argument pass of the front fallback (the [foreachTensorInplace]
    call over the last [num_args] values of the stack). *)
Definition front_transform_arguments (op : FunctionSchema) : M State unit :=
  let num_args := Z.of_nat (length (arguments op)) in
  do s <- gets id;
  let size := Z.of_nat (length (stack s)) in
  on_stack (foreachTensorInplace (size - num_args) size
              (maybeTransformGradWrappers s)).

(** The key sets of the front fallback for the top layer: those of
    [getIncludeExcludeSetsFor], with [kBatchedKey] added to the exclude
    set when no argument is batched at the current level. *)
Definition front_include_exclude (op : FunctionSchema) (layer : DynamicLayer)
  : M State (DispatchKeySet * DispatchKeySet) :=
  do include_exclude <- lift_res (getIncludeExcludeSetsFor (key layer));
  let include := fst include_exclude in
  let exclude := snd include_exclude in
  (* Hack: only enable dispatch on kBatchedKey if there are tensors
     batched at the current level. *)
  if decide (key layer = kBatchedKey) then
    do s <- gets id;
    match jit_last (stack s) (length (arguments op)) with
    | None => undefined_behaviour
    | Some args =>
        do any <- lift_res (anyTensors args (batchedAtCurrentLevel s));
        ret (include, if negb any then ks_add exclude kBatchedKey else exclude)
    end
  else ret (include, exclude).

(** [dynamicLayerFrontFallback]. *)
Definition dynamicLayerFrontFallback (op : FunctionSchema) : M State unit :=
  do dynamicLayerStack <- gets dynamicLayerStack;
  if (length dynamicLayerStack =? 0)%nat then
    run sanityCheckStack op;
    with_resetFunctorchLocalDispatchKeySetRAII (callBoxed op)
  else
    run checkForInvalidMutationOnCaptures op dynamicLayerStack;
    (* Unwrap dead GradWrappers, materialize live ones *)
    run front_transform_arguments op;
    match last dynamicLayerStack with
    | None => undefined_behaviour
    | Some layer =>
        do include_exclude <- front_include_exclude op layer;
        with_ExcludeDispatchKeyGuard (snd include_exclude)
          (with_IncludeDispatchKeyGuard (fst include_exclude)
             (* Re-dispatch *)
             (callBoxed op))
    end.

(** The lambdas [unwrap] and [wrap] of the back fallback. *)
Definition back_unwrap (s : State) (cur_level : Z) (tensor : Tensor) : Res Tensor :=
  if negb (defined tensor) then Ok tensor
  else
    match maybeGetTensorWrapper tensor with
    | None => Ok tensor
    | Some (value, level_, h) =>
        match wrapper_level (life_cells s) level_ h with
        | None => Err BadOptionalAccess
        | Some tensor_wrapper_level =>
            if negb (tensor_wrapper_level <=? cur_level) then
              Err (InternalAssert "tensor_wrapper_level <= cur_level")
            else if tensor_wrapper_level =? cur_level then Ok value
            else Ok tensor
        end
    end.

Definition back_wrap (s : State) (cur_level : Z) (tensor : Tensor) : Res Tensor :=
  if negb (defined tensor) then Ok tensor
  else makeTensorWrapper s tensor cur_level.

(** Step 5 of the back fallback on one value of the slice. *)
Definition refresh_arg (ivalue : IValue) (x : Ext) : Ext :=
  match ivalue with
  | IVTensor t =>
      match maybeGetTensorWrapper t with
      | Some _ => refreshMetadata t x
      | None => x
      end
  | _ => x
  end.

(** Steps 1 and 2 of the back fallback: a copy of the arguments is pushed
    and the tensors of the copy are unwrapped. *)
Definition back_copy_and_unwrap (op : FunctionSchema) (cur_level : Z) : M State unit :=
  let args_size := length (arguments op) in
  do st <- gets stack;
  (* Step 1 *)
  match jit_last st args_size with
  | None => undefined_behaviour
  | Some args =>
      run modify (set_stack (st ++ args));
      (* Step 2 *)
      do s <- gets id;
      let size := Z.of_nat (length (stack s)) in
      on_stack (foreachTensorInplace (size - Z.of_nat args_size) size
                  (back_unwrap s cur_level))
  end.

(** The block of the back fallback that runs without the top layer. *)
Definition back_redispatch (op : FunctionSchema) (is_autograd : bool)
  (prev_grad_mode : option bool) : M State unit :=
  (* pop the top layer. Put it back on dtor. *)
  with_WithoutTop
    ((* "reset exclude set" *)
     with_resetFunctorchLocalDispatchKeySetRAII
       (run modify (setDynamicLayerFrontBackKeysIncluded true);
        (* Re-dispatch *)
        if is_autograd && bool_decide (prev_grad_mode = Some false) then
          with_AutoGradMode false (callBoxed op)
        else callBoxed op)).

(** Steps 4, 5 and 6 of the back fallback. *)
Definition back_wrap_refresh_erase (op : FunctionSchema) (cur_level : Z) : M State unit :=
  (* Step 4 *)
  let ret_size := length (returns op) in
  do s <- gets id;
  let size := Z.of_nat (length (stack s)) in
  run on_stack (foreachTensorInplace (size - Z.of_nat ret_size) size
                  (back_wrap s cur_level));
  (* Step 5 *)
  let args_size := length (arguments op) in
  do st <- gets stack;
  if (length st <? args_size + ret_size)%nat then undefined_behaviour
  else
    let args_front := (length st - args_size - ret_size)%nat in
    let slice := take args_size (drop args_front st) in
    run modify (fun s => set_ext (foldl (fun x iv => refresh_arg iv x) (ext s) slice) s);
    (* Step 6 *)
    modify (set_stack (take args_front st ++ drop (args_front + args_size) st)).

(** [dynamicLayerBackFallback]. *)
Definition dynamicLayerBackFallback (op : FunctionSchema) : M State unit :=
  do dls <- gets dynamicLayerStack;
  match last dls with
  | None => undefined_behaviour
  | Some back =>
      let cur_level := layerId back in
      let cur_key := key back in
      let prev_grad_mode := prevGradMode back in
      let is_autograd := bool_decide (cur_key = Autograd) in
      run (if is_autograd then
             TORCH_INTERNAL_ASSERT (bool_decide (is_Some prev_grad_mode))
               "prev_grad_mode.has_value()"
           else ret tt);
      run (if is_autograd then back_copy_and_unwrap op cur_level else ret tt);
      run back_redispatch op is_autograd prev_grad_mode;
      if is_autograd then back_wrap_refresh_erase op cur_level else ret tt
  end.

End Interpreter.

(** ** Sequences of layer-stack operations *)

Section StackOps.
Context {Ext : Type}.
Implicit Types s : @State Ext.

(** The state an outcome leaves behind ([s] when there is none). *)
Definition state_of {A} (o : Outcome (@State Ext) A) s : @State Ext :=
  match o with
  | Ret _ s' => s'
  | Throw _ s' => s'
  | _ => s
  end.

(** Entering and leaving a transform. *)
Inductive StackOp :=
| Enter (key : DispatchKey) (batch_size : option Z) (prev_grad_mode : option bool)
| Leave.

Definition stack_step s (o : StackOp) : @State Ext :=
  match o with
  | Enter k b p => state_of (initAndPushDynamicLayer k b p s) s
  | Leave => state_of (popDynamicLayerAndDeleteMetadata s) s
  end.

Definition run_ops (ops : list StackOp) s : @State Ext :=
  foldl stack_step s ops.

(** The level of the layer at index [i] is [i + 1]. *)
Definition levels_ok (dls : list DynamicLayer) : Prop :=
  forall (i : nat) l, dls !! i = Some l -> layerId l = 1 + Z.of_nat i.

End StackOps.

(** ** [BatchRulesLoss.cpp] *)

(** Modelled from the spec: [unwrapTensorAtLevel] ([PlumbingHelper] is not
    among the sources).  A rule receives, for each tensor, the unwrapped
    value and the optional tag of its vectorized axis, which is present
    exactly when the tensor carries a batching wrapper of the current
    level. *)
Definition unwrapTensorAtLevel (tensor : Tensor) (level : Z) : Tensor * option Z :=
  match maybeGetBatchedImpl tensor with
  | Some (value, bdim, batched_level) =>
      if batched_level =? level then (value, Some bdim) else (tensor, None)
  | None => (tensor, None)
  end.

(** Modelled from the spec: [makeBatched] with an optional [bdim]
    ([PlumbingHelper] is not among the sources) wraps a result that comes
    with the tag of its vectorized axis and returns the others as they
    are. *)
Definition makeBatched (tensor : Tensor) (bdim : option Z) (level : Z) : Tensor :=
  match bdim with
  | Some b => BatchedTensorImpl tensor b level
  | None => tensor
  end.

(** [at::Reduction]. *)
Definition Reduction_None : Z := 0.
Definition Reduction_Mean : Z := 1.
Definition Reduction_Sum : Z := 2.

Section BatchRulesLoss.
Context {Ext : Type}.

(** The tensor library, as far as the rule uses it.  [dim()] reads the
    tensor.  [size(d)] reads it too and throws when [d] is out of range.
    The helpers [reshape_dim_into] and [reshape_dim_outof] and the
    operators [at::nll_loss_forward], [sum], [mean] and [new_full] go
    through the dispatcher: each of them runs on the thread state and may
    throw. *)
Variable dim : Tensor -> Z.
Variable size : Tensor -> Z -> Res Z.
Variable reshape_dim_into : Z -> Z -> Tensor -> M (@State Ext) Tensor.
Variable reshape_dim_outof : Z -> Z -> Tensor -> M (@State Ext) Tensor.
Variable at_nll_loss_forward :
  Tensor -> Tensor -> option Tensor -> Z -> Z -> M (@State Ext) (Tensor * Tensor).
Variable sum : Tensor -> Z -> M (@State Ext) Tensor.
Variable mean : Tensor -> Z -> M (@State Ext) Tensor.
Variable new_full : Tensor -> Z -> M (@State Ext) Tensor.

(** [slow_fallback<Tensor,Tensor>] of [BatchedFallback], given the name of
    the operator and the boxed arguments. *)
Variable slow_fallback : string -> list IValue -> M (@State Ext) (Tensor * Tensor).

(** [*bdim]: the value of an optional that holds one; dereferencing an
    empty optional is undefined. *)
Definition deref (bdim : option Z) : M (@State Ext) Z :=
  match bdim with
  | Some b => ret b
  | None => undefined_behaviour
  end.

(** [nll_loss_forward_self_target_batch_rule]. *)
Definition nll_loss_forward_self_target_batch_rule
  (self : Tensor) (self_bdim : option Z) (target : Tensor) (target_bdim : option Z)
  (reduction : Z) : M (@State Ext) (Tensor * option Z * Tensor * option Z) :=
  run TORCH_INTERNAL_ASSERT ((dim self =? 3) && (dim target =? 2))
        "self.dim() == 3 && target.dim() == 2";
  if reduction =? Reduction_None then
    do sb <- deref self_bdim;
    do batch_size <- lift_res (size self sb);
    do sb <- deref self_bdim;
    do self_ <- reshape_dim_into sb 0 self;
    do tb <- deref target_bdim;
    do target_ <- reshape_dim_into tb 0 target;
    do result <- at_nll_loss_forward self_ target_ None reduction (-100);
    do output <- reshape_dim_outof 0 batch_size (fst result);
    ret (output, Some 0, snd result, None)
  else if reduction =? Reduction_Sum then
    do sb <- deref self_bdim;
    do batch_size <- lift_res (size self sb);
    do sb <- deref self_bdim;
    do self_ <- reshape_dim_into sb 0 self;
    do tb <- deref target_bdim;
    do target_ <- reshape_dim_into tb 0 target;
    do res <- at_nll_loss_forward self_ target_ None Reduction_None (-100);
    let output := fst res in
    do output <- reshape_dim_outof 0 batch_size output;
    do last_size <- lift_res (size output (-1));
    do total_weight <- new_full self_ last_size;
    do summed <- sum output (-1);
    (* NB: total_weight = 0 after Reduction::None *)
    ret (summed, Some 0, total_weight, None)
  else if reduction =? Reduction_Mean then
    do sb <- deref self_bdim;
    do batch_size <- lift_res (size self sb);
    do sb <- deref self_bdim;
    do self_ <- reshape_dim_into sb 0 self;
    do tb <- deref target_bdim;
    do target_ <- reshape_dim_into tb 0 target;
    do res <- at_nll_loss_forward self_ target_ None Reduction_None (-100);
    let output := fst res in
    do output <- reshape_dim_outof 0 batch_size output;
    do last_size <- lift_res (size output (-1));
    do total_weight <- new_full self_ last_size;
    do averaged <- mean output (-1);
    (* NB: total_weight = 0 after Reduction::None *)
    ret (averaged, Some 0, total_weight, None)
  else throw (InternalAssert "false").

Definition optional_tensor_ivalue (t : option Tensor) : IValue :=
  match t with
  | Some w => IVTensor w
  | None => IVNone
  end.

(** [nll_loss_forward_plumbing]. *)
Definition nll_loss_forward_plumbing (self target : Tensor) (weight : option Tensor)
  (reduction ignore_index : Z) : M (@State Ext) (Tensor * Tensor) :=
  do maybe_layer <- gets maybeCurrentDynamicLayer;
  match maybe_layer with
  | None => throw (InternalAssert "maybe_layer.has_value()")
  | Some layer =>
      let cur_level := layerId layer in
      let self_value := fst (unwrapTensorAtLevel self cur_level) in
      let self_bdim := snd (unwrapTensorAtLevel self cur_level) in
      let target_value := fst (unwrapTensorAtLevel target cur_level) in
      let target_bdim := snd (unwrapTensorAtLevel target cur_level) in
      let weight_bdim :=
        match weight with
        | Some w => snd (unwrapTensorAtLevel w cur_level)
        | None => None
        end in
      if bool_decide (is_Some self_bdim) && bool_decide (is_Some target_bdim)
         && negb (bool_decide (is_Some weight_bdim)) && (ignore_index <? 0)
      then
        with_ExcludeDispatchKeyGuard (ks_of kBatchedKey)
          (do results <- nll_loss_forward_self_target_batch_rule
                 self_value self_bdim target_value target_bdim reduction;
           let '(r0, b0, r1, b1) := results in
           ret (makeBatched r0 b0 cur_level, makeBatched r1 b1 cur_level))
      else
        slow_fallback "aten::nll_loss_forward"
          [IVTensor self; IVTensor target; optional_tensor_ivalue weight;
           IVInt reduction; IVInt ignore_index]
  end.

End BatchRulesLoss.

(** ** Definitions for the statements

    The states the stack operations lead to, the properties of the design
    in its own words, and the conditions under which a pass does not
    raise.  None of these is used by the embedding above. *)

Section Statements.
Context {Ext : Type}.
Implicit Types (s : @State Ext) (dl : DynamicLayer).

(** [pushDynamicLayer], case by case. *)
Definition push_state dl s : @State Ext :=
  let s1 := set_dynamicLayerStack (dynamicLayerStack s ++ [dl]) s in
  if (length (dynamicLayerStack s) =? 0)%nat
  then setDynamicLayerFrontBackKeysIncluded true s1 else s1.

(** [initAndPushDynamicLayer], case by case. *)
Definition snapshot_taken s : @State Ext :=
  if (length (dynamicLayerStack s) =? 0)%nat
  then set_prev_local_keyset (Some (tls_local_dispatch_key_set s)) s else s.

Definition new_layer (k : DispatchKey) (b : option Z) (p : option bool) s : DynamicLayer :=
  mkDynamicLayer k (1 + Z.of_nat (length (dynamicLayerStack s))) b p (length (life_cells s)).

Definition entered_state (k : DispatchKey) (b : option Z) (p : option bool) s : @State Ext :=
  push_state (new_layer k b p s)
    (set_life_cells (life_cells s ++ [true]) (snapshot_taken s)).

Definition enter_allowed (k : DispatchKey) (p : option bool) s : Prop :=
  k <> Undefined /\ k <> Batched /\ (k = Autograd -> is_Some p)
  /\ (dynamicLayerStack s <> [] -> is_Some (prev_local_keyset_ s)).

(** [popDynamicLayer] and [popDynamicLayerAndDeleteMetadata], case by case. *)
Definition pop_state s : @State Ext :=
  let rest := removelast (dynamicLayerStack s) in
  let s1 := set_dynamicLayerStack rest s in
  if (length rest =? 0)%nat then setDynamicLayerFrontBackKeysIncluded false s1 else s1.

Definition left_state (top : DynamicLayer) s : @State Ext :=
  let s1 := pop_state s in
  let s2 := set_life_cells (<[lifeHandle top := false]> (life_cells s1)) s1 in
  if (length (dynamicLayerStack s2) =? 0)%nat then set_prev_local_keyset None s2 else s2.

(** The invariant of the states reached by entering and leaving. *)
Definition stack_inv s : Prop :=
  levels_ok (dynamicLayerStack s)
  /\ NoDup (lifeHandle <$> dynamicLayerStack s)
  /\ (forall l, l ∈ dynamicLayerStack s ->
        cell_alive (life_cells s) (lifeHandle l) = true /\ key l <> Undefined)
  /\ (dynamicLayerStack s <> [] -> is_Some (prev_local_keyset_ s)).

(** What the design says the pass does to one boxed value: a tensor, and
    every tensor directly inside a list, is replaced by [f] of it; nothing
    else changes. *)
Definition map_elem (f : Tensor -> Tensor) (elt : IValue) : IValue :=
  match elt with
  | IVTensor t => IVTensor (f t)
  | _ => elt
  end.

Definition map_ivalue (f : Tensor -> Tensor) (v : IValue) : IValue :=
  match v with
  | IVTensor t => IVTensor (f t)
  | IVList ty elems => IVList ty (map_elem f <$> elems)
  | _ => v
  end.

(** The stack with the values at positions [begin, end) mapped. *)
Definition map_range (begin end_ : nat) (f : Tensor -> Tensor) (args : list IValue)
  : list IValue :=
  take begin args ++ (map_ivalue f <$> take (end_ - begin) (drop begin args))
  ++ drop end_ args.

(** When [func] computes [f] on the tensors of a value and the value
    passes the two assertions of the loop body. *)
Definition value_ok (func : Tensor -> Res Tensor) (f : Tensor -> Tensor) (v : IValue)
  : Prop :=
  match v with
  | IVTensor t => func t = Ok (f t) /\ (defined t = true -> defined (f t) = true)
  | IVList _ elems => forall t, IVTensor t ∈ elems -> func t = Ok (f t)
  | IVGenericDict _ => False
  | _ => True
  end.

(** The pure functions [f] that never turn a defined tensor at the top
    level of the given positions into an undefined one. *)
Definition keeps_defined (f : Tensor -> Tensor) (args : list IValue) (b e : nat) : Prop :=
  forall (i : nat) t,
    (b <= i < e)%nat -> args !! i = Some (IVTensor t) ->
    defined t = true -> defined (f t) = true.

Definition no_dict_in (args : list IValue) (b e : nat) : Prop :=
  forall (i : nat) v, (b <= i < e)%nat -> args !! i = Some v -> isGenericDict v = false.

(** A tensor without grad wrapper and without batching wrapper, and a
    boxed value whose tensors (its own, or directly inside a list) are
    all such and that is no dictionary. *)
Definition tensor_clean (t : Tensor) : bool :=
  match t with
  | TensorWrapper _ _ _ => false
  | BatchedTensorImpl _ _ _ => false
  | _ => true
  end.

Definition ivalue_clean (v : IValue) : bool :=
  match v with
  | IVTensor t => tensor_clean t
  | IVList _ elems =>
      forallb (fun elt => match elt with IVTensor t => tensor_clean t | _ => true end) elems
  | IVGenericDict _ => false
  | _ => true
  end.

(** The arguments of a call: the last [n] values of the stack. *)
Definition call_args (n : nat) (st : list IValue) : list IValue :=
  drop (length st - n) st.

(** Leaving a scope whose guard forces the key set [saved] back. *)
Definition leave_forcing {A} (saved : LocalDispatchKeySet) (o : Outcome (@State Ext) A)
  : Outcome (@State Ext) A :=
  match o with
  | Ret a s' => Ret a (force_tls_local_dispatch_key_set saved s')
  | Throw e s' => Throw e (force_tls_local_dispatch_key_set saved s')
  | Terminate => Terminate
  | UB => UB
  end.

(** A tensor that carries a live grad wrapper of level [L]. *)
Definition wrapped_at_level s (t : Tensor) (L : Z) : bool :=
  match maybeGetTensorWrapper t with
  | Some (_, level_, h) =>
      match wrapper_level (life_cells s) level_ h with
      | Some level => level =? L
      | None => false
      end
  | None => false
  end.

(** The argument pass in the words of the design: a dead wrapper gives
    way to its inner value; then, under a top layer of kind [Autograd], a
    defined tensor that is not wrapped at the top level gets a fresh
    wrapper of that level, which shares the top layer's liveness cell. *)
Definition spec_unwrap_dead s (t : Tensor) : Tensor :=
  match t with
  | TensorWrapper inner _ h => if cell_alive (life_cells s) h then t else inner
  | _ => t
  end.

Definition spec_normalize s (top : DynamicLayer) (t : Tensor) : Tensor :=
  let t' := spec_unwrap_dead s t in
  if bool_decide (key top = Autograd) && defined t' then
    if wrapped_at_level s t' (layerId top) then t'
    else TensorWrapper t' (layerId top) (lifeHandle top)
  else t'.

(** The tensors on which the pass does not raise: what is left after the
    dead wrapper is removed is, under an [Autograd] top layer, not again a
    dead wrapper and not a wrapper of a level above the top. *)
Definition tensor_normalizable s (top : DynamicLayer) (t : Tensor) : bool :=
  let t' := spec_unwrap_dead s t in
  if bool_decide (key top = Autograd) && defined t' then
    match t' with
    | TensorWrapper _ l h => cell_alive (life_cells s) h && (l <=? layerId top)
    | _ => true
    end
  else true.

Definition value_normalizable s (top : DynamicLayer) (v : IValue) : Prop :=
  match v with
  | IVTensor t =>
      tensor_normalizable s top t = true
      /\ (defined t = true -> defined (spec_normalize s top t) = true)
  | IVList _ elems => forall t, IVTensor t ∈ elems -> tensor_normalizable s top t = true
  | IVGenericDict _ => False
  | _ => True
  end.

(** An outcome whose final state goes through [g]. *)
Definition map_outcome {A} (g : @State Ext -> @State Ext) (o : Outcome (@State Ext) A)
  : Outcome (@State Ext) A :=
  match o with
  | Ret a s' => Ret a (g s')
  | Throw e s' => Throw e (g s')
  | Terminate => Terminate
  | UB => UB
  end.

Definition set_excluded (f : DispatchKeySet -> DispatchKeySet) s : @State Ext :=
  let t := tls_local_dispatch_key_set s in
  force_tls_local_dispatch_key_set (mkLocalDispatchKeySet (included_ t) (f (excluded_ t))) s.

Definition set_included (f : DispatchKeySet -> DispatchKeySet) s : @State Ext :=
  let t := tls_local_dispatch_key_set s in
  force_tls_local_dispatch_key_set (mkLocalDispatchKeySet (f (included_ t)) (excluded_ t)) s.

(** The state in which the body of an exclude guard, of an include guard,
    starts. *)
Definition enter_exclude (exclude : DispatchKeySet) s : @State Ext :=
  let exclude_ := ks_sub exclude (excluded_ (tls_local_dispatch_key_set s)) in
  if negb (ks_empty exclude_) then set_excluded (fun e => ks_or e exclude_) s else s.

Definition leave_exclude (exclude : DispatchKeySet) s (s' : @State Ext) : @State Ext :=
  let exclude_ := ks_sub exclude (excluded_ (tls_local_dispatch_key_set s)) in
  if negb (ks_empty exclude_) then set_excluded (fun e => ks_sub e exclude_) s' else s'.

Definition enter_include (include : DispatchKeySet) s : @State Ext :=
  let include_ := ks_sub include (included_ (tls_local_dispatch_key_set s)) in
  if negb (ks_empty include_) then set_included (fun i => ks_or i include_) s else s.

Definition leave_include (include : DispatchKeySet) s (s' : @State Ext) : @State Ext :=
  let include_ := ks_sub include (included_ (tls_local_dispatch_key_set s)) in
  if negb (ks_empty include_) then set_included (fun i => ks_sub i include_) s' else s'.


(** A call that leaves the layer stack as it found it, whether it returns
    or throws. *)
Definition preserves_layers {A} (m : M (@State Ext) A) : Prop :=
  forall s,
    match m s with
    | Ret _ s' => dynamicLayerStack s' = dynamicLayerStack s
    | Throw _ s' => dynamicLayerStack s' = dynamicLayerStack s
    | _ => True
    end.

(** The state in which the re-dispatched call of the back fallback runs,
    and the state in which the destructor of [WithoutTop] runs after it. *)
Definition back_call_state s (prev : LocalDispatchKeySet) (no_grad : bool) : @State Ext :=
  let s_pop := pop_state s in
  let s_reset :=
    force_tls_local_dispatch_key_set
      (reset_keyset (tls_local_dispatch_key_set s_pop) prev) s_pop in
  let s_keys := setDynamicLayerFrontBackKeysIncluded true s_reset in
  if no_grad then set_grad_mode false s_keys else s_keys.

Definition back_after_call s (no_grad : bool) (s2 : @State Ext) : @State Ext :=
  force_tls_local_dispatch_key_set (tls_local_dispatch_key_set (pop_state s))
    (if no_grad then set_grad_mode (grad_mode s) s2 else s2).

(** Leaving the scope of [WithoutTop]. *)
Definition repush {A} (top : DynamicLayer) (o : Outcome (@State Ext) A)
  : Outcome (@State Ext) A :=
  match o with
  | Ret a s' =>
      match pushDynamicLayer top s' with
      | Ret _ s'' => Ret a s''
      | UB => UB
      | _ => Terminate
      end
  | Throw e s' =>
      match pushDynamicLayer top s' with
      | Ret _ s'' => Throw e s''
      | UB => UB
      | _ => Terminate
      end
  | Terminate => Terminate
  | UB => UB
  end.

(** Steps 2 and 4 in the words of the design: a tensor wrapped at the
    current level is unwrapped; a defined tensor is wrapped at the current
    level, with the top layer's liveness cell. *)
Definition spec_unwrap_level s (L : Z) (t : Tensor) : Tensor :=
  if wrapped_at_level s t L then
    match t with
    | TensorWrapper inner _ _ => inner
    | _ => t
    end
  else t.


(** The tensors on which [unwrap] does not raise: no dead wrapper and no
    wrapper of a level above the current one. *)
Definition tensor_unwrappable s (L : Z) (t : Tensor) : bool :=
  match t with
  | TensorWrapper _ l h => cell_alive (life_cells s) h && (l <=? L)
  | _ => true
  end.

Definition value_unwrappable s (L : Z) (v : IValue) : Prop :=
  match v with
  | IVTensor t =>
      tensor_unwrappable s L t = true
      /\ (defined t = true -> defined (spec_unwrap_level s L t) = true)
  | IVList _ elems => forall t, IVTensor t ∈ elems -> tensor_unwrappable s L t = true
  | IVGenericDict _ => False
  | _ => True
  end.

(** A tensor that carries a batching wrapper of level [L]. *)
Definition batched_at_level (t : Tensor) (L : Z) : bool :=
  match maybeGetBatchedImpl t with
  | Some (_, _, l) => l =? L
  | None => false
  end.

End Statements.

(** ** A recording operator, for running the fallbacks on examples *)

(** What the recording operator notes down when it is called: the layer
    stack, key set, grad mode and boxed stack it sees; and what the
    recording [refreshMetadata] notes down. *)
Inductive Event :=
| Called (layers : list DynamicLayer) (keyset : LocalDispatchKeySet)
         (grad : bool) (st : list IValue)
| Refreshed (t : Tensor).

(** The operator pops its arguments and pushes [results]. *)
Definition probe_callBoxed (results : list IValue) (op : FunctionSchema)
  : M (@State (list Event)) unit :=
  fun s =>
    Ret tt
      (set_ext (ext s ++ [Called (dynamicLayerStack s) (tls_local_dispatch_key_set s)
                            (grad_mode s) (stack s)])
         (set_stack (take (length (stack s) - length (arguments op)) (stack s) ++ results)
            s)).

Definition probe_refresh (t : Tensor) (log : list Event) : list Event :=
  log ++ [Refreshed t].

(** [add_(Tensor(a!) self, Tensor other) -> Tensor(a!)]. *)
Definition add__schema : FunctionSchema :=
  mkFunctionSchema "aten::add_.Tensor"
    [mkArgument (Some (mkAliasInfo true)); mkArgument None]
    [mkArgument (Some (mkAliasInfo true))].

(** [relu(Tensor self) -> Tensor]. *)
Definition relu_schema : FunctionSchema :=
  mkFunctionSchema "aten::relu" [mkArgument None] [mkArgument None].

Definition front_back_included : LocalDispatchKeySet :=
  mkLocalDispatchKeySet
    (ks_of_list [kDynamicLayerFrontModeKey; kDynamicLayerBackModeKey]) 0.

Definition empty_keyset : LocalDispatchKeySet := mkLocalDispatchKeySet 0 0.

(** One transform entered, of the given kind, over the given boxed stack. *)
Definition one_layer_state (k : DispatchKey) (pgm : option bool) (st : list IValue)
  : @State (list Event) :=
  mkState [mkDynamicLayer k 1 None pgm 0%nat] (Some empty_keyset) front_back_included
          true [true] st [].

(** No transform entered. *)
Definition no_layer_state (st : list IValue) : @State (list Event) :=
  mkState [] None empty_keyset true [] st [].

(** Two nested grad transforms; the wrapper of level 1 is captured from
    the outer one. *)
Definition two_grad_layers (st : list IValue) : @State (list Event) :=
  mkState [mkDynamicLayer Autograd 1 None (Some true) 0%nat;
           mkDynamicLayer Autograd 2 None (Some true) 1%nat]
          (Some empty_keyset) front_back_included true [true; true] st [].

(** ** Stacks for the examples of [foreachTensorInplace] *)

Definition c10_args : list IValue :=
  [IVTensor (DenseTensor 1); IVTensor (DenseTensor 2)].
Definition c10_undef (_ : Tensor) : Tensor := UndefinedTensor.
Definition c10_wrap (t : Tensor) : Tensor := TensorWrapper t 1 0%nat.
Definition c10_mixed : list IValue :=
  [IVInt 5; IVTensor (DenseTensor 1);
   IVList OptionalTensorType [IVNone; IVTensor (DenseTensor 2)];
   IVTensor (DenseTensor 3)].

(** ** States and tensors of the examples *)

Definition tw1 : Tensor := TensorWrapper (DenseTensor 1) 1 0%nat.

Definition outer_layer : DynamicLayer := mkDynamicLayer Autograd 1 None (Some true) 0%nat.
Definition inner_layer : DynamicLayer := mkDynamicLayer Autograd 2 None (Some true) 1%nat.

Definition grad_layer (pgm : bool) : DynamicLayer :=
  mkDynamicLayer Autograd 1 None (Some pgm) 0%nat.
Definition vmap_layer : DynamicLayer :=
  mkDynamicLayer FuncTorchBatched 1 None None 0%nat.

(** The stack is empty again, inside the re-dispatch of the last layer. *)
Definition between_layers_state (st : list IValue) : @State (list Event) :=
  mkState [] (Some empty_keyset) front_back_included true [] st [].

Definition stub_slow_fallback (name : string) (args : list IValue)
  : M (@State (list Event)) (Tensor * Tensor) :=
  fun s => Ret (DenseTensor 0, DenseTensor 0) s.

(** ** Further definitions

    The accessor [DynamicLayer::batchSize], and the notions in which the
    properties of the remaining sections are stated. *)

(** [DynamicLayer::batchSize]. *)
Definition batchSize (dl : DynamicLayer) : Res Z :=
  match batchSize_ dl with
  | Some b => Ok b
  | None => Err (InternalAssert "batchSize_")
  end.

(** The tensors [allTensors] and [foreachTensorInplace] look at: a value
    that is a tensor, and the tensors directly inside a list. *)
Definition tensors_of_ivalue (v : IValue) : list Tensor :=
  match v with
  | IVTensor t => [t]
  | IVList _ elems =>
      omap (fun elt => match elt with IVTensor t => Some t | _ => None end) elems
  | _ => []
  end.

Definition tensors_of (args : list IValue) : list Tensor :=
  args ≫= tensors_of_ivalue.

(** Two boxed values with the same tag (and, for lists, the same element
    type and length). *)
Definition same_shape (v v' : IValue) : Prop :=
  match v, v' with
  | IVTensor _, IVTensor _ => True
  | IVList ty elems, IVList ty' elems' => ty = ty' /\ length elems = length elems'
  | _, _ => v = v'
  end.

(** The key set that [setDynamicLayerFrontBackKeysIncluded] leaves: both
    mode keys in the included set, or both out of it. *)
Definition mode_keys (included : bool) (ks : LocalDispatchKeySet) : LocalDispatchKeySet :=
  mkLocalDispatchKeySet
    (if included then
       ks_add (ks_add (included_ ks) kDynamicLayerFrontModeKey) kDynamicLayerBackModeKey
     else
       ks_remove (ks_remove (included_ ks) kDynamicLayerFrontModeKey)
         kDynamicLayerBackModeKey)
    (excluded_ ks).

Section FurtherStatements.
Context {Ext : Type}.
Implicit Types s : @State Ext.

(** What a call does to the state it starts in, whether it returns or
    throws: the final state is related to [s] by [R]. *)
Definition rel_at {A} (R : @State Ext -> @State Ext -> Prop) (m : M (@State Ext) A) s
  : Prop :=
  match m s with
  | Ret _ s' => R s s'
  | Throw _ s' => R s s'
  | _ => True
  end.

Definition same_keyset s (s' : @State Ext) : Prop :=
  tls_local_dispatch_key_set s' = tls_local_dispatch_key_set s.

(** The same key set and, when [keep_grad] is set, the same grad mode. *)
Definition same_keyset_and_grad (keep_grad : bool) s (s' : @State Ext) : Prop :=
  tls_local_dispatch_key_set s' = tls_local_dispatch_key_set s
  /\ (keep_grad = true -> grad_mode s' = grad_mode s).

(** A call that leaves the thread's dispatch key set as it found it,
    whether it returns or throws. *)
Definition keeps_keyset {A} (m : M (@State Ext) A) : Prop :=
  forall s, rel_at same_keyset m s.

End FurtherStatements.

(** ** Further examples *)

(** An operator that throws before it touches anything. *)
Definition throwing_callBoxed (op : FunctionSchema) : M (@State (list Event)) unit :=
  fun s => Throw (OperatorError 1) s.

(** A function on tensors that wraps every tensor but one, at which it
    throws. *)
Definition wrap_but_3 (t : Tensor) : Res Tensor :=
  match t with
  | DenseTensor 3 => Err (OperatorError 7)
  | _ => Ok (c10_wrap t)
  end.

(** A tensor that escaped two nested grad transforms, and a thread that
    has entered a third one since. *)
Definition escaped_twice : Tensor :=
  TensorWrapper (TensorWrapper (DenseTensor 1) 1 1%nat) 2 2%nat.

Definition after_two_grads (k : DispatchKey) (pgm : option bool)
  : @State (list Event) :=
  mkState [mkDynamicLayer k 1 None pgm 0%nat] (Some empty_keyset) front_back_included
          true [true; false; false] [] [].

(** A tensor library in which the first tensor has three dimensions and
    every other one two. *)
Definition stub_dim (t : Tensor) : Z :=
  match t with
  | DenseTensor 1 => 3
  | _ => 2
  end.

(** Entering a grad transform, entering a vmap transform inside it, and
    leaving the vmap transform. *)
Definition enter_grad : StackOp := Enter Autograd None (Some true).
Definition enter_vmap : StackOp := Enter kBatchedKey (Some 4) None.

(** ** The generic fallback of the batching layers *)

Section BatchedFallback.
Context {Ext : Type}.

(** The tensor library and the operator table, as far as the loop uses
    them: [select(dim, index)], the slice of a tensor; [at::stack], along a
    new leading axis; and the operation itself, called by name on the boxed
    arguments of one sample, below the batching layer.  Each of them runs
    on the thread state and may throw. *)
Variable select : Tensor -> Z -> Z -> M (@State Ext) Tensor.
Variable at_stack : list Tensor -> M (@State Ext) Tensor.
Variable call_unbatched : string -> list IValue -> M (@State Ext) (Tensor * Tensor).

(** Modelled from the spec: the slice of one argument of the generic slow
    path ([BatchedFallback] is not among the sources).  A tensor that is
    vectorized at the current level gives its slice at [index] along the
    vectorized axis; every other value is the same for every sample. *)
Definition sample_of_argument (level index : Z) (v : IValue) : M (@State Ext) IValue :=
  match v with
  | IVTensor t =>
      match unwrapTensorAtLevel t level with
      | (value, Some bdim) => do slice <- select value bdim index; ret (IVTensor slice)
      | (_, None) => ret v
      end
  | _ => ret v
  end.

(** Modelled from the spec: the slices of all arguments, first to last
    ([BatchedFallback] is not among the sources). *)
Fixpoint sample_of_arguments (level index : Z) (args : list IValue)
  : M (@State Ext) (list IValue) :=
  match args with
  | [] => ret []
  | v :: rest =>
      do v' <- sample_of_argument level index v;
      do rest' <- sample_of_arguments level index rest;
      ret (v' :: rest')
  end.

(** Modelled from the spec: the loop of the generic slow path
    ([BatchedFallback] is not among the sources), which runs the operation
    over the vectorized dimension explicitly, one sample after the
    other. *)
Fixpoint loop_over_samples (op : string) (level : Z) (args : list IValue)
  (count : nat) (index : Z) : M (@State Ext) (list (Tensor * Tensor)) :=
  match count with
  | O => ret []
  | S count' =>
      do sample <- sample_of_arguments level index args;
      do result <- call_unbatched op sample;
      do results <- loop_over_samples op level args count' (index + 1);
      ret (result :: results)
  end.

(** Modelled from the spec: [slow_fallback<Tensor,Tensor>]
    ([BatchedFallback] is not among the sources), the generic slow path
    for an operation with two results.  It loops the operation over the
    vectorized dimension, as many times as the batch size of the current
    layer says, and stacks the results of the samples along a new leading
    axis, which is the vectorized axis of what it returns. *)
Definition slow_fallback (op : string) (args : list IValue)
  : M (@State Ext) (Tensor * Tensor) :=
  do maybe_layer <- gets maybeCurrentDynamicLayer;
  match maybe_layer with
  | None => throw (InternalAssert "maybe_layer.has_value()")
  | Some layer =>
      let cur_level := layerId layer in
      do batch_size <- lift_res (batchSize layer);
      do results <- loop_over_samples op cur_level args (Z.to_nat batch_size) 0;
      do output0 <- at_stack (fst <$> results);
      do output1 <- at_stack (snd <$> results);
      ret (makeBatched output0 (Some 0) cur_level, makeBatched output1 (Some 0) cur_level)
  end.

(** In the words of the design: the slices of the arguments at one index.
    An argument batched at level [level] is replaced by what [select]
    returns for its value, its vectorized axis and the index; the others
    stay. *)
Inductive slices_at (level index : Z)
  : list IValue -> @State Ext -> list IValue -> @State Ext -> Prop :=
| slices_at_nil s : slices_at level index [] s [] s
| slices_at_batched value bdim rest s slice s1 rest' s2 :
    select value bdim index s = Ret slice s1 ->
    slices_at level index rest s1 rest' s2 ->
    slices_at level index (IVTensor (BatchedTensorImpl value bdim level) :: rest) s
      (IVTensor slice :: rest') s2
| slices_at_other v rest s rest' s1 :
    (forall value bdim, v <> IVTensor (BatchedTensorImpl value bdim level)) ->
    slices_at level index rest s rest' s1 ->
    slices_at level index (v :: rest) s (v :: rest') s1.

(** In the words of the design: the unbatched operation run on each of
    [count] slices, from [index] on; [results] are what the runs returned,
    in the order of the slices. *)
Inductive runs_on_slices (op : string) (level : Z) (args : list IValue)
  : nat -> Z -> @State Ext -> list (Tensor * Tensor) -> @State Ext -> Prop :=
| runs_on_slices_done index s : runs_on_slices op level args 0 index s [] s
| runs_on_slices_next count index s sample s1 result s2 results s3 :
    slices_at level index args s sample s1 ->
    call_unbatched op sample s1 = Ret result s2 ->
    runs_on_slices op level args count (index + 1) s2 results s3 ->
    runs_on_slices op level args (S count) index s (result :: results) s3.

(** A tensor library and an operation that return on every input. *)
Definition library_returns : Prop :=
  (forall t d i s, exists x s', select t d i s = Ret x s')
  /\ (forall ts s, exists x s', at_stack ts s = Ret x s')
  /\ (forall op args s, exists r s', call_unbatched op args s = Ret r s').

End BatchedFallback.

(** ** The front fallback without the skip *)

Section WithoutSkip.
Context {Ext : Type}.
Variable callBoxed : FunctionSchema -> M (@State Ext) unit.



End WithoutSkip.

(** ** Examples for the argument pass, the batch rule and the fallback *)

(** A tensor wrapped by two nested grad transforms, and the thread after
    both were left and a third grad transform was entered. *)
Definition wrapped_twice : Tensor := TensorWrapper tw1 2 1%nat.

Definition third_grad_state (st : list IValue) : @State (list Event) :=
  set_stack st
    (run_ops [enter_grad; enter_grad; Leave; Leave; enter_grad] (no_layer_state [])).

(** A vmap transform with a batch size. *)
Definition vmap_state (batch_size : Z) (st : list IValue) : @State (list Event) :=
  mkState [mkDynamicLayer FuncTorchBatched 1 (Some batch_size) None 0%nat]
          (Some empty_keyset) front_back_included true [true] st [].

(** A tensor library in which every tensor has extent 4 along each of its
    dimensions -3 .. 2, reshaping and reducing return the tensor they are
    given, and the loss of [self] and [target] is the pair of them. *)
Definition stub_size (t : Tensor) (d : Z) : Res Z :=
  if (-3 <=? d) && (d <? 3) then Ok 4
  else Err (OperatorError 3).

Definition stub_reshape (a b : Z) (t : Tensor) : M (@State (list Event)) Tensor :=
  ret t.

Definition stub_nll_loss_forward (self target : Tensor) (weight : option Tensor)
  (reduction ignore_index : Z) : M (@State (list Event)) (Tensor * Tensor) :=
  ret (self, target).

Definition stub_reduce (t : Tensor) (d : Z) : M (@State (list Event)) Tensor :=
  ret t.

Definition stub_new_full (t : Tensor) (fill_value : Z) : M (@State (list Event)) Tensor :=
  ret (DenseTensor fill_value).

(** A tensor library in which the slice of the dense tensor [n] at index
    [i] is the dense tensor [10 * n + i], stacking dense tensors gives the
    dense tensor whose number has theirs as its digits in base 100, and an
    operation that returns the sum of its first two arguments and the
    tensor 1. *)
Definition tensor_number (t : Tensor) : Z :=
  match t with
  | DenseTensor n => n
  | _ => 0
  end.

Definition stub_select (t : Tensor) (d i : Z) : M (@State (list Event)) Tensor :=
  ret (DenseTensor (10 * tensor_number t + i)).

Definition stub_stack (ts : list Tensor) : M (@State (list Event)) Tensor :=
  ret (DenseTensor (foldl (fun acc t => 100 * acc + tensor_number t) 0 ts)).

Definition stub_unbatched (op : string) (args : list IValue)
  : M (@State (list Event)) (Tensor * Tensor) :=
  match args with
  | IVTensor a :: IVTensor b :: _ =>
      ret (DenseTensor (tensor_number a + tensor_number b), DenseTensor 1)
  | _ => ret (DenseTensor 0, DenseTensor 1)
  end.

(** ** Key sets *)

Lemma testbit_one (x : Z) : Z.testbit 1 x = (x =? 0).
Proof. destruct x as [|p|p]; reflexivity. Qed.

Lemma land_shiftl_one (s n : Z) :
  0 <= n -> (Z.land s (Z.shiftl 1 n) =? 0) = negb (Z.testbit s n).
Proof.
  intros Hn. destruct (Z.testbit s n) eqn:E; simpl.
  - apply Z.eqb_neq. intros H.
    assert (Z.testbit (Z.land s (Z.shiftl 1 n)) n = true) as Hb.
    { rewrite Z.land_spec, E, Z.shiftl_spec by lia.
      rewrite Z.sub_diag. reflexivity. }
    rewrite H, Z.bits_0 in Hb. discriminate.
  - apply Z.eqb_eq. apply Z.bits_inj'. intros m Hm.
    rewrite Z.land_spec, Z.shiftl_spec, testbit_one, Z.bits_0 by lia.
    destruct (Z.eqb_spec (m - n) 0) as [H0|H0].
    + replace m with n by lia. rewrite E. reflexivity.
    + apply andb_false_r.
Qed.

Lemma key_value_pos k : k <> Undefined -> 0 <= key_value k - 1.
Proof. destruct k; simpl; intros; try lia; congruence. Qed.

Lemma ks_has_testbit s k :
  k <> Undefined -> ks_has s k = Z.testbit s (key_value k - 1).
Proof.
  intros Hk. unfold ks_has.
  replace (ks_of k) with (Z.shiftl 1 (key_value k - 1)) by (destruct k; done).
  rewrite land_shiftl_one by (by apply key_value_pos). apply negb_involutive.
Qed.

Lemma ks_has_undefined s : ks_has s Undefined = false.
Proof. unfold ks_has. simpl. rewrite Z.land_0_r. reflexivity. Qed.

Lemma ks_has_or a b k : ks_has (ks_or a b) k = ks_has a k || ks_has b k.
Proof.
  destruct (decide (k = Undefined)) as [->|Hk]; [by rewrite !ks_has_undefined|].
  rewrite !ks_has_testbit by done. apply Z.lor_spec.
Qed.

Lemma ks_has_and a b k : ks_has (ks_and a b) k = ks_has a k && ks_has b k.
Proof.
  destruct (decide (k = Undefined)) as [->|Hk]; [by rewrite !ks_has_undefined|].
  rewrite !ks_has_testbit by done. apply Z.land_spec.
Qed.

Lemma ks_has_sub a b k : ks_has (ks_sub a b) k = ks_has a k && negb (ks_has b k).
Proof.
  destruct (decide (k = Undefined)) as [->|Hk]; [by rewrite !ks_has_undefined|].
  rewrite !ks_has_testbit by done. apply Z.ldiff_spec.
Qed.

Lemma ks_has_of k k' :
  ks_has (ks_of k) k' = bool_decide (k = k') && negb (bool_decide (k = Undefined)).
Proof. destruct k, k'; reflexivity. Qed.

Lemma ks_has_add s k k' :
  ks_has (ks_add s k) k'
  = ks_has s k' || (bool_decide (k = k') && negb (bool_decide (k = Undefined))).
Proof. unfold ks_add. by rewrite ks_has_or, ks_has_of. Qed.

Lemma ks_has_remove s k k' :
  ks_has (ks_remove s k) k'
  = ks_has s k' && negb (bool_decide (k = k') && negb (bool_decide (k = Undefined))).
Proof. unfold ks_remove. by rewrite ks_has_sub, ks_has_of. Qed.

Lemma ks_has_empty k : ks_has 0 k = false.
Proof. unfold ks_has. reflexivity. Qed.

Section KeySetFacts.
Context {Ext : Type}.
Implicit Types s : @State Ext.

Lemma tls_set_dispatch_key_included_has x (desired : bool) s k :
  x <> Undefined ->
  ks_has (included_ (tls_local_dispatch_key_set (tls_set_dispatch_key_included x desired s))) k
  = if decide (x = k) then desired
    else ks_has (included_ (tls_local_dispatch_key_set s)) k.
Proof.
  intros Hx. unfold tls_set_dispatch_key_included.
  destruct (eqb desired (ks_has (included_ (tls_local_dispatch_key_set s)) x)) eqn:E.
  - apply eqb_prop in E. destruct (decide (x = k)) as [<-|Hk]; done.
  - apply eqb_false_iff in E.
    destruct desired; simpl; rewrite ?ks_has_add, ?ks_has_remove;
      rewrite (bool_decide_eq_false_2 (x = Undefined)) by done; simpl;
      destruct (decide (x = k)) as [<-|Hk];
      rewrite ?bool_decide_eq_true_2, ?bool_decide_eq_false_2 by done; simpl;
      rewrite ?orb_true_r, ?orb_false_r, ?andb_true_r, ?andb_false_r; done.
Qed.

Lemma tls_set_dispatch_key_included_excluded x (desired : bool) s :
  excluded_ (tls_local_dispatch_key_set (tls_set_dispatch_key_included x desired s))
  = excluded_ (tls_local_dispatch_key_set s).
Proof.
  unfold tls_set_dispatch_key_included.
  destruct (eqb _ _); [done|]. destruct desired; reflexivity.
Qed.

Lemma setFrontBack_has (b : bool) s k :
  ks_has (included_ (tls_local_dispatch_key_set (setDynamicLayerFrontBackKeysIncluded b s))) k
  = if decide (k = kDynamicLayerFrontModeKey \/ k = kDynamicLayerBackModeKey) then b
    else ks_has (included_ (tls_local_dispatch_key_set s)) k.
Proof.
  unfold setDynamicLayerFrontBackKeysIncluded.
  rewrite !tls_set_dispatch_key_included_has by done.
  destruct (decide (kDynamicLayerBackModeKey = k)) as [<-|H1].
  - rewrite decide_True by auto. done.
  - destruct (decide (kDynamicLayerFrontModeKey = k)) as [<-|H2].
    + rewrite decide_True by auto. done.
    + rewrite decide_False; [done|]. intros [?|?]; congruence.
Qed.

Lemma setFrontBack_excluded (b : bool) s :
  excluded_ (tls_local_dispatch_key_set (setDynamicLayerFrontBackKeysIncluded b s))
  = excluded_ (tls_local_dispatch_key_set s).
Proof.
  unfold setDynamicLayerFrontBackKeysIncluded.
  by rewrite !tls_set_dispatch_key_included_excluded.
Qed.

End KeySetFacts.

Section StackFacts.
Context {Ext : Type}.
Implicit Types (s : @State Ext) (dl : DynamicLayer).

Ltac munfold :=
  unfold bind, gets, modify, ret, throw, TORCH_INTERNAL_ASSERT, lift_res,
    undefined_behaviour in *.

Lemma levels_ok_nil : levels_ok [].
Proof. intros i l H. rewrite lookup_nil in H. discriminate. Qed.

Lemma levels_ok_snoc dls dl :
  levels_ok dls -> layerId dl = 1 + Z.of_nat (length dls) -> levels_ok (dls ++ [dl]).
Proof.
  intros Hok Hl i l Hi.
  destruct (decide (i < length dls)%nat) as [Hlt|Hge].
  - rewrite lookup_app_l in Hi by exact Hlt. eauto.
  - rewrite lookup_app_r in Hi by lia.
    destruct (i - length dls)%nat as [|n] eqn:E; simpl in Hi; [|discriminate].
    inversion Hi; subst l. rewrite Hl. f_equal. lia.
Qed.

Lemma levels_ok_app_l dls dls' : levels_ok (dls ++ dls') -> levels_ok dls.
Proof.
  intros Hok i l Hi. apply Hok. rewrite lookup_app_l; [exact Hi|].
  eapply lookup_lt_Some; eauto.
Qed.

Lemma last_snoc_inv {A} (l : list A) x :
  last l = Some x -> l = removelast l ++ [x].
Proof.
  intros H. destruct (decide (l = [])) as [->|Hne]; [discriminate|].
  destruct (exists_last Hne) as (l' & y & ->).
  rewrite last_snoc in H. inversion H; subst.
  by rewrite removelast_last.
Qed.

Lemma removelast_snoc {A} (l : list A) x : removelast (l ++ [x]) = l.
Proof. apply removelast_last. Qed.

Lemma pushDynamicLayer_mismatch dl s :
  layerId dl <> 1 + Z.of_nat (length (dynamicLayerStack s)) ->
  pushDynamicLayer dl s = Throw (InternalAssert "layerId == dynamic_layer.layerId()") s.
Proof.
  intros H. unfold pushDynamicLayer. munfold.
  destruct (Z.eqb_spec (1 + Z.of_nat (length (dynamicLayerStack s))) (layerId dl)); [lia|done].
Qed.

Lemma pushDynamicLayer_ok dl s :
  layerId dl = 1 + Z.of_nat (length (dynamicLayerStack s)) ->
  (dynamicLayerStack s = [] -> is_Some (prev_local_keyset_ s)) ->
  pushDynamicLayer dl s = Ret (layerId dl) (push_state dl s).
Proof.
  intros H Hp. unfold pushDynamicLayer, push_state. munfold.
  rewrite <- H, Z.eqb_refl. simpl.
  destruct (dynamicLayerStack s) eqn:E; simpl.
  - destruct (Hp eq_refl) as [p Hpp]. rewrite Hpp. reflexivity.
  - reflexivity.
Qed.

Lemma pushDynamicLayer_no_snapshot dl s :
  layerId dl = 1 -> dynamicLayerStack s = [] -> prev_local_keyset_ s = None ->
  pushDynamicLayer dl s
  = Throw (InternalAssert "prev_local_keyset_.has_value()") (set_dynamicLayerStack [dl] s).
Proof.
  intros H He Hp. unfold pushDynamicLayer. munfold.
  rewrite He, H. simpl. rewrite Hp. reflexivity.
Qed.

Lemma pushDynamicLayer_Ret dl s id s' :
  pushDynamicLayer dl s = Ret id s' ->
  id = 1 + Z.of_nat (length (dynamicLayerStack s)) /\ layerId dl = id
  /\ s' = push_state dl s.
Proof.
  intros H.
  destruct (decide (layerId dl = 1 + Z.of_nat (length (dynamicLayerStack s)))) as [E|E].
  - destruct (decide (dynamicLayerStack s = [])) as [En|En].
    + destruct (prev_local_keyset_ s) eqn:Ep.
      * rewrite pushDynamicLayer_ok in H by eauto. inversion H; subst. auto.
      * rewrite pushDynamicLayer_no_snapshot in H; [discriminate| |done..].
        rewrite E, En. reflexivity.
    + rewrite pushDynamicLayer_ok in H by (try done). inversion H; subst. auto.
  - rewrite pushDynamicLayer_mismatch in H by done. discriminate.
Qed.

Lemma snapshot_taken_stack s :
  dynamicLayerStack (snapshot_taken s) = dynamicLayerStack s.
Proof. unfold snapshot_taken. by destruct (_ =? _)%nat. Qed.

Lemma snapshot_taken_cells s : life_cells (snapshot_taken s) = life_cells s.
Proof. unfold snapshot_taken. by destruct (_ =? _)%nat. Qed.

Lemma initAndPushDynamicLayer_ok k b p s :
  enter_allowed k p s ->
  initAndPushDynamicLayer k b p s
  = Ret (1 + Z.of_nat (length (dynamicLayerStack s))) (entered_state k b p s).
Proof.
  intros (Hu & Hb & Ha & Hs).
  unfold initAndPushDynamicLayer, entered_state, new_layer, snapshot_taken. munfold.
  rewrite !bool_decide_eq_false_2 by done. simpl.
  destruct (dynamicLayerStack s) as [|l0 dls] eqn:E.
  - simpl. unfold DynamicLayer_ctor. munfold.
    destruct (decide (k = Autograd)) as [->|Hk].
    + destruct p as [p|]; [|by destruct (Ha eq_refl)]. simpl.
      rewrite pushDynamicLayer_ok; simpl; rewrite ?E; simpl; eauto.
    + simpl. rewrite pushDynamicLayer_ok; simpl; rewrite ?E; simpl; eauto.
  - simpl. destruct (Hs ltac:(done)) as [q Hq]. rewrite Hq. simpl.
    unfold DynamicLayer_ctor. munfold.
    destruct (decide (k = Autograd)) as [->|Hk].
    + destruct p as [p|]; [|by destruct (Ha eq_refl)]. simpl.
      rewrite pushDynamicLayer_ok; simpl; rewrite ?E; simpl; eauto.
    + simpl. rewrite pushDynamicLayer_ok; simpl; rewrite ?E; simpl; eauto.
Qed.

Lemma initAndPushDynamicLayer_not_allowed k b p s :
  ~ enter_allowed k p s ->
  exists e, initAndPushDynamicLayer k b p s = Throw (InternalAssert e) s
         \/ (dynamicLayerStack s = []
             /\ initAndPushDynamicLayer k b p s
                = Throw (InternalAssert e) (snapshot_taken s)).
Proof.
  intros Hn. unfold initAndPushDynamicLayer, snapshot_taken. munfold.
  destruct (dynamicLayerStack s) as [|l0 dls] eqn:E; simpl.
  - destruct (decide (k = Undefined)) as [->|Hu]; [simpl; eauto|].
    rewrite (bool_decide_eq_false_2 (k = Undefined)) by done. simpl.
    destruct (decide (k = Batched)) as [->|Hb]; [simpl; eauto|].
    rewrite (bool_decide_eq_false_2 (k = Batched)) by done. simpl.
    destruct (decide (k = Autograd)) as [->|Hk].
    + destruct p as [p|]; [|simpl; eauto].
      exfalso. apply Hn. repeat split; eauto; done.
    + exfalso. apply Hn. repeat split; eauto; done.
  - destruct (prev_local_keyset_ s) as [q|] eqn:Hq; [|simpl; eauto].
    simpl.
    destruct (decide (k = Undefined)) as [->|Hu]; [simpl; eauto|].
    rewrite (bool_decide_eq_false_2 (k = Undefined)) by done. simpl.
    destruct (decide (k = Batched)) as [->|Hb]; [simpl; eauto|].
    rewrite (bool_decide_eq_false_2 (k = Batched)) by done. simpl.
    destruct (decide (k = Autograd)) as [->|Hk].
    + destruct p as [p|]; [|simpl; eauto].
      exfalso. apply Hn. repeat split; eauto; done.
    + exfalso. apply Hn. repeat split; eauto; done.
Qed.

Lemma enter_allowed_dec k p s : enter_allowed k p s \/ ~ enter_allowed k p s.
Proof.
  unfold enter_allowed.
  destruct (decide (k = Undefined)); [right; tauto|].
  destruct (decide (k = Batched)); [right; tauto|].
  destruct (decide (k = Autograd -> is_Some p)); [|right; tauto].
  destruct (decide (dynamicLayerStack s <> [] -> is_Some (prev_local_keyset_ s)));
    [left; tauto|right; tauto].
Qed.

Lemma initAndPushDynamicLayer_Ret k b p s id s' :
  initAndPushDynamicLayer k b p s = Ret id s' ->
  id = 1 + Z.of_nat (length (dynamicLayerStack s)) /\ s' = entered_state k b p s.
Proof.
  intros H. destruct (enter_allowed_dec k p s) as [Ha|Hn].
  - rewrite initAndPushDynamicLayer_ok in H by done. inversion H; auto.
  - destruct (initAndPushDynamicLayer_not_allowed k b p s Hn) as (e & [He|[_ He]]);
      rewrite He in H; discriminate.
Qed.

Lemma setFrontBack_cells (b : bool) s :
  life_cells (setDynamicLayerFrontBackKeysIncluded b s) = life_cells s.
Proof.
  unfold setDynamicLayerFrontBackKeysIncluded, tls_set_dispatch_key_included.
  repeat (destruct (eqb _ _); simpl; try reflexivity); destruct b; reflexivity.
Qed.

Lemma setFrontBack_stack (b : bool) s :
  dynamicLayerStack (setDynamicLayerFrontBackKeysIncluded b s) = dynamicLayerStack s.
Proof.
  unfold setDynamicLayerFrontBackKeysIncluded, tls_set_dispatch_key_included.
  repeat (destruct (eqb _ _); simpl; try reflexivity); destruct b; reflexivity.
Qed.

Lemma push_state_stack dl s :
  dynamicLayerStack (push_state dl s) = dynamicLayerStack s ++ [dl].
Proof.
  unfold push_state. destruct (_ =? _)%nat; rewrite ?setFrontBack_stack; done.
Qed.

Lemma setFrontBack_prev (b : bool) s :
  prev_local_keyset_ (setDynamicLayerFrontBackKeysIncluded b s) = prev_local_keyset_ s.
Proof.
  unfold setDynamicLayerFrontBackKeysIncluded, tls_set_dispatch_key_included.
  repeat (destruct (eqb _ _); simpl; try reflexivity); destruct b; reflexivity.
Qed.

Lemma entered_state_stack k b p s :
  dynamicLayerStack (entered_state k b p s) = dynamicLayerStack s ++ [new_layer k b p s].
Proof.
  unfold entered_state, push_state. simpl. rewrite snapshot_taken_stack.
  destruct (_ =? _)%nat; rewrite ?setFrontBack_stack; reflexivity.
Qed.

Lemma entered_state_cells k b p s :
  life_cells (entered_state k b p s) = life_cells s ++ [true].
Proof.
  unfold entered_state, push_state. simpl.
  destruct (_ =? _)%nat; rewrite ?setFrontBack_cells; reflexivity.
Qed.

Lemma popDynamicLayer_empty s :
  dynamicLayerStack s = [] ->
  popDynamicLayer s = Throw (InternalAssert "dynamicLayerStack.size() > 0") s.
Proof. intros H. unfold popDynamicLayer. munfold. rewrite H. reflexivity. Qed.

Lemma popDynamicLayer_undefined_key s rest top :
  dynamicLayerStack s = rest ++ [top] -> key top = Undefined ->
  popDynamicLayer s = Throw (InternalAssert "result.key() != DispatchKey::Undefined") s.
Proof.
  intros H Hk. unfold popDynamicLayer. munfold. rewrite H, last_snoc.
  rewrite length_app. simpl.
  destruct (Z.ltb_spec 0 (Z.of_nat (length rest + 1))); [|lia].
  rewrite bool_decide_eq_true_2 by done. reflexivity.
Qed.

Lemma popDynamicLayer_ok s rest top :
  dynamicLayerStack s = rest ++ [top] -> key top <> Undefined ->
  popDynamicLayer s = Ret top (pop_state s).
Proof.
  intros H Hk. unfold popDynamicLayer, pop_state. munfold. rewrite H, last_snoc.
  rewrite length_app. simpl.
  destruct (Z.ltb_spec 0 (Z.of_nat (length rest + 1))); [|lia].
  rewrite bool_decide_eq_false_2 by done. simpl.
  destruct (length (removelast (rest ++ [top])) =? 0)%nat; reflexivity.
Qed.

Lemma pop_state_stack s rest top :
  dynamicLayerStack s = rest ++ [top] -> dynamicLayerStack (pop_state s) = rest.
Proof.
  intros H. unfold pop_state. rewrite H, removelast_snoc.
  destruct (_ =? _)%nat; rewrite ?setFrontBack_stack; reflexivity.
Qed.

Lemma pop_state_cells s : life_cells (pop_state s) = life_cells s.
Proof.
  unfold pop_state. destruct (_ =? _)%nat; rewrite ?setFrontBack_cells; reflexivity.
Qed.

Lemma pop_state_prev s : prev_local_keyset_ (pop_state s) = prev_local_keyset_ s.
Proof.
  unfold pop_state. destruct (_ =? _)%nat; rewrite ?setFrontBack_prev; reflexivity.
Qed.

Lemma popDynamicLayerAndDeleteMetadata_empty s :
  dynamicLayerStack s = [] ->
  popDynamicLayerAndDeleteMetadata s
  = Throw (InternalAssert "dynamicLayerStack.size() > 0") s.
Proof.
  intros H. unfold popDynamicLayerAndDeleteMetadata, bind.
  rewrite popDynamicLayer_empty by done. reflexivity.
Qed.

Lemma popDynamicLayerAndDeleteMetadata_undefined_key s rest top :
  dynamicLayerStack s = rest ++ [top] -> key top = Undefined ->
  popDynamicLayerAndDeleteMetadata s
  = Throw (InternalAssert "result.key() != DispatchKey::Undefined") s.
Proof.
  intros H Hk. unfold popDynamicLayerAndDeleteMetadata, bind.
  erewrite popDynamicLayer_undefined_key by eauto. reflexivity.
Qed.

Lemma popDynamicLayerAndDeleteMetadata_ok s rest top :
  dynamicLayerStack s = rest ++ [top] -> key top <> Undefined ->
  popDynamicLayerAndDeleteMetadata s = Ret top (left_state top s).
Proof.
  intros H Hk. unfold popDynamicLayerAndDeleteMetadata, left_state.
  unfold bind at 1. erewrite popDynamicLayer_ok by eauto.
  munfold. simpl.
  destruct (length (dynamicLayerStack (pop_state s)) =? 0)%nat; reflexivity.
Qed.

Lemma left_state_stack s rest top :
  dynamicLayerStack s = rest ++ [top] -> dynamicLayerStack (left_state top s) = rest.
Proof.
  intros H. unfold left_state. simpl.
  destruct (_ =? _)%nat; simpl; eapply pop_state_stack; eauto.
Qed.

Lemma left_state_cells s top :
  life_cells (left_state top s) = <[lifeHandle top := false]> (life_cells s).
Proof.
  unfold left_state. simpl.
  destruct (_ =? _)%nat; simpl; rewrite pop_state_cells; reflexivity.
Qed.

(** Liveness cells under allocation and under the write of a pop. *)
Lemma cell_alive_lt cells h : cell_alive cells h = true -> (h < length cells)%nat.
Proof.
  unfold cell_alive. intros H. destruct (cells !! h) eqn:E; [|discriminate].
  eapply lookup_lt_Some; eauto.
Qed.

Lemma cell_alive_alloc_old cells h :
  (h < length cells)%nat -> cell_alive (cells ++ [true]) h = cell_alive cells h.
Proof. intros H. unfold cell_alive. by rewrite lookup_app_l. Qed.

Lemma cell_alive_alloc_new cells : cell_alive (cells ++ [true]) (length cells) = true.
Proof.
  unfold cell_alive. rewrite lookup_app_r by lia. by rewrite Nat.sub_diag.
Qed.

Lemma cell_alive_kill cells h : cell_alive (<[h := false]> cells) h = false.
Proof.
  unfold cell_alive. destruct (decide (h < length cells)%nat).
  - by rewrite list_lookup_insert_eq.
  - rewrite list_insert_ge by lia. by rewrite lookup_ge_None_2 by lia.
Qed.

Lemma cell_alive_kill_other cells h h' :
  h <> h' -> cell_alive (<[h := false]> cells) h' = cell_alive cells h'.
Proof. intros H. unfold cell_alive. by rewrite list_lookup_insert_ne. Qed.

Lemma cell_alive_kill_mono cells h h' :
  cell_alive cells h' = false -> cell_alive (<[h := false]> cells) h' = false.
Proof.
  intros H. destruct (decide (h = h')) as [->|Hne].
  - apply cell_alive_kill.
  - by rewrite cell_alive_kill_other.
Qed.

(** One step of entering or leaving, case by case. *)
Lemma stack_step_cases s o :
  match o with
  | Enter k b p =>
      (enter_allowed k p s /\ stack_step s o = entered_state k b p s)
      \/ stack_step s o = s
      \/ (dynamicLayerStack s = [] /\ stack_step s o = snapshot_taken s)
  | Leave =>
      (exists rest top, dynamicLayerStack s = rest ++ [top] /\ key top <> Undefined
                        /\ stack_step s o = left_state top s)
      \/ stack_step s o = s
  end.
Proof.
  destruct o as [k b p|]; simpl.
  - destruct (enter_allowed_dec k p s) as [Ha|Hn].
    + left. split; [done|]. by rewrite initAndPushDynamicLayer_ok.
    + right. destruct (initAndPushDynamicLayer_not_allowed k b p s Hn) as (e & [He|[E He]]);
        rewrite He; simpl; auto.
  - destruct (decide (dynamicLayerStack s = [])) as [E|E].
    + right. by rewrite popDynamicLayerAndDeleteMetadata_empty.
    + destruct (exists_last E) as (rest & top & Hs).
      destruct (decide (key top = Undefined)) as [Hk|Hk].
      * right. by erewrite popDynamicLayerAndDeleteMetadata_undefined_key.
      * left. exists rest, top. repeat split; try done.
        by erewrite popDynamicLayerAndDeleteMetadata_ok.
Qed.

(** A liveness cell that holds [false] holds [false] after every step. *)
Lemma stack_step_dead_stays_dead s o h :
  (h < length (life_cells s))%nat ->
  cell_alive (life_cells s) h = false ->
  (h < length (life_cells (stack_step s o)))%nat
  /\ cell_alive (life_cells (stack_step s o)) h = false.
Proof.
  intros Hlt Hd. pose proof (stack_step_cases s o) as Hc. destruct o as [k b p|].
  - destruct Hc as [[_ ->]|[->|[_ ->]]]; try done.
    + rewrite entered_state_cells, length_app. split; [lia|].
      by rewrite cell_alive_alloc_old.
    + by rewrite snapshot_taken_cells.
  - destruct Hc as [(rest & top & _ & _ & ->)| ->]; try done.
    rewrite left_state_cells, length_insert. split; [done|].
    by apply cell_alive_kill_mono.
Qed.

Lemma run_ops_dead_stays_dead ops s h :
  (h < length (life_cells s))%nat ->
  cell_alive (life_cells s) h = false ->
  cell_alive (life_cells (run_ops ops s)) h = false.
Proof.
  revert s. induction ops as [|o ops IH]; intros s Hlt Hd; simpl; [done|].
  destruct (stack_step_dead_stays_dead s o h Hlt Hd) as [Hlt' Hd'].
  by apply IH.
Qed.

Lemma stack_inv_empty s : dynamicLayerStack s = [] -> stack_inv s.
Proof.
  intros E. unfold stack_inv. rewrite E. repeat split.
  - apply levels_ok_nil.
  - constructor.
  - by apply not_elem_of_nil in H.
  - by apply not_elem_of_nil in H.
  - done.
Qed.

Lemma stack_step_inv s o : stack_inv s -> stack_inv (stack_step s o).
Proof.
  intros (Hl & Hnd & Ha & Hp). pose proof (stack_step_cases s o) as Hc.
  destruct o as [k b p|].
  - destruct Hc as [[Hal ->]|[->|[E ->]]]; [|done|].
    + unfold stack_inv. rewrite entered_state_stack, entered_state_cells.
      repeat split.
      * apply levels_ok_snoc; [done|reflexivity].
      * rewrite fmap_app. simpl. apply NoDup_app. repeat split; [done| |apply NoDup_singleton].
        intros h Hh Hh'. apply list_elem_of_singleton in Hh'. subst h.
        apply list_elem_of_fmap in Hh as (l & Hl1 & Hl2).
        destruct (Ha l Hl2) as [Hal1 _]. apply cell_alive_lt in Hal1.
        simpl in Hl1. lia.
      * apply elem_of_app in H as [H|H].
        -- destruct (Ha l H) as [Hal1 _]. rewrite cell_alive_alloc_old; [done|].
           by apply cell_alive_lt.
        -- apply list_elem_of_singleton in H. subst l. simpl. apply cell_alive_alloc_new.
      * apply elem_of_app in H as [H|H].
        -- by destruct (Ha l H).
        -- apply list_elem_of_singleton in H. subst l. simpl. by destruct Hal.
      * intros _. unfold entered_state, push_state.
        destruct (length (dynamicLayerStack (set_life_cells _ _)) =? 0)%nat eqn:E0;
          rewrite ?setFrontBack_prev; simpl.
        -- unfold snapshot_taken. simpl in E0. rewrite snapshot_taken_stack in E0.
           rewrite E0. simpl. eauto.
        -- simpl in E0. rewrite snapshot_taken_stack in E0.
           unfold snapshot_taken. rewrite E0. apply Hp.
           intros E. rewrite E in E0. discriminate.
    + unfold stack_inv. rewrite snapshot_taken_stack, snapshot_taken_cells.
      repeat split; try done; apply Ha; done.
  - destruct Hc as [(rest & top & Hs & Hk & ->)| ->]; [|done].
    unfold stack_inv. rewrite (left_state_stack s rest top Hs), left_state_cells.
    rewrite Hs in Hl, Hnd, Ha. rewrite fmap_app in Hnd. simpl in Hnd.
    apply NoDup_app in Hnd as (Hnd1 & Hnd2 & _).
    repeat split.
    + eapply levels_ok_app_l; eauto.
    + done.
    + rewrite cell_alive_kill_other; [apply Ha; apply elem_of_app; auto|].
      intros E. apply (Hnd2 (lifeHandle l)).
      * apply list_elem_of_fmap. eauto.
      * rewrite <- E. apply list_elem_of_singleton. reflexivity.
    + apply Ha. apply elem_of_app; auto.
    + intros Hne. unfold left_state. simpl.
      rewrite (pop_state_stack s rest top Hs).
      destruct rest; [done|]. simpl. rewrite pop_state_prev. apply Hp.
      rewrite Hs. by destruct rest.
Qed.

Lemma run_ops_inv ops s : stack_inv s -> stack_inv (run_ops ops s).
Proof.
  revert s. induction ops as [|o ops IH]; intros s H; simpl; [done|].
  apply IH. by apply stack_step_inv.
Qed.

(** Consequences of [levels_ok]. *)
Lemma levels_ok_increasing dls (i j : nat) li lj :
  levels_ok dls -> dls !! i = Some li -> dls !! j = Some lj -> (i < j)%nat ->
  layerId li < layerId lj.
Proof. intros H Hi Hj Hlt. rewrite (H _ _ Hi), (H _ _ Hj). lia. Qed.

Lemma levels_ok_top dls top :
  levels_ok dls -> last dls = Some top -> layerId top = Z.of_nat (length dls).
Proof.
  intros H Ht. rewrite last_lookup in Ht. rewrite (H _ _ Ht).
  destruct dls; [discriminate|]. simpl. lia.
Qed.

(** C2. A push gives the pushed descriptor the level 1 + (depth of the
    stack before the push): [initAndPushDynamicLayer] computes that level,
    and [pushDynamicLayer] fails with an internal assertion, leaving the
    state as it was, when the descriptor carries another level.  So in
    every stack built from the empty one by entering and leaving
    transforms the levels increase strictly from bottom to top and the
    level of the top layer is the size of the stack. *)
Theorem C2_push_assigns_next_level s :
  (forall k b p, enter_allowed k p s ->
     exists s' layer,
       initAndPushDynamicLayer k b p s
       = Ret (1 + Z.of_nat (length (dynamicLayerStack s))) s'
       /\ dynamicLayerStack s' = dynamicLayerStack s ++ [layer]
       /\ layerId layer = 1 + Z.of_nat (length (dynamicLayerStack s))
       /\ key layer = k)
  /\ (forall k b p id s', initAndPushDynamicLayer k b p s = Ret id s' ->
        id = 1 + Z.of_nat (length (dynamicLayerStack s))
        /\ exists layer, dynamicLayerStack s' = dynamicLayerStack s ++ [layer]
                         /\ layerId layer = id)
  /\ (forall dl, layerId dl <> 1 + Z.of_nat (length (dynamicLayerStack s)) ->
        pushDynamicLayer dl s
        = Throw (InternalAssert "layerId == dynamic_layer.layerId()") s)
  /\ (forall dl id s', pushDynamicLayer dl s = Ret id s' ->
        id = 1 + Z.of_nat (length (dynamicLayerStack s))
        /\ layerId dl = id
        /\ dynamicLayerStack s' = dynamicLayerStack s ++ [dl])
  /\ (dynamicLayerStack s = [] ->
      forall ops,
        let dls := dynamicLayerStack (run_ops ops s) in
        (forall (i j : nat) li lj,
           dls !! i = Some li -> dls !! j = Some lj -> (i < j)%nat ->
           layerId li < layerId lj)
        /\ (forall top, last dls = Some top -> layerId top = Z.of_nat (length dls))).
Proof.
  split; [|split; [|split; [|split]]].
  - intros k b p Ha. exists (entered_state k b p s), (new_layer k b p s).
    split; [by apply initAndPushDynamicLayer_ok|].
    split; [apply entered_state_stack|]. done.
  - intros k b p id s' H. apply initAndPushDynamicLayer_Ret in H as [-> ->].
    split; [done|]. exists (new_layer k b p s).
    split; [apply entered_state_stack|done].
  - intros dl H. by apply pushDynamicLayer_mismatch.
  - intros dl id s' H. apply pushDynamicLayer_Ret in H as (-> & Hl & ->).
    split; [done|]. split; [done|]. apply push_state_stack.
  - intros E ops dls.
    destruct (run_ops_inv ops s (stack_inv_empty s E)) as (Hl & _).
    split.
    + intros i j li lj Hi Hj Hlt. by eapply levels_ok_increasing.
    + intros top Ht. by apply levels_ok_top.
Qed.

(** C7. [popDynamicLayerAndDeleteMetadata] on an empty stack fails with an
    internal assertion.  On a stack with a top layer (of a key other than
    [Undefined]) it removes that layer and returns it, its liveness cell
    holds [false] afterwards and no other cell changes; when the stack
    became empty the snapshot is cleared and neither dynamic-layer mode key
    is included any more, and otherwise snapshot and key set stay.  A cell
    that holds [false] holds [false] after any sequence of entering and
    leaving; and in the states reached from an empty stack the cell of
    every layer on the stack holds [true] (and its key is not
    [Undefined]): it goes to [false] once, at the pop. *)
Theorem C7_pop_marks_dead s :
  (dynamicLayerStack s = [] ->
   popDynamicLayerAndDeleteMetadata s
   = Throw (InternalAssert "dynamicLayerStack.size() > 0") s)
  /\ (forall rest top,
        dynamicLayerStack s = rest ++ [top] -> key top <> Undefined ->
        exists s',
          popDynamicLayerAndDeleteMetadata s = Ret top s'
          /\ dynamicLayerStack s' = rest
          /\ cell_alive (life_cells s') (lifeHandle top) = false
          /\ (forall h, h <> lifeHandle top -> life_cells s' !! h = life_cells s !! h)
          /\ (rest = [] ->
              prev_local_keyset_ s' = None
              /\ ks_has (included_ (tls_local_dispatch_key_set s'))
                   kDynamicLayerFrontModeKey = false
              /\ ks_has (included_ (tls_local_dispatch_key_set s'))
                   kDynamicLayerBackModeKey = false
              /\ areTransformsActive s' = false)
          /\ (rest <> [] ->
              prev_local_keyset_ s' = prev_local_keyset_ s
              /\ tls_local_dispatch_key_set s' = tls_local_dispatch_key_set s))
  /\ (forall ops h,
        (h < length (life_cells s))%nat -> cell_alive (life_cells s) h = false ->
        cell_alive (life_cells (run_ops ops s)) h = false)
  /\ (dynamicLayerStack s = [] ->
      forall ops l,
        l ∈ dynamicLayerStack (run_ops ops s) ->
        cell_alive (life_cells (run_ops ops s)) (lifeHandle l) = true
        /\ key l <> Undefined).
Proof.
  split; [|split; [|split]].
  - apply popDynamicLayerAndDeleteMetadata_empty.
  - intros rest top Hs Hk. exists (left_state top s).
    split; [by apply (popDynamicLayerAndDeleteMetadata_ok s rest top)|].
    split; [by apply left_state_stack|].
    split; [rewrite left_state_cells; apply cell_alive_kill|].
    split; [intros h Hh; rewrite left_state_cells; by apply list_lookup_insert_ne|].
    unfold left_state. cbn [dynamicLayerStack set_life_cells].
    rewrite (pop_state_stack s rest top Hs).
    split.
    + intros ->. simpl. unfold pop_state. rewrite Hs, removelast_snoc. simpl.
      unfold areTransformsActive. simpl.
      rewrite !setFrontBack_has. rewrite !decide_True by auto. done.
    + intros Hne. destruct rest as [|l0 rest]; [done|]. simpl.
      unfold pop_state. rewrite Hs, removelast_snoc. done.
  - intros ops h Hlt Hd. by apply run_ops_dead_stays_dead.
  - intros E ops l Hl.
    destruct (run_ops_inv ops s (stack_inv_empty s E)) as (_ & _ & Ha & _).
    exact (Ha l Hl).
Qed.

End StackFacts.

(** ** [foreachTensorInplace] *)

Lemma list_insert_middle {A} (pre post : list A) (v x : A) :
  <[length pre := x]> (pre ++ v :: post) = pre ++ x :: post.
Proof.
  rewrite <- (Nat.add_0_r (length pre)). by rewrite insert_app_r.
Qed.

Lemma foreach_in_list_ok func f elems :
  (forall t, IVTensor t ∈ elems -> func t = Ok (f t)) ->
  exists m, foreach_in_list func elems = Ok (map_elem f <$> elems, m)
            /\ (m = false -> map_elem f <$> elems = elems).
Proof.
  induction elems as [|elt rest IH]; intros H; simpl.
  - exists false. done.
  - destruct IH as (m & -> & Hm).
    { intros t Ht. apply H. apply elem_of_cons. by right. }
    destruct elt as [|t|n|b|ty es|d]; simpl;
      try (exists m; split; [done|]; intros Hf; f_equal; exact (Hm Hf)).
    rewrite (H t) by (apply elem_of_cons; by left).
    exists true. split; [done|]. discriminate.
Qed.

Lemma foreach_body_ok func f pre v post :
  value_ok func f v ->
  foreach_body func (length pre) (pre ++ v :: post)
  = Ret tt (pre ++ map_ivalue f v :: post).
Proof.
  intros Hok. unfold foreach_body.
  rewrite list_lookup_middle by done.
  destruct v as [|t|n|b|ty elems|d]; simpl in *; try done.
  - destruct Hok as [-> Hd].
    rewrite list_insert_middle.
    destruct (defined t) eqn:Et; simpl; [|done].
    by rewrite Hd.
  - destruct (foreach_in_list_ok func f elems Hok) as (m & -> & Hm).
    destruct m.
    + by rewrite list_insert_middle.
    + by rewrite Hm.
Qed.

Lemma foreach_body_dict func pre d post :
  foreach_body func (length pre) (pre ++ IVGenericDict d :: post)
  = Throw (InternalAssert "No operators can accept GenericDict")
          (pre ++ IVGenericDict d :: post).
Proof. unfold foreach_body. by rewrite list_lookup_middle. Qed.

Lemma foreach_loop_ok func f mid : forall pre post,
  Forall (value_ok func f) mid ->
  foreach_loop func (length mid) (length pre) (pre ++ mid ++ post)
  = Ret tt (pre ++ (map_ivalue f <$> mid) ++ post).
Proof.
  induction mid as [|v mid IH]; intros pre post Hok; simpl; [done|].
  apply Forall_cons in Hok as [Hv Hmid].
  unfold bind. rewrite (foreach_body_ok func f) by done.
  specialize (IH (pre ++ [map_ivalue f v]) post Hmid).
  rewrite length_app, Nat.add_1_r in IH. simpl in IH.
  rewrite <- !(assoc_L (++)) in IH. simpl in IH. exact IH.
Qed.

Lemma foreach_loop_dict func f mid d : forall pre post count,
  Forall (value_ok func f) mid ->
  foreach_loop func (length mid + S count) (length pre)
    (pre ++ mid ++ IVGenericDict d :: post)
  = Throw (InternalAssert "No operators can accept GenericDict")
          (pre ++ (map_ivalue f <$> mid) ++ IVGenericDict d :: post).
Proof.
  induction mid as [|v mid IH]; intros pre post count Hok; simpl.
  - unfold bind. by rewrite foreach_body_dict.
  - apply Forall_cons in Hok as [Hv Hmid].
    unfold bind. rewrite (foreach_body_ok func f) by done.
    specialize (IH (pre ++ [map_ivalue f v]) post count Hmid).
    rewrite length_app, Nat.add_1_r in IH. simpl in IH.
    rewrite <- !(assoc_L (++)) in IH. simpl in IH. exact IH.
Qed.

(** The call on the last [n] values of a stack. *)
Lemma foreachTensorInplace_last func f base args :
  Forall (value_ok func f) args ->
  foreachTensorInplace
    (Z.of_nat (length (base ++ args)) - Z.of_nat (length args))
    (Z.of_nat (length (base ++ args))) func (base ++ args)
  = Ret tt (base ++ (map_ivalue f <$> args)).
Proof.
  intros Hok. unfold foreachTensorInplace, bind, TORCH_INTERNAL_ASSERT, ret.
  rewrite length_app.
  destruct (Z.leb_spec 0 (Z.of_nat (length base + length args) - Z.of_nat (length args)));
    [|lia].
  destruct (Z.leb_spec 0 (Z.of_nat (length base + length args))); [|lia].
  destruct (Z.leb_spec (Z.of_nat (length base + length args) - Z.of_nat (length args))
              (Z.of_nat (length base + length args))); [|lia].
  replace (Z.to_nat (Z.of_nat (length base + length args)
                     - (Z.of_nat (length base + length args) - Z.of_nat (length args))))
    with (length args) by lia.
  replace (Z.to_nat (Z.of_nat (length base + length args) - Z.of_nat (length args)))
    with (length base) by lia.
  pose proof (foreach_loop_ok func f args base [] Hok) as Hloop.
  rewrite !app_nil_r in Hloop. exact Hloop.
Qed.

Lemma foreachTensorInplace_short func (st : list IValue) (n : nat) :
  (length st < n)%nat ->
  foreachTensorInplace (Z.of_nat (length st) - Z.of_nat n) (Z.of_nat (length st)) func st
  = Throw (InternalAssert "begin >= 0") st.
Proof.
  intros H. unfold foreachTensorInplace, bind, TORCH_INTERNAL_ASSERT, throw.
  destruct (Z.leb_spec 0 (Z.of_nat (length st) - Z.of_nat n)); [lia|done].
Qed.

Lemma map_elem_length f elems : length (map_elem f <$> elems) = length elems.
Proof. apply length_fmap. Qed.

Lemma jit_last_app base args :
  jit_last (base ++ args) (length args) = Some args.
Proof.
  unfold jit_last. rewrite length_app.
  destruct (Nat.leb_spec (length args) (length base + length args)); [|lia].
  f_equal. replace (length base + length args - length args)%nat with (length base) by lia.
  by rewrite drop_app_length.
Qed.

Lemma jit_last_Some st n args :
  jit_last st n = Some args ->
  st = take (length st - n) st ++ args /\ length args = n.
Proof.
  unfold jit_last. destruct (Nat.leb_spec n (length st)); [|discriminate].
  intros [= <-]. split.
  - by rewrite take_drop.
  - rewrite length_drop. lia.
Qed.

Lemma jit_last_None st n : jit_last st n = None -> (length st < n)%nat.
Proof. unfold jit_last. destruct (Nat.leb_spec n (length st)); [discriminate|done]. Qed.

Example foreachTensorInplace_example :
  foreachTensorInplace 1 3 (fun t => Ok (TensorWrapper t 1 0%nat))
    [IVTensor (DenseTensor 1); IVTensor (DenseTensor 2);
     IVList OptionalTensorType [IVNone; IVTensor (DenseTensor 3)]]
  = Ret tt
    [IVTensor (DenseTensor 1); IVTensor (TensorWrapper (DenseTensor 2) 1 0%nat);
     IVList OptionalTensorType [IVNone; IVTensor (TensorWrapper (DenseTensor 3) 1 0%nat)]].
Proof. reflexivity. Qed.

Lemma foreach_loop_ok_or_dict func f mid : forall pre post,
  Forall (fun v => value_ok func f v \/ isGenericDict v = true) mid ->
  (Forall (value_ok func f) mid
   /\ foreach_loop func (length mid) (length pre) (pre ++ mid ++ post)
      = Ret tt (pre ++ (map_ivalue f <$> mid) ++ post))
  \/ (Exists (fun v => isGenericDict v = true) mid
      /\ exists args',
           foreach_loop func (length mid) (length pre) (pre ++ mid ++ post)
           = Throw (InternalAssert "No operators can accept GenericDict") args').
Proof.
  induction mid as [|v mid IH]; intros pre post Hall; simpl.
  - left. split; [constructor|done].
  - apply Forall_cons in Hall as [Hv Hmid].
    destruct (isGenericDict v) eqn:Ed.
    + right. split; [by constructor|].
      destruct v; try discriminate. unfold bind. rewrite foreach_body_dict. eauto.
    + destruct Hv as [Hv|Hv]; [|discriminate].
      unfold bind. rewrite (foreach_body_ok func f) by done.
      specialize (IH (pre ++ [map_ivalue f v]) post Hmid).
      rewrite length_app, Nat.add_1_r in IH. simpl in IH.
      rewrite <- !(assoc_L (++)) in IH. simpl in IH.
      destruct IH as [[Hok Heq]|[Hex Heq]].
      * left. split; [by constructor|done].
      * right. split; [by apply Exists_cons_tl|done].
Qed.

Lemma map_range_length b e f args :
  (b <= e)%nat -> length (map_range b e f args) = length args.
Proof.
  intros H. unfold map_range.
  rewrite !length_app, length_fmap, !length_take, !length_drop. lia.
Qed.

Lemma map_range_outside b e f args (i : nat) :
  (b <= e)%nat -> (e <= length args)%nat -> (i < b \/ e <= i)%nat ->
  map_range b e f args !! i = args !! i.
Proof.
  intros Hbe Hel Hi. unfold map_range. destruct Hi as [Hi|Hi].
  - rewrite lookup_app_l by (rewrite length_take; lia).
    by rewrite lookup_take_lt.
  - rewrite lookup_app_r by (rewrite length_take; lia).
    rewrite lookup_app_r
      by (rewrite length_fmap, !length_take, length_drop; lia).
    rewrite length_fmap, !length_take, length_drop, lookup_drop.
    f_equal. lia.
Qed.

Lemma map_range_inside b e f args (i : nat) v :
  (b <= i < e)%nat -> (e <= length args)%nat -> args !! i = Some v ->
  map_range b e f args !! i = Some (map_ivalue f v).
Proof.
  intros Hi Hel Hv. unfold map_range.
  rewrite lookup_app_r by (rewrite length_take; lia).
  rewrite length_take.
  rewrite lookup_app_l
    by (rewrite length_fmap, !length_take, length_drop; lia).
  rewrite list_lookup_fmap, lookup_take_lt by lia.
  rewrite lookup_drop.
  replace (b + (i - b `min` length args))%nat with i by lia.
  by rewrite Hv.
Qed.

(** C10 (as amended). For a stack, positions [begin, end) inside it and a
    function [f] that keeps the defined top-level tensors of those
    positions defined: when no position holds a dictionary,
    [foreachTensorInplace] returns with every tensor of the positions,
    also those directly inside a list, replaced by [f] of it, and with
    everything else as it was (the other values, the positions outside the
    range, the size of the stack, the length and order of every list);
    when a position holds a dictionary, it fails with the internal
    assertion on dictionaries. *)
Theorem C10_foreachTensorInplace_maps_range
  (f : Tensor -> Tensor) (args : list IValue) (begin end_ : Z) :
  0 <= begin -> begin <= end_ -> end_ <= Z.of_nat (length args) ->
  keeps_defined f args (Z.to_nat begin) (Z.to_nat end_) ->
  let b := Z.to_nat begin in
  let e := Z.to_nat end_ in
  (no_dict_in args b e ->
   foreachTensorInplace begin end_ (fun t => Ok (f t)) args
   = Ret tt (map_range b e f args))
  /\ (~ no_dict_in args b e ->
      exists args',
        foreachTensorInplace begin end_ (fun t => Ok (f t)) args
        = Throw (InternalAssert "No operators can accept GenericDict") args')
  /\ length (map_range b e f args) = length args
  /\ (forall i : nat, (i < b \/ e <= i)%nat -> map_range b e f args !! i = args !! i)
  /\ (forall (i : nat) v, (b <= i < e)%nat -> args !! i = Some v ->
        map_range b e f args !! i = Some (map_ivalue f v))
  /\ (forall t, map_ivalue f (IVTensor t) = IVTensor (f t))
  /\ (forall ty elems,
        exists elems', map_ivalue f (IVList ty elems) = IVList ty elems'
          /\ length elems' = length elems
          /\ forall (j : nat) x, elems !! j = Some x ->
               elems' !! j = Some (match x with IVTensor t => IVTensor (f t) | _ => x end))
  /\ (forall v, isTensor v = false -> isList v = false -> map_ivalue f v = v).
Proof.
  intros Hb Hbe Hel Hdef b e.
  assert (Hb' : (b <= e)%nat) by lia.
  assert (He' : (e <= length args)%nat) by lia.
  assert (Hsplit : args = take b args ++ take (e - b) (drop b args) ++ drop e args).
  { rewrite <- (take_drop b args) at 1. f_equal.
    rewrite <- (take_drop (e - b) (drop b args)) at 1. f_equal.
    rewrite drop_drop. f_equal. lia. }
  assert (Hlenpre : length (take b args) = b) by (rewrite length_take; lia).
  assert (Hlenmid : length (take (e - b) (drop b args)) = (e - b)%nat)
    by (rewrite length_take, length_drop; lia).
  assert (Hall : Forall (fun v => value_ok (fun t => Ok (f t)) f v
                                  \/ isGenericDict v = true)
                   (take (e - b) (drop b args))).
  { apply Forall_lookup. intros j v Hj.
    apply lookup_take_Some in Hj as [Hj Hjlt]. rewrite lookup_drop in Hj.
    destruct v as [|t|n|bb|ty elems|d]; simpl; auto.
    left. split; [done|]. eapply Hdef; eauto. lia. }
  assert (Hrun : foreachTensorInplace begin end_ (fun t => Ok (f t)) args
                 = foreach_loop (fun t => Ok (f t))
                     (length (take (e - b) (drop b args))) (length (take b args))
                     (take b args ++ take (e - b) (drop b args) ++ drop e args)).
  { unfold foreachTensorInplace, bind, TORCH_INTERNAL_ASSERT, ret.
    destruct (Z.leb_spec 0 begin); [|lia].
    destruct (Z.leb_spec 0 end_); [|lia].
    destruct (Z.leb_spec begin end_); [|lia].
    rewrite Hlenpre, Hlenmid, <- Hsplit. f_equal. unfold b, e. lia. }
  assert (Hframe :
    length (map_range b e f args) = length args
    /\ (forall i : nat, (i < b \/ e <= i)%nat -> map_range b e f args !! i = args !! i)
    /\ (forall (i : nat) v, (b <= i < e)%nat -> args !! i = Some v ->
          map_range b e f args !! i = Some (map_ivalue f v))
    /\ (forall t, map_ivalue f (IVTensor t) = IVTensor (f t))
    /\ (forall ty elems,
          exists elems', map_ivalue f (IVList ty elems) = IVList ty elems'
            /\ length elems' = length elems
            /\ forall (j : nat) x, elems !! j = Some x ->
                 elems' !! j = Some (match x with IVTensor t => IVTensor (f t) | _ => x end))
    /\ (forall v, isTensor v = false -> isList v = false -> map_ivalue f v = v)).
  { split; [by apply map_range_length|].
    split; [intros i Hi; by apply map_range_outside|].
    split; [intros i v Hi Hv; by apply map_range_inside|].
    split; [done|].
    split.
    - intros ty elems. exists (map_elem f <$> elems).
      split; [done|]. split; [apply length_fmap|].
      intros j x Hx. rewrite list_lookup_fmap, Hx. reflexivity.
    - intros v Ht Hl. destruct v; simpl in *; done. }
  destruct (foreach_loop_ok_or_dict (fun t => Ok (f t)) f _ (take b args) (drop e args) Hall)
    as [[Hok Heq]|[Hex (args' & Heq)]].
  - split; [|split; [|exact Hframe]].
    + intros _. rewrite Hrun, Heq. reflexivity.
    + intros Hnd. exfalso. apply Hnd. intros i v Hi Hv.
      assert (Hin : take (e - b) (drop b args) !! (i - b)%nat = Some v).
      { rewrite lookup_take_lt by lia. rewrite lookup_drop.
        replace (b + (i - b))%nat with i by lia. done. }
      eapply Forall_lookup in Hok; [|exact Hin].
      destruct v; simpl in *; done.
  - split; [|split; [|exact Hframe]].
    + intros Hnd. exfalso. apply Exists_exists in Hex as (v & Hin & Hd).
      apply list_elem_of_lookup in Hin as (j & Hj).
      apply lookup_take_Some in Hj as [Hj Hjlt]. rewrite lookup_drop in Hj.
      rewrite (Hnd (b + j)%nat v) in Hd; [discriminate| |done]. lia.
    + intros _. exists args'. rewrite Hrun, Heq. reflexivity.
Qed.

(** C10, the claim as stated, fails: with a function that returns the
    undefined tensor, the call on two defined tensors stops at the sanity
    check after the first one, and the second tensor is not replaced. *)
Lemma C10_counterexample :
  foreachTensorInplace 0 2 (fun t => Ok (c10_undef t)) c10_args
  = Throw (InternalAssert "args[idx].toTensor().defined()")
          [IVTensor UndefinedTensor; IVTensor (DenseTensor 2)]
  /\ no_dict_in c10_args 0 2
  /\ foreachTensorInplace 0 2 (fun t => Ok (c10_undef t)) c10_args
     <> Ret tt (map_range 0 2 c10_undef c10_args).
Proof.
  split; [reflexivity|]. split; [|discriminate].
  intros i v Hi Hv. destruct i as [|[|i]]; simpl in Hv; try lia;
    inversion Hv; reflexivity.
Qed.

Lemma C10_witness :
  foreachTensorInplace 1 4 (fun t => Ok (c10_wrap t)) c10_mixed
  = Ret tt
      [IVInt 5; IVTensor (TensorWrapper (DenseTensor 1) 1 0%nat);
       IVList OptionalTensorType
         [IVNone; IVTensor (TensorWrapper (DenseTensor 2) 1 0%nat)];
       IVTensor (TensorWrapper (DenseTensor 3) 1 0%nat)].
Proof.
  refine (proj1 (C10_foreachTensorInplace_maps_range c10_wrap c10_mixed 1 4 _ _ _ _) _).
  - lia.
  - lia.
  - simpl. lia.
  - intros i t _ _ _. reflexivity.
  - intros i v Hi Hv.
    destruct i as [|[|[|[|i]]]]; simpl in Hv; inversion Hv; reflexivity.
Defined.

(** ** The front fallback *)

Lemma sanity_check_tensor_clean t :
  (tensor_clean t = true /\ sanity_check_tensor t = Ok t)
  \/ (tensor_clean t = false /\ exists w, sanity_check_tensor t = Err (InternalAssert w)).
Proof. destruct t; simpl; eauto. Qed.

Lemma foreach_in_list_sanity elems :
  (forallb (fun elt => match elt with IVTensor t => tensor_clean t | _ => true end) elems = true
   /\ exists m, foreach_in_list sanity_check_tensor elems = Ok (elems, m))
  \/ (forallb (fun elt => match elt with IVTensor t => tensor_clean t | _ => true end) elems = false
      /\ exists w, foreach_in_list sanity_check_tensor elems = Err (InternalAssert w)).
Proof.
  induction elems as [|elt rest IH]; simpl.
  - left. eauto.
  - destruct elt as [|t|n|b|ty es|d]; simpl;
      try solve [destruct IH as [[-> (m & ->)]|[-> (w & ->)]]; [left|right]; eauto].
    destruct (sanity_check_tensor_clean t) as [[-> ->]|[-> (w & ->)]]; simpl.
    + destruct IH as [[-> (m & ->)]|[-> (w & ->)]]; [left|right]; eauto.
    + right. eauto.
Qed.

Lemma foreach_body_sanity (idx : nat) args v :
  args !! idx = Some v ->
  (ivalue_clean v = true /\ foreach_body sanity_check_tensor idx args = Ret tt args)
  \/ (ivalue_clean v = false
      /\ exists w, foreach_body sanity_check_tensor idx args = Throw (InternalAssert w) args).
Proof.
  intros Hv. unfold foreach_body. rewrite Hv.
  destruct v as [|t|n|b|ty elems|d]; simpl; eauto.
  - destruct (sanity_check_tensor_clean t) as [[-> ->]|[-> (w & ->)]]; [left|right; eauto].
    split; [done|]. rewrite list_insert_id by done.
    by destruct (defined t).
  - destruct (foreach_in_list_sanity elems) as [[-> (m & ->)]|[-> (w & ->)]];
      [left|right; eauto].
    split; [done|]. destruct m; [|done]. by rewrite list_insert_id.
Qed.

Lemma foreach_loop_sanity mid : forall pre post,
  (forallb ivalue_clean mid = true
   /\ foreach_loop sanity_check_tensor (length mid) (length pre) (pre ++ mid ++ post)
      = Ret tt (pre ++ mid ++ post))
  \/ (forallb ivalue_clean mid = false
      /\ exists w,
           foreach_loop sanity_check_tensor (length mid) (length pre) (pre ++ mid ++ post)
           = Throw (InternalAssert w) (pre ++ mid ++ post)).
Proof.
  induction mid as [|v mid IH]; intros pre post; simpl.
  - left. done.
  - unfold bind.
    destruct (foreach_body_sanity (length pre) (pre ++ v :: mid ++ post) v)
      as [[-> ->]|[-> (w & ->)]]; [by apply list_lookup_middle| |right; eauto].
    simpl. specialize (IH (pre ++ [v]) post).
    rewrite length_app, Nat.add_1_r in IH. simpl in IH.
    rewrite <- !(assoc_L (++)) in IH. simpl in IH. exact IH.
Qed.

Section FrontFacts.
Context {Ext : Type}.
Variable callBoxed : FunctionSchema -> M (@State Ext) unit.
Implicit Types (s : @State Ext) (op : FunctionSchema).

Lemma set_stack_id s : set_stack (stack s) s = s.
Proof. by destruct s. Qed.

Lemma force_keyset_id s :
  force_tls_local_dispatch_key_set (tls_local_dispatch_key_set s) s = s.
Proof. by destruct s. Qed.

Lemma sanityCheckStack_cases op s :
  ((length (arguments op) <= length (stack s))%nat
   /\ forallb ivalue_clean (call_args (length (arguments op)) (stack s)) = true
   /\ sanityCheckStack op s = Ret tt s)
  \/ (((length (stack s) < length (arguments op))%nat
       \/ forallb ivalue_clean (call_args (length (arguments op)) (stack s)) = false)
      /\ exists w, sanityCheckStack op s = Throw (InternalAssert w) s).
Proof.
  unfold sanityCheckStack, bind, gets, on_stack, call_args.
  set (n := length (arguments op)). set (st := stack s).
  destruct (decide (length st < n)%nat) as [Hlt|Hge].
  - right. split; [by left|]. rewrite foreachTensorInplace_short by done.
    eexists. unfold st. by rewrite set_stack_id.
  - assert (Hst : st = take (length st - n) st ++ drop (length st - n) st)
      by (by rewrite take_drop).
    assert (Hrun :
      foreachTensorInplace (Z.of_nat (length st) - Z.of_nat n) (Z.of_nat (length st))
        sanity_check_tensor st
      = foreach_loop sanity_check_tensor (length (drop (length st - n) st))
          (length (take (length st - n) st))
          (take (length st - n) st ++ drop (length st - n) st ++ [])).
    { unfold foreachTensorInplace, bind, TORCH_INTERNAL_ASSERT, ret.
      destruct (Z.leb_spec 0 (Z.of_nat (length st) - Z.of_nat n)); [|lia].
      destruct (Z.leb_spec 0 (Z.of_nat (length st))); [|lia].
      destruct (Z.leb_spec (Z.of_nat (length st) - Z.of_nat n) (Z.of_nat (length st)));
        [|lia].
      rewrite app_nil_r, <- Hst, length_take, length_drop. f_equal; lia. }
    rewrite Hrun.
    destruct (foreach_loop_sanity (drop (length st - n) st) (take (length st - n) st) [])
      as [[Hc ->]|[Hc (w & ->)]]; rewrite app_nil_r, <- Hst.
    + left. split; [lia|]. split; [done|]. unfold st. by rewrite set_stack_id.
    + right. split; [by right|]. eexists. unfold st. by rewrite set_stack_id.
Qed.

Lemma with_reset_None {A} (body : M (@State Ext) A) s :
  prev_local_keyset_ s = None ->
  with_resetFunctorchLocalDispatchKeySetRAII body s
  = Throw (InternalAssert "prev_keyset.has_value()") s.
Proof.
  intros H. unfold with_resetFunctorchLocalDispatchKeySetRAII, bind, gets.
  by rewrite H.
Qed.

Lemma with_reset_Some {A} (body : M (@State Ext) A) s prev :
  prev_local_keyset_ s = Some prev ->
  with_resetFunctorchLocalDispatchKeySetRAII body s
  = leave_forcing (tls_local_dispatch_key_set s)
      (body (force_tls_local_dispatch_key_set
               (reset_keyset (tls_local_dispatch_key_set s) prev) s)).
Proof.
  intros H. unfold with_resetFunctorchLocalDispatchKeySetRAII, bind, gets.
  rewrite H. unfold with_dtor, bind, modify, leave_forcing.
  by destruct (body _).
Qed.

Lemma reset_keyset_functorch cur prev k :
  ks_has all_dynlayer_keyset k = true ->
  ks_has (included_ (reset_keyset cur prev)) k = ks_has (included_ prev) k
  /\ ks_has (excluded_ (reset_keyset cur prev)) k = ks_has (excluded_ prev) k.
Proof.
  intros H. unfold reset_keyset. simpl.
  rewrite !ks_has_or, !ks_has_sub, !ks_has_and, H. simpl.
  rewrite !andb_false_r, !andb_true_r. done.
Qed.

Lemma reset_keyset_other cur prev k :
  ks_has all_dynlayer_keyset k = false ->
  ks_has (included_ (reset_keyset cur prev)) k = ks_has (included_ cur) k
  /\ ks_has (excluded_ (reset_keyset cur prev)) k = ks_has (excluded_ cur) k.
Proof.
  intros H. unfold reset_keyset. simpl.
  rewrite !ks_has_or, !ks_has_sub, !ks_has_and, H. simpl.
  rewrite !andb_false_r, !andb_true_r, !orb_false_r. done.
Qed.

(** C8. With an empty layer stack the front fallback first checks the
    arguments: a tensor argument (also one directly inside a list) that
    carries a grad wrapper or a batching wrapper is an internal assertion
    failure, and the operation is not called.  Otherwise the
    functorch-tracked keys are put back to what the snapshot recorded, the
    other keys staying as they are, the operation is called in that
    context, its outcome is passed on as it is, and the key set of before
    the call is forced back. *)
Theorem C8_front_fallback_empty_stack op s :
  dynamicLayerStack s = [] ->
  let args := call_args (length (arguments op)) (stack s) in
  let cur := tls_local_dispatch_key_set s in
  (((length (stack s) < length (arguments op))%nat \/ forallb ivalue_clean args = false) ->
   exists w, dynamicLayerFrontFallback callBoxed op s = Throw (InternalAssert w) s)
  /\ ((length (arguments op) <= length (stack s))%nat ->
      forallb ivalue_clean args = true ->
      forall prev, prev_local_keyset_ s = Some prev ->
        let during := force_tls_local_dispatch_key_set (reset_keyset cur prev) s in
        (forall k, ks_has all_dynlayer_keyset k = true ->
           ks_has (included_ (tls_local_dispatch_key_set during)) k
           = ks_has (included_ prev) k
           /\ ks_has (excluded_ (tls_local_dispatch_key_set during)) k
              = ks_has (excluded_ prev) k)
        /\ (forall k, ks_has all_dynlayer_keyset k = false ->
              ks_has (included_ (tls_local_dispatch_key_set during)) k
              = ks_has (included_ cur) k
              /\ ks_has (excluded_ (tls_local_dispatch_key_set during)) k
                 = ks_has (excluded_ cur) k)
        /\ dynamicLayerFrontFallback callBoxed op s
           = match callBoxed op during with
             | Ret a s' => Ret a (force_tls_local_dispatch_key_set cur s')
             | Throw e s' => Throw e (force_tls_local_dispatch_key_set cur s')
             | Terminate => Terminate
             | UB => UB
             end)
  /\ ((length (arguments op) <= length (stack s))%nat ->
      forallb ivalue_clean args = true ->
      prev_local_keyset_ s = None ->
      dynamicLayerFrontFallback callBoxed op s
      = Throw (InternalAssert "prev_keyset.has_value()") s).
Proof.
  intros Hempty args cur.
  assert (Hfront : dynamicLayerFrontFallback callBoxed op s
                   = (run sanityCheckStack op;
                      with_resetFunctorchLocalDispatchKeySetRAII (callBoxed op)) s).
  { unfold dynamicLayerFrontFallback. unfold bind at 1. unfold gets at 1.
    rewrite Hempty. reflexivity. }
  destruct (sanityCheckStack_cases op s) as [(Hlen & Hclean & Hs)|(Hbad & w & Hs)].
  - split; [|split].
    + intros [Hlt|Hnc]; [lia|]. unfold args in Hnc. rewrite Hnc in Hclean. discriminate.
    + intros _ _ prev Hprev during. split; [|split].
      * intros k Hk. by apply reset_keyset_functorch.
      * intros k Hk. by apply reset_keyset_other.
      * rewrite Hfront. unfold bind. rewrite Hs.
        rewrite (with_reset_Some _ _ prev Hprev). reflexivity.
    + intros _ _ Hprev. rewrite Hfront. unfold bind. rewrite Hs.
      by apply with_reset_None.
  - split; [|split].
    + intros _. exists w. rewrite Hfront. unfold bind. by rewrite Hs.
    + intros Hlen Hclean. destruct Hbad as [Hlt|Hnc]; [lia|].
      unfold args in Hclean. rewrite Hnc in Hclean. discriminate.
    + intros Hlen Hclean. destruct Hbad as [Hlt|Hnc]; [lia|].
      unfold args in Hclean. rewrite Hnc in Hclean. discriminate.
Qed.

Lemma is_mutable_arguments op : is_mutable op = true -> arguments op <> [].
Proof. unfold is_mutable. intros H E. rewrite E in H. discriminate. Qed.

Lemma isInplaceOp_arguments op : isInplaceOp op = true -> arguments op <> [].
Proof.
  unfold isInplaceOp. intros H.
  destruct (is_mutable op) eqn:E; [|discriminate]. by apply is_mutable_arguments.
Qed.

Lemma checkForInvalidMutationOnCaptures_inplace op s top t rest_args :
  last (dynamicLayerStack s) = Some top -> key top = Autograd ->
  isInplaceOp op = true ->
  jit_last (stack s) (length (arguments op)) = Some (IVTensor t :: rest_args) ->
  checkForInvalidMutationOnCaptures op (dynamicLayerStack s) s
  = if wrapped_at_level s (unwrapIfDead s t) (layerId top) then Ret tt s
    else Throw (TorchCheck (mutation_error (operator_name op))) s.
Proof.
  intros Htop Hkey Hin Hargs. unfold checkForInvalidMutationOnCaptures.
  rewrite Htop, Hkey, Hin. simpl. unfold bind, gets. rewrite Hargs.
  simpl. unfold wrapped_at_level.
  destruct (maybeGetTensorWrapper (unwrapIfDead s t)) as [[[v l] h]|]; [|done].
  destruct (wrapper_level (life_cells s) l h) as [lv|]; [|done].
  by destruct (lv =? layerId top).
Qed.

(** C1. Under a top layer of kind [Autograd], for an operation that
    [isInplaceOp] accepts and whose first argument is a tensor: when that
    argument, after [unwrapIfDead], carries no live wrapper of exactly the
    top layer's level, the front fallback throws the user-facing mutation
    error and leaves the whole thread state, the layer stack included, as
    it was, without calling the operation; when it does carry one (in
    particular when the argument itself is wrapped at that level), the
    check returns without raising. *)
Theorem C1_mutation_on_capture_rejected op s top t rest_args :
  last (dynamicLayerStack s) = Some top -> key top = Autograd ->
  isInplaceOp op = true ->
  jit_last (stack s) (length (arguments op)) = Some (IVTensor t :: rest_args) ->
  (wrapped_at_level s (unwrapIfDead s t) (layerId top) = false ->
   dynamicLayerFrontFallback callBoxed op s
   = Throw (TorchCheck (mutation_error (operator_name op))) s)
  /\ (wrapped_at_level s (unwrapIfDead s t) (layerId top) = true ->
      checkForInvalidMutationOnCaptures op (dynamicLayerStack s) s = Ret tt s)
  /\ (wrapped_at_level s t (layerId top) = true ->
      unwrapIfDead s t = t
      /\ checkForInvalidMutationOnCaptures op (dynamicLayerStack s) s = Ret tt s).
Proof.
  intros Htop Hkey Hin Hargs.
  pose proof (checkForInvalidMutationOnCaptures_inplace op s top t rest_args
                Htop Hkey Hin Hargs) as Hc.
  split; [|split].
  - intros Hw. rewrite Hw in Hc.
    unfold dynamicLayerFrontFallback. unfold bind at 1. unfold gets at 1.
    destruct (dynamicLayerStack s) as [|l0 dls] eqn:E; [discriminate|].
    simpl. unfold bind at 1. by rewrite Hc.
  - intros Hw. by rewrite Hw in Hc.
  - intros Hw.
    assert (Hu : unwrapIfDead s t = t).
    { unfold wrapped_at_level, wrapper_level in Hw. unfold unwrapIfDead.
      destruct (maybeGetTensorWrapper t) as [[[v l] h]|]; [|done].
      by destruct (cell_alive (life_cells s) h). }
    split; [done|]. rewrite Hu in Hc. by rewrite Hw in Hc.
Qed.

Lemma unwrapIfDead_spec s t : unwrapIfDead s t = spec_unwrap_dead s t.
Proof. destruct t; reflexivity. Qed.

Lemma getLifeHandleForLevel_top s top :
  last (dynamicLayerStack s) = Some top ->
  layerId top = Z.of_nat (length (dynamicLayerStack s)) ->
  getLifeHandleForLevel s (layerId top) = Ok (lifeHandle top).
Proof.
  intros Htop Hlvl. unfold getLifeHandleForLevel.
  assert (Hne : (0 < length (dynamicLayerStack s))%nat).
  { destruct (dynamicLayerStack s); [discriminate|simpl; lia]. }
  destruct (Z.leb_spec 1 (layerId top)); [|lia]. simpl.
  destruct (Z.ltb_spec (layerId top - 1) (Z.of_nat (length (dynamicLayerStack s)))); [|lia].
  simpl. rewrite last_lookup in Htop.
  replace (Z.to_nat (layerId top - 1)) with (pred (length (dynamicLayerStack s))) by lia.
  by rewrite Htop.
Qed.

Lemma maybeTransformGradWrappers_spec s top t :
  last (dynamicLayerStack s) = Some top ->
  layerId top = Z.of_nat (length (dynamicLayerStack s)) ->
  tensor_normalizable s top t = true ->
  maybeTransformGradWrappers s t = Ok (spec_normalize s top t).
Proof.
  intros Htop Hlvl Hn.
  unfold maybeTransformGradWrappers, materializeGradWrappers, spec_normalize,
    tensor_normalizable in *.
  rewrite unwrapIfDead_spec. set (t' := spec_unwrap_dead s t) in *.
  rewrite Htop. destruct (defined t') eqn:Ed; simpl.
  - destruct (bool_decide (key top = Autograd)) eqn:Ek; simpl in *; [|done].
    unfold makeTensorWrapper. rewrite (getLifeHandleForLevel_top s top Htop Hlvl).
    unfold wrapped_at_level.
    destruct t' as [|i|v l h|v b l]; simpl in *; try done.
    unfold wrapper_level. apply andb_true_iff in Hn as [Ha Hl]. rewrite Ha, Hl. simpl.
    by destruct (l =? layerId top).
  - by rewrite andb_false_r.
Qed.

Lemma maybeTransformGradWrappers_raises s top t :
  last (dynamicLayerStack s) = Some top ->
  tensor_normalizable s top t = false ->
  exists e, maybeTransformGradWrappers s t = Err e.
Proof.
  intros Htop Hn.
  unfold maybeTransformGradWrappers, materializeGradWrappers, tensor_normalizable in *.
  rewrite unwrapIfDead_spec. set (t' := spec_unwrap_dead s t) in *.
  rewrite Htop. destruct (defined t') eqn:Ed; simpl;
    [|by rewrite andb_false_r in Hn].
  destruct (bool_decide (key top = Autograd)) eqn:Ek; simpl in *; [|done].
  destruct t' as [|i|v l h|v b l]; simpl in *; try done.
  unfold wrapper_level. destruct (cell_alive (life_cells s) h); simpl in *; [|eauto].
  rewrite Hn. simpl. eauto.
Qed.

Lemma value_normalizable_ok s top v :
  last (dynamicLayerStack s) = Some top ->
  layerId top = Z.of_nat (length (dynamicLayerStack s)) ->
  value_normalizable s top v ->
  value_ok (maybeTransformGradWrappers s) (spec_normalize s top) v.
Proof.
  intros Htop Hlvl Hv. destruct v as [|t|n|b|ty elems|d]; simpl in *; try done.
  - destruct Hv as [Hn Hd]. split; [|done]. by apply maybeTransformGradWrappers_spec.
  - intros t Ht. apply maybeTransformGradWrappers_spec; auto.
Qed.

Lemma front_transform_arguments_run op s base args :
  stack s = base ++ args -> length args = length (arguments op) ->
  front_transform_arguments op s
  = on_stack (foreachTensorInplace
                (Z.of_nat (length (base ++ args)) - Z.of_nat (length args))
                (Z.of_nat (length (base ++ args)))
                (maybeTransformGradWrappers s)) s.
Proof.
  intros Hst Hlen. unfold front_transform_arguments, bind, gets. simpl.
  by rewrite Hst, Hlen.
Qed.

Lemma front_transform_arguments_ok op s top base args :
  last (dynamicLayerStack s) = Some top ->
  layerId top = Z.of_nat (length (dynamicLayerStack s)) ->
  stack s = base ++ args -> length args = length (arguments op) ->
  Forall (value_normalizable s top) args ->
  front_transform_arguments op s
  = Ret tt (set_stack (base ++ (map_ivalue (spec_normalize s top) <$> args)) s).
Proof.
  intros Htop Hlvl Hst Hlen Hall.
  rewrite (front_transform_arguments_run op s base args Hst Hlen).
  unfold on_stack. rewrite Hst.
  rewrite (foreachTensorInplace_last _ (spec_normalize s top)); [done|].
  eapply Forall_impl; [exact Hall|]. intros v Hv. by apply value_normalizable_ok.
Qed.

(** Which error [maybeTransformGradWrappers] raises, and on which
    tensors. *)
Lemma maybeTransformGradWrappers_raises_which s top t :
  last (dynamicLayerStack s) = Some top ->
  tensor_normalizable s top t = false ->
  exists inner l h,
    unwrapIfDead s t = TensorWrapper inner l h
    /\ key top = Autograd
    /\ (cell_alive (life_cells s) h = false \/ layerId top < l)
    /\ maybeTransformGradWrappers s t
       = Err (if cell_alive (life_cells s) h then InternalAssert "escaped?"
              else BadOptionalAccess).
Proof.
  intros Htop Hn.
  unfold maybeTransformGradWrappers, materializeGradWrappers, tensor_normalizable in *.
  rewrite unwrapIfDead_spec. set (t' := spec_unwrap_dead s t) in *.
  rewrite Htop. destruct (defined t') eqn:Ed; simpl;
    [|by rewrite andb_false_r in Hn].
  destruct (bool_decide (key top = Autograd)) eqn:Ek; simpl in *; [|done].
  apply bool_decide_eq_true in Ek.
  destruct t' as [|i|v l h|v b l]; simpl in *; try done.
  exists v, l, h. split; [done|]. split; [done|].
  unfold wrapper_level. destruct (cell_alive (life_cells s) h); simpl in *.
  - rewrite Hn. simpl. split; [|done]. right. by apply Z.leb_gt.
  - split; [by left|done].
Qed.

Lemma foreach_in_list_raises func (P : Exn -> Prop) elems :
  (forall t e, IVTensor t ∈ elems -> func t = Err e -> P e) ->
  (exists t, IVTensor t ∈ elems /\ exists e, func t = Err e) ->
  exists e, P e /\ foreach_in_list func elems = Err e.
Proof.
  induction elems as [|elt rest IH]; intros HP (t & Ht & e & He).
  { by apply not_elem_of_nil in Ht. }
  assert (HPrest : forall t e, IVTensor t ∈ rest -> func t = Err e -> P e).
  { intros t0 e0 H0. apply HP. apply elem_of_cons. by right. }
  assert (Hrest : elt <> IVTensor t ->
            exists e, P e /\ foreach_in_list func rest = Err e).
  { intros Hne. apply IH; [done|]. exists t. split; [|by exists e].
    apply elem_of_cons in Ht as [Ht|Ht]; [by subst|done]. }
  destruct elt as [|t0|n|b|ty es|d]; simpl;
    try (destruct Hrest as (e' & HP' & ->); [discriminate|by exists e']).
  destruct (func t0) as [t0'|e0] eqn:E0.
  - destruct Hrest as (e' & HP' & ->); [|by exists e'].
    intros [= ->]. by rewrite E0 in He.
  - exists e0. split; [|done]. apply (HP t0); [|done]. apply elem_of_cons. by left.
Qed.

(** A value at which the loop body raises: a tensor, or a list with a
    tensor, on which [func] raises. *)
Lemma foreach_body_raises func (P : Exn -> Prop) pre v post :
  (forall t e, func t = Err e -> P e) ->
  (exists t, (v = IVTensor t \/ exists ty elems, v = IVList ty elems /\ IVTensor t ∈ elems)
             /\ exists e, func t = Err e) ->
  exists e, P e /\ foreach_body func (length pre) (pre ++ v :: post)
                   = Throw e (pre ++ v :: post).
Proof.
  intros HP (t & [-> | (ty & elems & -> & Ht)] & e & He); unfold foreach_body;
    rewrite list_lookup_middle by done.
  - simpl. rewrite He. exists e. split; [by apply (HP t)|done].
  - destruct (foreach_in_list_raises func P elems) as (e' & HP' & ->).
    + intros t0 e0 _. apply HP.
    + exists t. split; [done|]. by exists e.
    + by exists e'.
Qed.

Lemma foreach_loop_raises func f (P : Exn -> Prop) mid v : forall pre post count,
  Forall (value_ok func f) mid ->
  (forall t e, func t = Err e -> P e) ->
  (exists t, (v = IVTensor t \/ exists ty elems, v = IVList ty elems /\ IVTensor t ∈ elems)
             /\ exists e, func t = Err e) ->
  exists e, P e /\ foreach_loop func (length mid + S count) (length pre)
                     (pre ++ mid ++ v :: post)
                   = Throw e (pre ++ (map_ivalue f <$> mid) ++ v :: post).
Proof.
  induction mid as [|w mid IH]; intros pre post count Hok HP Hv; simpl.
  - destruct (foreach_body_raises func P pre v post HP Hv) as (e & He & Hb).
    exists e. split; [done|]. unfold bind. by rewrite Hb.
  - apply Forall_cons in Hok as [Hw Hmid].
    unfold bind. rewrite (foreach_body_ok func f) by done.
    destruct (IH (pre ++ [map_ivalue f w]) post count Hmid HP Hv) as (e & He & Hl).
    exists e. split; [done|].
    rewrite length_app, Nat.add_1_r in Hl. simpl in Hl.
    rewrite <- !(assoc_L (++)) in Hl. simpl in Hl. exact Hl.
Qed.

(** C3 (as amended). The argument pass of the front fallback under a top
    layer whose level is the depth of the stack.  On every tensor it does
    not raise on, [maybeTransformGradWrappers] computes [spec_normalize]:
    a dead wrapper is replaced by its inner value; then, exactly when the
    top layer is [Autograd], a defined tensor with no wrapper or with a
    live wrapper of a lower level gets a fresh wrapper of the top level,
    and one already wrapped at the top level is passed through unchanged.
    The pass applies this to every tensor among the arguments and directly
    inside their lists, and stops with the internal assertion at a
    dictionary.  It raises on a tensor exactly when, under an [Autograd]
    top layer, what is left after the removal of the dead wrapper is again
    a dead wrapper ([bad_optional_access]) or a live wrapper of a level
    above the top one (the assertion "escaped?"); the pass then stops at
    the first argument that holds such a tensor and throws, and so does
    the front fallback, which does not get to call the operation. *)
Theorem C3_front_argument_normalization op s top base args :
  last (dynamicLayerStack s) = Some top ->
  layerId top = Z.of_nat (length (dynamicLayerStack s)) ->
  stack s = base ++ args -> length args = length (arguments op) ->
  (forall t, tensor_normalizable s top t = true ->
     maybeTransformGradWrappers s t = Ok (spec_normalize s top t))
  /\ (Forall (value_normalizable s top) args ->
      front_transform_arguments op s
      = Ret tt (set_stack (base ++ (map_ivalue (spec_normalize s top) <$> args)) s))
  /\ (forall a1 d a2, args = a1 ++ IVGenericDict d :: a2 ->
        Forall (value_normalizable s top) a1 ->
        exists s', front_transform_arguments op s
                   = Throw (InternalAssert "No operators can accept GenericDict") s')
  /\ (forall t,
        let t' := unwrapIfDead s t in
        (forall inner l h, t = TensorWrapper inner l h ->
           cell_alive (life_cells s) h = false -> t' = inner)
        /\ (key top <> Autograd -> spec_normalize s top t = t')
        /\ (defined t' = false -> spec_normalize s top t = t')
        /\ (key top = Autograd -> defined t' = true ->
            wrapped_at_level s t' (layerId top) = true -> spec_normalize s top t = t')
        /\ (key top = Autograd -> defined t' = true ->
            wrapped_at_level s t' (layerId top) = false ->
            spec_normalize s top t = TensorWrapper t' (layerId top) (lifeHandle top)))
  /\ (forall t, tensor_normalizable s top t = false ->
        exists inner l h,
          unwrapIfDead s t = TensorWrapper inner l h
          /\ key top = Autograd
          /\ (cell_alive (life_cells s) h = false \/ layerId top < l)
          /\ maybeTransformGradWrappers s t
             = Err (if cell_alive (life_cells s) h then InternalAssert "escaped?"
                    else BadOptionalAccess))
  /\ (forall a1 v a2 t, args = a1 ++ v :: a2 ->
        Forall (value_normalizable s top) a1 ->
        v = IVTensor t \/ (exists ty elems, v = IVList ty elems /\ IVTensor t ∈ elems) ->
        tensor_normalizable s top t = false ->
        exists e s',
          (e = BadOptionalAccess \/ e = InternalAssert "escaped?")
          /\ s' = set_stack (base ++ (map_ivalue (spec_normalize s top) <$> a1) ++ v :: a2) s
          /\ front_transform_arguments op s = Throw e s'
          /\ (checkForInvalidMutationOnCaptures op (dynamicLayerStack s) s = Ret tt s ->
              dynamicLayerFrontFallback callBoxed op s = Throw e s')).
Proof.
  intros Htop Hlvl Hst Hlen.
  pose proof (front_transform_arguments_run op s base args Hst Hlen) as Hrun.
  assert (Hloop : forall a1 v a2,
            args = a1 ++ v :: a2 ->
            front_transform_arguments op s
            = on_stack (foreach_loop (maybeTransformGradWrappers s)
                          (length a1 + S (length a2)) (length base)) s).
  { intros a1 v a2 Ha. rewrite Hrun. unfold on_stack. rewrite Hst.
    unfold foreachTensorInplace, bind, TORCH_INTERNAL_ASSERT, ret.
    rewrite length_app.
    destruct (Z.leb_spec 0 (Z.of_nat (length base + length args) - Z.of_nat (length args)));
      [|lia].
    destruct (Z.leb_spec 0 (Z.of_nat (length base + length args))); [|lia].
    destruct (Z.leb_spec (Z.of_nat (length base + length args) - Z.of_nat (length args))
                (Z.of_nat (length base + length args))); [|lia].
    replace (Z.to_nat (Z.of_nat (length base + length args)
                       - (Z.of_nat (length base + length args) - Z.of_nat (length args))))
      with (length a1 + S (length a2))%nat
      by (rewrite Ha, length_app; simpl; lia).
    replace (Z.to_nat (Z.of_nat (length base + length args) - Z.of_nat (length args)))
      with (length base) by lia.
    reflexivity. }
  split; [|split; [|split; [|split; [|split]]]].
  - intros t Hn. by apply maybeTransformGradWrappers_spec.
  - intros Hall. by apply (front_transform_arguments_ok op s top).
  - intros a1 d a2 Ha Hall. rewrite (Hloop a1 _ a2 Ha). unfold on_stack. rewrite Hst, Ha.
    rewrite (foreach_loop_dict _ (spec_normalize s top)); [eauto|].
    eapply Forall_impl; [exact Hall|]. intros v Hv. by apply value_normalizable_ok.
  - intros t t'. unfold t'. rewrite unwrapIfDead_spec. unfold spec_normalize.
    split; [|split; [|split; [|split]]].
    + intros inner l h -> Hd. simpl. by rewrite Hd.
    + intros Hk. by rewrite bool_decide_eq_false_2.
    + intros ->. by rewrite andb_false_r.
    + intros Hk -> ->. by rewrite bool_decide_eq_true_2.
    + intros Hk -> ->. by rewrite bool_decide_eq_true_2.
  - intros t Hn. by apply maybeTransformGradWrappers_raises_which.
  - intros a1 v a2 t Ha Hall Hv Hn.
    destruct (foreach_loop_raises (maybeTransformGradWrappers s) (spec_normalize s top)
                (fun e => e = BadOptionalAccess \/ e = InternalAssert "escaped?")
                a1 v base a2 (length a2)) as (e & He & Hl).
    + eapply Forall_impl; [exact Hall|]. intros w Hw. by apply value_normalizable_ok.
    + intros t0 e0 He0.
      destruct (tensor_normalizable s top t0) eqn:En.
      * by rewrite (maybeTransformGradWrappers_spec s top t0 Htop Hlvl En) in He0.
      * destruct (maybeTransformGradWrappers_raises_which s top t0 Htop En)
          as (inner & l & h & _ & _ & _ & Hr).
        rewrite Hr in He0. injection He0 as <-.
        destruct (cell_alive (life_cells s) h); [by right|by left].
    + exists t. split; [exact Hv|].
      destruct (maybeTransformGradWrappers_raises_which s top t Htop Hn)
        as (inner & l & h & _ & _ & _ & Hr). eauto.
    + assert (Hpass : front_transform_arguments op s
                      = Throw e (set_stack (base ++ (map_ivalue (spec_normalize s top) <$> a1)
                                             ++ v :: a2) s)).
      { rewrite (Hloop a1 v a2 Ha). unfold on_stack. rewrite Hst, Ha. by rewrite Hl. }
      eexists e, _. split; [exact He|]. split; [reflexivity|]. split; [exact Hpass|].
      intros Hcheck. unfold dynamicLayerFrontFallback. unfold bind at 1. unfold gets at 1.
      destruct (dynamicLayerStack s) as [|l0 dls] eqn:E; [done|]. simpl.
      rewrite <- E in *. unfold bind at 1. rewrite Hcheck. unfold bind at 1.
      by rewrite Hpass.
Qed.

End FrontFacts.

(** C3, the claim as stated, fails.  A tensor is wrapped by a grad
    transform and again by a grad transform nested in it, both times by
    the argument pass itself; both transforms are left and a third grad
    transform is entered.  On that tensor the pass replaces nothing and
    wraps nothing: the inner value of the dead outer wrapper is a dead
    wrapper again, reading its level throws, and the front fallback ends
    with that exception before the operation is called. *)
Lemma C3_counterexample :
  front_transform_arguments relu_schema
    (set_stack [IVTensor (DenseTensor 1)] (run_ops [enter_grad] (no_layer_state [])))
  = Ret tt (set_stack [IVTensor tw1] (run_ops [enter_grad] (no_layer_state [])))
  /\ front_transform_arguments relu_schema
       (set_stack [IVTensor tw1] (run_ops [enter_grad; enter_grad] (no_layer_state [])))
     = Ret tt (set_stack [IVTensor wrapped_twice]
                 (run_ops [enter_grad; enter_grad] (no_layer_state [])))
  /\ life_cells (third_grad_state [IVTensor wrapped_twice]) = [false; false; true]
  /\ unwrapIfDead (third_grad_state [IVTensor wrapped_twice]) wrapped_twice = tw1
  /\ front_transform_arguments relu_schema (third_grad_state [IVTensor wrapped_twice])
     = Throw BadOptionalAccess (third_grad_state [IVTensor wrapped_twice])
  /\ dynamicLayerFrontFallback (probe_callBoxed [IVTensor (DenseTensor 9)]) relu_schema
       (third_grad_state [IVTensor wrapped_twice])
     = Throw BadOptionalAccess (third_grad_state [IVTensor wrapped_twice]).
Proof. repeat split; vm_compute; reflexivity. Qed.

(** ** The key sets of a batching layer *)

Section BatchingKeySets.
Context {Ext : Type}.
Variable callBoxed : FunctionSchema -> M (@State Ext) unit.
Implicit Types (s : @State Ext) (op : FunctionSchema).

Lemma with_ExcludeDispatchKeyGuard_eq {A} exclude (body : M (@State Ext) A) s :
  with_ExcludeDispatchKeyGuard exclude body s
  = map_outcome (leave_exclude exclude s) (body (enter_exclude exclude s)).
Proof.
  unfold with_ExcludeDispatchKeyGuard, enter_exclude, leave_exclude, bind, gets.
  destruct (negb (ks_empty (ks_sub exclude (excluded_ (tls_local_dispatch_key_set s)))));
    unfold modify, ret, with_dtor, map_outcome, set_excluded;
    by destruct (body _).
Qed.

Lemma with_IncludeDispatchKeyGuard_eq {A} include (body : M (@State Ext) A) s :
  with_IncludeDispatchKeyGuard include body s
  = map_outcome (leave_include include s) (body (enter_include include s)).
Proof.
  unfold with_IncludeDispatchKeyGuard, enter_include, leave_include, bind, gets.
  destruct (negb (ks_empty (ks_sub include (included_ (tls_local_dispatch_key_set s)))));
    unfold modify, ret, with_dtor, map_outcome, set_included;
    by destruct (body _).
Qed.

Lemma ks_empty_has x k : ks_empty x = true -> ks_has x k = false.
Proof. unfold ks_empty. intros H. apply Z.eqb_eq in H. subst x. apply ks_has_empty. Qed.

Lemma enter_exclude_has exclude s k :
  ks_has (excluded_ (tls_local_dispatch_key_set (enter_exclude exclude s))) k
  = ks_has (excluded_ (tls_local_dispatch_key_set s)) k || ks_has exclude k.
Proof.
  unfold enter_exclude.
  destruct (ks_empty (ks_sub exclude (excluded_ (tls_local_dispatch_key_set s)))) eqn:E;
    simpl.
  - pose proof (ks_empty_has _ k E) as H. rewrite ks_has_sub in H.
    destruct (ks_has exclude k), (ks_has (excluded_ (tls_local_dispatch_key_set s)) k);
      simpl in *; done.
  - rewrite ks_has_or, ks_has_sub.
    destruct (ks_has exclude k), (ks_has (excluded_ (tls_local_dispatch_key_set s)) k); done.
Qed.



Lemma enter_exclude_stack exclude s : stack (enter_exclude exclude s) = stack s.
Proof. unfold enter_exclude. by destruct (negb _). Qed.


Lemma enter_exclude_layers exclude s :
  dynamicLayerStack (enter_exclude exclude s) = dynamicLayerStack s.
Proof. unfold enter_exclude. by destruct (negb _). Qed.

Lemma enter_include_layers include s :
  dynamicLayerStack (enter_include include s) = dynamicLayerStack s.
Proof. unfold enter_include. by destruct (negb _). Qed.

Lemma checkForInvalidMutationOnCaptures_other_kind op s top :
  last (dynamicLayerStack s) = Some top -> key top <> Autograd ->
  checkForInvalidMutationOnCaptures op (dynamicLayerStack s) s = Ret tt s.
Proof.
  intros Htop Hk. unfold checkForInvalidMutationOnCaptures. rewrite Htop.
  by rewrite bool_decide_eq_false_2.
Qed.

Lemma existsb_negb_negb {A} (p : A -> bool) l :
  existsb (fun x => negb (negb (p x))) l = existsb p l.
Proof. induction l as [|x l IH]; simpl; [done|]. by rewrite negb_involutive, IH. Qed.














End BatchingKeySets.


(** ** The back fallback *)

Section BackFacts.
Context {Ext : Type}.
Variable callBoxed : FunctionSchema -> M (@State Ext) unit.
Variable refreshMetadata : Tensor -> Ext -> Ext.
Implicit Types (s : @State Ext) (op : FunctionSchema).

Lemma preserves_layers_bind {A B} (m : M (@State Ext) A) (k : A -> M (@State Ext) B) :
  preserves_layers (Ext:=Ext) m -> (forall a, preserves_layers (Ext:=Ext) (k a)) -> preserves_layers (Ext:=Ext) (bind m k).
Proof.
  intros Hm Hk s. unfold bind. specialize (Hm s). destruct (m s) as [a s'| | |]; try done.
  specialize (Hk a s'). destruct (k a s'); try done; congruence.
Qed.

Lemma preserves_layers_ret {A} (a : A) : preserves_layers (Ext:=Ext) (ret a).
Proof. by intros s. Qed.

Lemma preserves_layers_throw {A} e : preserves_layers (Ext:=Ext) (@throw (@State Ext) A e).
Proof. by intros s. Qed.

Lemma preserves_layers_ub {A} : preserves_layers (Ext:=Ext) (@undefined_behaviour (@State Ext) A).
Proof. by intros s. Qed.

Lemma preserves_layers_gets {A} (f : @State Ext -> A) : preserves_layers (Ext:=Ext) (gets f).
Proof. by intros s. Qed.

Lemma preserves_layers_assert c w : preserves_layers (Ext:=Ext) (@TORCH_INTERNAL_ASSERT (@State Ext) c w).
Proof. intros s. unfold TORCH_INTERNAL_ASSERT. by destruct c. Qed.

Lemma preserves_layers_modify (f : @State Ext -> @State Ext) :
  (forall s, dynamicLayerStack (f s) = dynamicLayerStack s) -> preserves_layers (Ext:=Ext) (modify f).
Proof. intros H s. apply H. Qed.

Lemma preserves_layers_on_stack {A} (m : M (list IValue) A) : preserves_layers (Ext:=Ext) (on_stack m).
Proof. intros s. unfold on_stack. by destruct (m (stack s)). Qed.

Lemma preserves_layers_with_dtor {A} (body : M (@State Ext) A) dtor :
  preserves_layers (Ext:=Ext) body -> preserves_layers (Ext:=Ext) dtor -> preserves_layers (Ext:=Ext) (with_dtor body dtor).
Proof.
  intros Hb Hd s. unfold with_dtor. specialize (Hb s).
  destruct (body s) as [a s'|e s'| |]; try done;
    specialize (Hd s'); destruct (dtor s'); try done; congruence.
Qed.

Lemma preserves_layers_with_reset {A} (body : M (@State Ext) A) :
  preserves_layers (Ext:=Ext) body ->
  preserves_layers (Ext:=Ext) (with_resetFunctorchLocalDispatchKeySetRAII body).
Proof.
  intros Hb. unfold with_resetFunctorchLocalDispatchKeySetRAII.
  apply preserves_layers_bind; [apply preserves_layers_gets|]. intros cur.
  apply preserves_layers_bind; [apply preserves_layers_gets|]. intros [prev|].
  - apply preserves_layers_with_dtor.
    + apply preserves_layers_bind; [by apply preserves_layers_modify|done].
    + by apply preserves_layers_modify.
  - apply preserves_layers_throw.
Qed.

Lemma preserves_layers_with_AutoGradMode {A} b (body : M (@State Ext) A) :
  preserves_layers (Ext:=Ext) body -> preserves_layers (Ext:=Ext) (with_AutoGradMode b body).
Proof.
  intros Hb. unfold with_AutoGradMode.
  apply preserves_layers_bind; [apply preserves_layers_gets|]. intros prev.
  apply preserves_layers_bind; [by apply preserves_layers_modify|]. intros _.
  apply preserves_layers_with_dtor; [done|by apply preserves_layers_modify].
Qed.

(** The scope of [WithoutTop] puts back what its constructor popped. *)
Lemma preserves_layers_with_WithoutTop {A} (body : M (@State Ext) A) :
  preserves_layers (Ext:=Ext) body -> preserves_layers (Ext:=Ext) (with_WithoutTop body).
Proof.
  intros Hb s. unfold with_WithoutTop. unfold bind at 1.
  destruct (decide (dynamicLayerStack s = [])) as [E|E].
  { by rewrite popDynamicLayer_empty. }
  destruct (exists_last E) as (rest & top & Hs).
  destruct (decide (key top = Undefined)) as [Hk|Hk].
  { by erewrite popDynamicLayer_undefined_key. }
  erewrite popDynamicLayer_ok by eauto.
  unfold with_dtor. specialize (Hb (pop_state s)).
  rewrite (pop_state_stack s rest top Hs) in Hb.
  destruct (body (pop_state s)) as [a s'|e s'| |]; try done; unfold bind;
    destruct (pushDynamicLayer top s') as [i s''|e' s''| |] eqn:Hp; try done;
    apply pushDynamicLayer_Ret in Hp as (_ & _ & ->); unfold ret;
    by rewrite push_state_stack, Hb, Hs.
Qed.

Lemma preserves_layers_back_redispatch op ia pgm :
  preserves_layers (Ext:=Ext) (callBoxed op) ->
  preserves_layers (Ext:=Ext) (back_redispatch callBoxed op ia pgm).
Proof.
  intros Hc. unfold back_redispatch.
  apply preserves_layers_with_WithoutTop, preserves_layers_with_reset.
  apply preserves_layers_bind.
  - apply preserves_layers_modify. intros s. apply setFrontBack_stack.
  - intros _. destruct (ia && _); [by apply preserves_layers_with_AutoGradMode|done].
Qed.

Lemma preserves_layers_back_copy_and_unwrap op lvl :
  preserves_layers (Ext:=Ext) (back_copy_and_unwrap op lvl).
Proof.
  unfold back_copy_and_unwrap.
  apply preserves_layers_bind; [apply preserves_layers_gets|]. intros st.
  destruct (jit_last st _); [|apply preserves_layers_ub].
  apply preserves_layers_bind; [by apply preserves_layers_modify|]. intros _.
  apply preserves_layers_bind; [apply preserves_layers_gets|]. intros s0.
  apply preserves_layers_on_stack.
Qed.

Lemma preserves_layers_back_wrap_refresh_erase op lvl :
  preserves_layers (Ext:=Ext) (back_wrap_refresh_erase refreshMetadata op lvl).
Proof.
  unfold back_wrap_refresh_erase.
  apply preserves_layers_bind; [apply preserves_layers_gets|]. intros s0.
  apply preserves_layers_bind; [apply preserves_layers_on_stack|]. intros _.
  apply preserves_layers_bind; [apply preserves_layers_gets|]. intros st.
  destruct (_ <? _)%nat; [apply preserves_layers_ub|].
  apply preserves_layers_bind; [by apply preserves_layers_modify|].
  intros _. by apply preserves_layers_modify.
Qed.

Lemma preserves_layers_back_fallback op :
  preserves_layers (Ext:=Ext) (callBoxed op) ->
  preserves_layers (Ext:=Ext) (dynamicLayerBackFallback callBoxed refreshMetadata op).
Proof.
  intros Hc. unfold dynamicLayerBackFallback.
  apply preserves_layers_bind; [apply preserves_layers_gets|]. intros dls.
  destruct (last dls) as [back|]; [|apply preserves_layers_ub].
  apply preserves_layers_bind.
  { destruct (bool_decide _); [apply preserves_layers_assert|apply preserves_layers_ret]. }
  intros _. apply preserves_layers_bind.
  { destruct (bool_decide _);
      [apply preserves_layers_back_copy_and_unwrap|apply preserves_layers_ret]. }
  intros _. apply preserves_layers_bind.
  { by apply preserves_layers_back_redispatch. }
  intros _. destruct (bool_decide _);
    [apply preserves_layers_back_wrap_refresh_erase|apply preserves_layers_ret].
Qed.

Lemma force_force ks ks' s :
  force_tls_local_dispatch_key_set ks (force_tls_local_dispatch_key_set ks' s)
  = force_tls_local_dispatch_key_set ks s.
Proof. reflexivity. Qed.

Lemma tls_set_dispatch_key_included_force x (b : bool) s :
  exists ks, tls_set_dispatch_key_included x b s = force_tls_local_dispatch_key_set ks s.
Proof.
  unfold tls_set_dispatch_key_included. destruct (eqb _ _).
  - exists (tls_local_dispatch_key_set s). by destruct s.
  - destruct b; eauto.
Qed.

Lemma setFrontBack_force (b : bool) s :
  exists ks, setDynamicLayerFrontBackKeysIncluded b s
             = force_tls_local_dispatch_key_set ks s.
Proof.
  unfold setDynamicLayerFrontBackKeysIncluded.
  destruct (tls_set_dispatch_key_included_force kDynamicLayerFrontModeKey b s) as [k1 ->].
  destruct (tls_set_dispatch_key_included_force kDynamicLayerBackModeKey b
              (force_tls_local_dispatch_key_set k1 s)) as [k2 ->].
  eauto.
Qed.

Lemma pop_state_grad s : grad_mode (pop_state s) = grad_mode s.
Proof.
  unfold pop_state. destruct (_ =? _)%nat; [|done].
  destruct (setFrontBack_force false
              (set_dynamicLayerStack (removelast (dynamicLayerStack s)) s)) as [ks ->].
  reflexivity.
Qed.

Lemma back_redispatch_eq op (ia : bool) pgm s rest top prev :
  dynamicLayerStack s = rest ++ [top] -> key top <> Undefined ->
  prev_local_keyset_ s = Some prev ->
  let no_grad := ia && bool_decide (pgm = Some false) in
  back_redispatch callBoxed op ia pgm s
  = repush top
      (map_outcome (back_after_call s no_grad)
         (callBoxed op (back_call_state s prev no_grad))).
Proof.
  intros Hs Hk Hp no_grad. unfold back_redispatch, with_WithoutTop.
  unfold bind at 1. rewrite (popDynamicLayer_ok s rest top Hs Hk).
  rewrite <- (pop_state_prev s) in Hp.
  unfold with_dtor at 1. rewrite (with_reset_Some _ _ prev Hp).
  unfold bind at 1. unfold modify at 1. fold no_grad.
  unfold back_call_state, back_after_call, repush.
  set (s_keys := setDynamicLayerFrontBackKeysIncluded true _).
  assert (Hg : grad_mode s_keys = grad_mode s).
  { unfold s_keys. destruct (setFrontBack_force true
      (force_tls_local_dispatch_key_set
         (reset_keyset (tls_local_dispatch_key_set (pop_state s)) prev) (pop_state s)))
      as [ks ->]. simpl. apply pop_state_grad. }
  destruct no_grad.
  - unfold with_AutoGradMode, bind, gets, modify, with_dtor. rewrite Hg.
    destruct (callBoxed op (set_grad_mode false s_keys)) as [a s2|e s2| |]; simpl;
      try done; unfold bind, ret; by destruct (pushDynamicLayer top _).
  - destruct (callBoxed op s_keys) as [a s2|e s2| |]; simpl;
      try done; unfold bind, ret; by destruct (pushDynamicLayer top _).
Qed.

Lemma back_call_state_layers s rest top prev no_grad :
  dynamicLayerStack s = rest ++ [top] ->
  dynamicLayerStack (back_call_state s prev no_grad) = rest.
Proof.
  intros Hs. unfold back_call_state.
  destruct (setFrontBack_force true
      (force_tls_local_dispatch_key_set
         (reset_keyset (tls_local_dispatch_key_set (pop_state s)) prev) (pop_state s)))
      as [ks ->].
  destruct no_grad; simpl; by apply (pop_state_stack s rest top).
Qed.

Lemma pop_state_jit s : stack (pop_state s) = stack s.
Proof.
  unfold pop_state. destruct (_ =? _)%nat; [|done].
  destruct (setFrontBack_force false
              (set_dynamicLayerStack (removelast (dynamicLayerStack s)) s)) as [ks ->].
  reflexivity.
Qed.

Lemma pop_state_ext s : ext (pop_state s) = ext s.
Proof.
  unfold pop_state. destruct (_ =? _)%nat; [|done].
  destruct (setFrontBack_force false
              (set_dynamicLayerStack (removelast (dynamicLayerStack s)) s)) as [ks ->].
  reflexivity.
Qed.

Lemma back_call_state_jit s prev no_grad :
  stack (back_call_state s prev no_grad) = stack s.
Proof.
  unfold back_call_state.
  destruct (setFrontBack_force true
      (force_tls_local_dispatch_key_set
         (reset_keyset (tls_local_dispatch_key_set (pop_state s)) prev) (pop_state s)))
      as [ks ->].
  destruct no_grad; simpl; apply pop_state_jit.
Qed.

Lemma back_call_state_cells s prev no_grad :
  life_cells (back_call_state s prev no_grad) = life_cells s.
Proof.
  unfold back_call_state.
  destruct (setFrontBack_force true
      (force_tls_local_dispatch_key_set
         (reset_keyset (tls_local_dispatch_key_set (pop_state s)) prev) (pop_state s)))
      as [ks ->].
  destruct no_grad; simpl; apply pop_state_cells.
Qed.

Lemma back_call_state_grad s prev no_grad :
  grad_mode (back_call_state s prev no_grad) = if no_grad then false else grad_mode s.
Proof.
  unfold back_call_state.
  destruct (setFrontBack_force true
      (force_tls_local_dispatch_key_set
         (reset_keyset (tls_local_dispatch_key_set (pop_state s)) prev) (pop_state s)))
      as [ks ->].
  destruct no_grad; simpl; [done|apply pop_state_grad].
Qed.

Lemma back_call_state_tls s prev no_grad :
  tls_local_dispatch_key_set (back_call_state s prev no_grad)
  = tls_local_dispatch_key_set
      (setDynamicLayerFrontBackKeysIncluded true
         (force_tls_local_dispatch_key_set
            (reset_keyset (tls_local_dispatch_key_set (pop_state s)) prev) (pop_state s))).
Proof. unfold back_call_state. by destruct no_grad. Qed.

Lemma pop_state_has_included s k :
  ks_has all_dynlayer_keyset k = false ->
  ks_has (included_ (tls_local_dispatch_key_set (pop_state s))) k
  = ks_has (included_ (tls_local_dispatch_key_set s)) k.
Proof.
  intros Hk. unfold pop_state. destruct (_ =? _)%nat; [|done].
  rewrite setFrontBack_has. rewrite decide_False; [done|].
  intros [->| ->]; discriminate.
Qed.

Lemma pop_state_excluded s :
  excluded_ (tls_local_dispatch_key_set (pop_state s))
  = excluded_ (tls_local_dispatch_key_set s).
Proof.
  unfold pop_state. destruct (_ =? _)%nat; [|done]. by rewrite setFrontBack_excluded.
Qed.

(** The key sets during the re-dispatched call. *)
Lemma back_call_state_keys s prev no_grad :
  let sc := back_call_state s prev no_grad in
  (forall k, ks_has all_dynlayer_keyset k = true ->
     k <> kDynamicLayerFrontModeKey -> k <> kDynamicLayerBackModeKey ->
     ks_has (included_ (tls_local_dispatch_key_set sc)) k = ks_has (included_ prev) k)
  /\ (forall k, ks_has all_dynlayer_keyset k = true ->
        ks_has (excluded_ (tls_local_dispatch_key_set sc)) k = ks_has (excluded_ prev) k)
  /\ ks_has (included_ (tls_local_dispatch_key_set sc)) kDynamicLayerFrontModeKey = true
  /\ ks_has (included_ (tls_local_dispatch_key_set sc)) kDynamicLayerBackModeKey = true
  /\ (forall k, ks_has all_dynlayer_keyset k = false ->
        ks_has (included_ (tls_local_dispatch_key_set sc)) k
        = ks_has (included_ (tls_local_dispatch_key_set s)) k
        /\ ks_has (excluded_ (tls_local_dispatch_key_set sc)) k
           = ks_has (excluded_ (tls_local_dispatch_key_set s)) k).
Proof.
  intros sc. unfold sc. rewrite back_call_state_tls.
  split; [|split; [|split; [|split]]].
  - intros k Hk Hf Hb. rewrite setFrontBack_has.
    rewrite decide_False by (intros [?|?]; done).
    simpl. by apply reset_keyset_functorch.
  - intros k Hk. rewrite setFrontBack_excluded. simpl. by apply reset_keyset_functorch.
  - rewrite setFrontBack_has. by rewrite decide_True by auto.
  - rewrite setFrontBack_has. by rewrite decide_True by auto.
  - intros k Hk. rewrite setFrontBack_has, setFrontBack_excluded.
    rewrite decide_False by (intros [->| ->]; discriminate).
    unfold force_tls_local_dispatch_key_set. cbn [tls_local_dispatch_key_set].
    destruct (reset_keyset_other (tls_local_dispatch_key_set (pop_state s)) prev k Hk)
      as [-> ->].
    by rewrite pop_state_has_included, pop_state_excluded.
Qed.

(** C4 (as amended). The back fallback pops the top layer before the
    re-dispatched call and pushes it back when the block is left, by
    return or by exception: whenever the fallback leaves a state and the
    call itself leaves the layer stack alone, the layer stack is the one
    of before.  During the call the functorch-tracked keys other than the
    two dynamic-layer mode keys have the values of the snapshot, the two
    mode keys are included, every other key is as it was; and grad mode is
    forced off exactly when the top layer is [Autograd] and recorded
    [prev_grad_mode = false], and put back afterwards. *)
Theorem C4_back_fallback_without_top op s rest top :
  dynamicLayerStack s = rest ++ [top] ->
  let is_autograd := bool_decide (key top = Autograd) in
  let no_grad := is_autograd && bool_decide (prevGradMode top = Some false) in
  (preserves_layers (Ext:=Ext) (callBoxed op) ->
   forall s',
     (dynamicLayerBackFallback callBoxed refreshMetadata op s = Ret tt s'
      \/ exists e, dynamicLayerBackFallback callBoxed refreshMetadata op s = Throw e s') ->
     dynamicLayerStack s' = dynamicLayerStack s)
  /\ dynamicLayerBackFallback callBoxed refreshMetadata op s
     = (run (if is_autograd then
               TORCH_INTERNAL_ASSERT (bool_decide (is_Some (prevGradMode top)))
                 "prev_grad_mode.has_value()"
             else ret tt);
        run (if is_autograd then back_copy_and_unwrap op (layerId top) else ret tt);
        run back_redispatch callBoxed op is_autograd (prevGradMode top);
        if is_autograd then back_wrap_refresh_erase refreshMetadata op (layerId top)
        else ret tt) s
  /\ forall prev, key top <> Undefined -> prev_local_keyset_ s = Some prev ->
       let sc := back_call_state s prev no_grad in
       back_redispatch callBoxed op is_autograd (prevGradMode top) s
       = repush top (map_outcome (back_after_call s no_grad) (callBoxed op sc))
       /\ dynamicLayerStack sc = rest
       /\ (forall k, ks_has all_dynlayer_keyset k = true ->
             k <> kDynamicLayerFrontModeKey -> k <> kDynamicLayerBackModeKey ->
             ks_has (included_ (tls_local_dispatch_key_set sc)) k
             = ks_has (included_ prev) k)
       /\ (forall k, ks_has all_dynlayer_keyset k = true ->
             ks_has (excluded_ (tls_local_dispatch_key_set sc)) k
             = ks_has (excluded_ prev) k)
       /\ ks_has (included_ (tls_local_dispatch_key_set sc)) kDynamicLayerFrontModeKey = true
       /\ ks_has (included_ (tls_local_dispatch_key_set sc)) kDynamicLayerBackModeKey = true
       /\ (forall k, ks_has all_dynlayer_keyset k = false ->
             ks_has (included_ (tls_local_dispatch_key_set sc)) k
             = ks_has (included_ (tls_local_dispatch_key_set s)) k
             /\ ks_has (excluded_ (tls_local_dispatch_key_set sc)) k
                = ks_has (excluded_ (tls_local_dispatch_key_set s)) k)
       /\ grad_mode sc = (if no_grad then false else grad_mode s)
       /\ (forall s2, grad_mode (back_after_call s no_grad s2)
                      = if no_grad then grad_mode s else grad_mode s2)
       /\ (forall s2, dynamicLayerStack s2 = rest ->
             (rest = [] -> is_Some (prev_local_keyset_ s2)) ->
             layerId top = 1 + Z.of_nat (length rest) ->
             exists s4, pushDynamicLayer top (back_after_call s no_grad s2)
                        = Ret (layerId top) s4
                        /\ dynamicLayerStack s4 = rest ++ [top]).
Proof.
  intros Hs is_autograd no_grad. split; [|split].
  - intros Hc s' Hout.
    pose proof (preserves_layers_back_fallback op Hc s) as Hp.
    destruct Hout as [Hr|[e Hr]]; by rewrite Hr in Hp.
  - unfold dynamicLayerBackFallback. unfold bind at 1. unfold gets at 1.
    by rewrite Hs, last_snoc.
  - intros prev Hk Hprev sc.
    split; [by apply (back_redispatch_eq op is_autograd _ s rest top prev)|].
    split; [by apply (back_call_state_layers s rest top)|].
    destruct (back_call_state_keys s prev no_grad) as (H1 & H2 & H3 & H4 & H5).
    split; [exact H1|]. split; [exact H2|]. split; [exact H3|]. split; [exact H4|].
    split; [exact H5|]. split; [apply back_call_state_grad|].
    split.
    + intros s2. unfold back_after_call. by destruct no_grad.
    + intros s2 Hs2 Hp2 Hl.
      assert (Hd : dynamicLayerStack (back_after_call s no_grad s2) = rest).
      { unfold back_after_call. by destruct no_grad. }
      assert (Hq : prev_local_keyset_ (back_after_call s no_grad s2)
                   = prev_local_keyset_ s2).
      { unfold back_after_call. by destruct no_grad. }
      eexists. split.
      * apply pushDynamicLayer_ok; rewrite ?Hd, ?Hq; [done|].
        intros E. by apply Hp2.
      * by rewrite push_state_stack, Hd.
Qed.

End BackFacts.

(** C4, the claim as stated, fails: during the re-dispatched call the key
    set is not the snapshot.  With nothing included before the transform
    was entered, the call still runs with both dynamic-layer mode keys
    included. *)
Lemma C4_counterexample :
  prev_local_keyset_
    (one_layer_state Autograd (Some true) [IVTensor (TensorWrapper (DenseTensor 1) 1 0%nat)])
  = Some empty_keyset
  /\ exists s',
       dynamicLayerBackFallback (probe_callBoxed [IVTensor (DenseTensor 9)]) probe_refresh
         relu_schema
         (one_layer_state Autograd (Some true)
            [IVTensor (TensorWrapper (DenseTensor 1) 1 0%nat)])
       = Ret tt s'
       /\ exists during g st,
            head (ext s') = Some (Called [] during g st)
            /\ during <> empty_keyset
            /\ ks_has (included_ during) kDynamicLayerFrontModeKey = true
            /\ ks_has (included_ empty_keyset) kDynamicLayerFrontModeKey = false.
Proof.
  split; [reflexivity|]. eexists. split; [vm_compute; reflexivity|].
  eexists _, _, _. split; [reflexivity|]. split; [discriminate|].
  split; reflexivity.
Qed.

Section BackAutograd.
Context {Ext : Type}.
Variable callBoxed : FunctionSchema -> M (@State Ext) unit.
Variable refreshMetadata : Tensor -> Ext -> Ext.
Implicit Types (s : @State Ext) (op : FunctionSchema).

Lemma back_unwrap_spec s L t :
  tensor_unwrappable s L t = true -> back_unwrap s L t = Ok (spec_unwrap_level s L t).
Proof.
  intros H. unfold back_unwrap, spec_unwrap_level, wrapped_at_level.
  destruct t as [|i|v l h|v b l]; simpl in *; try done.
  unfold wrapper_level. apply andb_true_iff in H as [Ha Hl]. rewrite Ha, Hl. simpl.
  by destruct (l =? L).
Qed.

Lemma value_unwrappable_ok s L v :
  value_unwrappable s L v -> value_ok (back_unwrap s L) (spec_unwrap_level s L) v.
Proof.
  intros Hv. destruct v as [|t|n|b|ty elems|d]; simpl in *; try done.
  - destruct Hv as [Hn Hd]. split; [|done]. by apply back_unwrap_spec.
  - intros t Ht. apply back_unwrap_spec; auto.
Qed.



(** Steps 1 and 2. *)
Lemma back_copy_and_unwrap_ok op s L base args :
  stack s = base ++ args -> length args = length (arguments op) ->
  Forall (value_unwrappable s L) args ->
  back_copy_and_unwrap op L s
  = Ret tt (set_stack (base ++ args ++ (map_ivalue (spec_unwrap_level s L) <$> args)) s).
Proof.
  intros Hst Hlen Hall. unfold back_copy_and_unwrap.
  unfold bind at 1. unfold gets at 1. rewrite Hst, <- Hlen, jit_last_app.
  cbv beta iota delta [bind modify gets id].
  unfold on_stack.
  change (stack (set_stack ((base ++ args) ++ args) s)) with ((base ++ args) ++ args).
  change (back_unwrap (set_stack ((base ++ args) ++ args) s) L) with (back_unwrap s L).
  rewrite (foreachTensorInplace_last _ (spec_unwrap_level s L) (base ++ args) args).
  - by rewrite <- !(assoc_L (++)).
  - eapply Forall_impl; [exact Hall|]. intros v Hv. by apply value_unwrappable_ok.
Qed.


Lemma push_state_jit dl s : stack (push_state dl s) = stack s.
Proof.
  unfold push_state. destruct (_ =? _)%nat; [|done].
  destruct (setFrontBack_force true
              (set_dynamicLayerStack (dynamicLayerStack s ++ [dl]) s)) as [ks ->].
  reflexivity.
Qed.

Lemma push_state_ext dl s : ext (push_state dl s) = ext s.
Proof.
  unfold push_state. destruct (_ =? _)%nat; [|done].
  destruct (setFrontBack_force true
              (set_dynamicLayerStack (dynamicLayerStack s ++ [dl]) s)) as [ks ->].
  reflexivity.
Qed.


End BackAutograd.

(** ** The plumbing of [nll_loss_forward] *)

Section LossFacts.
Context {Ext : Type}.
Variable dim : Tensor -> Z.
Variable size : Tensor -> Z -> Res Z.
Variable reshape_dim_into : Z -> Z -> Tensor -> M (@State Ext) Tensor.
Variable reshape_dim_outof : Z -> Z -> Tensor -> M (@State Ext) Tensor.
Variable at_nll_loss_forward :
  Tensor -> Tensor -> option Tensor -> Z -> Z -> M (@State Ext) (Tensor * Tensor).
Variable sum : Tensor -> Z -> M (@State Ext) Tensor.
Variable mean : Tensor -> Z -> M (@State Ext) Tensor.
Variable new_full : Tensor -> Z -> M (@State Ext) Tensor.
Variable select : Tensor -> Z -> Z -> M (@State Ext) Tensor.
Variable at_stack : list Tensor -> M (@State Ext) Tensor.
Variable call_unbatched : string -> list IValue -> M (@State Ext) (Tensor * Tensor).

Lemma unwrapTensorAtLevel_bdim t L :
  bool_decide (is_Some (snd (unwrapTensorAtLevel t L))) = batched_at_level t L.
Proof.
  unfold unwrapTensorAtLevel, batched_at_level.
  destruct (maybeGetBatchedImpl t) as [[[v b] l]|]; [|done].
  by destruct (l =? L).
Qed.

Lemma unwrapTensorAtLevel_batched v b L :
  unwrapTensorAtLevel (BatchedTensorImpl v b L) L = (v, Some b).
Proof. unfold unwrapTensorAtLevel. simpl. by rewrite Z.eqb_refl. Qed.

Lemma batched_at_level_inv t L :
  batched_at_level t L = true -> exists v b, t = BatchedTensorImpl v b L.
Proof.
  unfold batched_at_level. destruct t as [|i|v l h|v b l]; simpl; try done.
  intros H. apply Z.eqb_eq in H. subst. eauto.
Qed.

(** The slices the loop takes are those of the design. *)
Lemma sample_of_arguments_slices L index args : forall s sample s1,
  sample_of_arguments select L index args s = Ret sample s1
  <-> slices_at select L index args s sample s1.
Proof.
  induction args as [|v rest IH]; intros s sample s1.
  { simpl. unfold ret. split.
    - intros [= <- <-]. constructor.
    - intros H. by inversion H. }
  split.
  - simpl. unfold bind at 1. intros H.
    destruct (sample_of_argument select L index v s) as [v' s0| | |] eqn:Ev; try done.
    unfold bind at 1 in H.
    destruct (sample_of_arguments select L index rest s0) as [rest' s2| | |] eqn:Er;
      try done.
    unfold ret in H. injection H as <- <-. apply IH in Er.
    unfold sample_of_argument in Ev.
    destruct v as [|t|n|b|ty elems|d]; unfold ret in Ev;
      try (injection Ev as <- <-; apply slices_at_other; [discriminate|done]).
    destruct t as [|i|w l h|w bd bl]; unfold unwrapTensorAtLevel in Ev; simpl in Ev;
      unfold ret in Ev;
      try (injection Ev as <- <-; apply slices_at_other; [discriminate|done]).
    destruct (Z.eqb_spec bl L) as [->|Hne].
    + unfold bind in Ev. destruct (select w bd index s) as [slice s'| | |] eqn:Es; try done.
      unfold ret in Ev. injection Ev as <- <-. by eapply slices_at_batched.
    + unfold ret in Ev. injection Ev as <- <-. apply slices_at_other; [|done].
      intros value bdim [= _ _ E]. done.
  - intros H. inversion H as [|value bdim rest0 s0 slice s2 rest' s3 Hsel Hrest
                               |v0 rest0 s0 rest' s2 Hv Hrest]; subst.
    + apply IH in Hrest. simpl. unfold bind at 1. unfold sample_of_argument.
      rewrite unwrapTensorAtLevel_batched. unfold bind at 1. rewrite Hsel.
      unfold ret at 1. unfold bind. rewrite Hrest. done.
    + apply IH in Hrest. simpl. unfold bind at 1.
      assert (Hsame : sample_of_argument select L index v s = Ret v s).
      { unfold sample_of_argument. destruct v as [|t|n|b|ty elems|d]; try done.
        destruct t as [|i|w l h|w bd bl]; try done.
        unfold unwrapTensorAtLevel. simpl. destruct (Z.eqb_spec bl L) as [->|Hne]; [|done].
        by destruct (Hv w bd). }
      rewrite Hsame. unfold bind. rewrite Hrest. done.
Qed.

(** The loop runs the operation on each slice, as the design says. *)
Lemma loop_over_samples_runs op L args count : forall index s results s',
  loop_over_samples select call_unbatched op L args count index s = Ret results s'
  <-> runs_on_slices select call_unbatched op L args count index s results s'.
Proof.
  induction count as [|count IH]; intros index s results s'.
  { simpl. unfold ret. split.
    - intros [= <- <-]. constructor.
    - intros H. by inversion H. }
  split.
  - simpl. unfold bind at 1. intros H.
    destruct (sample_of_arguments select L index args s) as [sample s1| | |] eqn:Es;
      try done.
    unfold bind at 1 in H.
    destruct (call_unbatched op sample s1) as [result s2| | |] eqn:Ec; try done.
    unfold bind at 1 in H.
    destruct (loop_over_samples select call_unbatched op L args count (index + 1) s2)
      as [rs s3| | |] eqn:El; try done.
    unfold ret in H. injection H as <- <-.
    apply sample_of_arguments_slices in Es. apply IH in El.
    by eapply runs_on_slices_next.
  - intros H. inversion H as [|c i s0 sample s1 result s2 rs s3 Hs Hc Hr]; subst.
    apply sample_of_arguments_slices in Hs. apply IH in Hr.
    simpl. unfold bind at 1. rewrite Hs. unfold bind at 1. rewrite Hc.
    unfold bind. rewrite Hr. done.
Qed.

Lemma sample_of_arguments_returns L index args :
  (forall t d i s, exists x s', select t d i s = Ret x s') ->
  forall s, exists sample s1, sample_of_arguments select L index args s = Ret sample s1.
Proof.
  intros Hsel. induction args as [|v rest IH]; intros s; simpl; [by eexists _, _|].
  assert (Hv : exists v' s0, sample_of_argument select L index v s = Ret v' s0).
  { unfold sample_of_argument. destruct v as [|t|n|b|ty elems|d]; try by eexists _, _.
    destruct (unwrapTensorAtLevel t L) as [value [bdim|]]; [|by eexists _, _].
    destruct (Hsel value bdim index s) as (x & s0 & Hx).
    unfold bind. rewrite Hx. by eexists _, _. }
  destruct Hv as (v' & s0 & Hv). destruct (IH s0) as (rest' & s1 & Hr).
  unfold bind. rewrite Hv, Hr. by eexists _, _.
Qed.

Lemma loop_over_samples_returns op L args count :
  library_returns select at_stack call_unbatched ->
  forall index s, exists results s',
    loop_over_samples select call_unbatched op L args count index s = Ret results s'.
Proof.
  intros (Hsel & _ & Hcall). induction count as [|count IH]; intros index s; simpl;
    [by eexists _, _|].
  destruct (sample_of_arguments_returns L index args Hsel s) as (sample & s1 & Hs).
  destruct (Hcall op sample s1) as (r & s2 & Hc).
  destruct (IH (index + 1) s2) as (rs & s3 & Hl).
  unfold bind. rewrite Hs, Hc, Hl. by eexists _, _.
Qed.

(** The fallback under a layer with a batch size. *)
Lemma slow_fallback_results op args (s : @State Ext) layer batch_size r0 r1 s' :
  maybeCurrentDynamicLayer s = Some layer -> batchSize_ layer = Some batch_size ->
  slow_fallback select at_stack call_unbatched op args s = Ret (r0, r1) s'
  <-> exists results s1 output0 s2 output1,
        runs_on_slices select call_unbatched op (layerId layer) args
          (Z.to_nat batch_size) 0 s results s1
        /\ at_stack (fst <$> results) s1 = Ret output0 s2
        /\ at_stack (snd <$> results) s2 = Ret output1 s'
        /\ r0 = BatchedTensorImpl output0 0 (layerId layer)
        /\ r1 = BatchedTensorImpl output1 0 (layerId layer).
Proof.
  intros Hl Hb. unfold slow_fallback. unfold bind at 1. unfold gets at 1. rewrite Hl.
  unfold batchSize. rewrite Hb. unfold lift_res. unfold bind at 1. unfold ret at 1.
  split.
  - unfold bind at 1. intros H.
    destruct (loop_over_samples select call_unbatched op (layerId layer) args
                (Z.to_nat batch_size) 0 s) as [results s1| | |] eqn:El; try done.
    unfold bind at 1 in H.
    destruct (at_stack (fst <$> results) s1) as [output0 s2| | |] eqn:E0; try done.
    unfold bind at 1 in H.
    destruct (at_stack (snd <$> results) s2) as [output1 s3| | |] eqn:E1; try done.
    unfold ret, makeBatched in H. injection H as <- <- <-.
    apply loop_over_samples_runs in El. by eexists results, s1, output0, s2, output1.
  - intros (results & s1 & output0 & s2 & output1 & Hr & H0 & H1 & -> & ->).
    apply loop_over_samples_runs in Hr.
    unfold bind. by rewrite Hr, H0, H1.
Qed.

Lemma slow_fallback_returns op args (s : @State Ext) layer batch_size :
  maybeCurrentDynamicLayer s = Some layer -> batchSize_ layer = Some batch_size ->
  library_returns select at_stack call_unbatched ->
  exists r s', slow_fallback select at_stack call_unbatched op args s = Ret r s'.
Proof.
  intros Hl Hb Hlib. unfold slow_fallback. unfold bind at 1. unfold gets at 1. rewrite Hl.
  unfold batchSize. rewrite Hb. unfold lift_res. unfold bind at 1. unfold ret at 1.
  destruct (loop_over_samples_returns op (layerId layer) args (Z.to_nat batch_size)
              Hlib 0 s) as (results & s1 & Hr).
  destruct Hlib as (_ & Hst & _).
  destruct (Hst (fst <$> results) s1) as (o0 & s2 & H0).
  destruct (Hst (snd <$> results) s2) as (o1 & s3 & H1).
  unfold bind. rewrite Hr, H0, H1. by eexists _, _.
Qed.

(** C9. Under a current layer of level [L], [nll_loss_forward_plumbing]
    calls the batch rule exactly when [self] and [target] are both batched
    at level [L], the weight is absent or not batched at level [L], and
    [ignore_index] is negative.  In every other case it hands the call,
    with its five arguments as they came, to [slow_fallback] and passes on
    what that does, raising nothing itself.  Under a layer with a batch
    size, as a batching layer has one, the fallback returns whenever
    slicing, stacking and the operation on each sample return; and what
    it returns is what the design asks for: the operation is run on the
    slices of the arguments at the indices 0 .. batch size - 1, and the
    two results are the stacks of the results of these runs, batched at
    level [L] along the new leading axis. *)
Theorem C9_nll_loss_forward_rule_or_fallback
  (self target : Tensor) (weight : option Tensor) (reduction ignore_index : Z)
  (s : @State Ext) (layer : DynamicLayer) :
  maybeCurrentDynamicLayer s = Some layer ->
  let L := layerId layer in
  let rule_applies :=
    batched_at_level self L && batched_at_level target L
    && match weight with
       | None => true
       | Some w => negb (batched_at_level w L)
       end
    && (ignore_index <? 0) in
  let args :=
    [IVTensor self; IVTensor target; optional_tensor_ivalue weight;
     IVInt reduction; IVInt ignore_index] in
  let plumbing :=
    nll_loss_forward_plumbing dim size reshape_dim_into reshape_dim_outof
      at_nll_loss_forward sum mean new_full
      (slow_fallback select at_stack call_unbatched)
      self target weight reduction ignore_index in
  (rule_applies = true ->
   exists self_value self_bdim target_value target_bdim,
     self = BatchedTensorImpl self_value self_bdim L
     /\ target = BatchedTensorImpl target_value target_bdim L
     /\ plumbing s
        = with_ExcludeDispatchKeyGuard (ks_of kBatchedKey)
            (do results <- nll_loss_forward_self_target_batch_rule dim size
                   reshape_dim_into reshape_dim_outof at_nll_loss_forward
                   sum mean new_full
                   self_value (Some self_bdim) target_value (Some target_bdim)
                   reduction;
             let '(r0, b0, r1, b1) := results in
             ret (makeBatched r0 b0 L, makeBatched r1 b1 L)) s)
  /\ (rule_applies = false ->
      plumbing s
      = slow_fallback select at_stack call_unbatched "aten::nll_loss_forward" args s
      /\ forall batch_size,
           batchSize_ layer = Some batch_size ->
           (library_returns select at_stack call_unbatched ->
            exists r s', plumbing s = Ret r s')
           /\ (forall r0 r1 s',
                 plumbing s = Ret (r0, r1) s'
                 <-> exists results s1 output0 s2 output1,
                       runs_on_slices select call_unbatched "aten::nll_loss_forward" L
                         args (Z.to_nat batch_size) 0 s results s1
                       /\ at_stack (fst <$> results) s1 = Ret output0 s2
                       /\ at_stack (snd <$> results) s2 = Ret output1 s'
                       /\ r0 = BatchedTensorImpl output0 0 L
                       /\ r1 = BatchedTensorImpl output1 0 L)).
Proof.
  intros Hlayer L rule_applies args plumbing.
  assert (Hcond :
    bool_decide (is_Some (snd (unwrapTensorAtLevel self L)))
    && bool_decide (is_Some (snd (unwrapTensorAtLevel target L)))
    && negb (bool_decide (is_Some
               match weight with
               | Some w => snd (unwrapTensorAtLevel w L)
               | None => None
               end))
    && (ignore_index <? 0) = rule_applies).
  { unfold rule_applies. rewrite !unwrapTensorAtLevel_bdim.
    destruct weight as [w|]; [by rewrite unwrapTensorAtLevel_bdim|done]. }
  split.
  - intros Hr.
    assert (Hs : batched_at_level self L = true).
    { unfold rule_applies in Hr. by destruct (batched_at_level self L). }
    assert (Ht : batched_at_level target L = true).
    { unfold rule_applies in Hr. rewrite Hs in Hr. by destruct (batched_at_level target L). }
    destruct (batched_at_level_inv _ _ Hs) as (sv & sb & Es).
    destruct (batched_at_level_inv _ _ Ht) as (tv & tb & Et).
    exists sv, sb, tv, tb. split; [done|]. split; [done|].
    unfold plumbing, nll_loss_forward_plumbing. unfold bind at 1. unfold gets at 1.
    rewrite Hlayer. fold L. rewrite Hcond, Hr. rewrite Es, Et.
    by rewrite !unwrapTensorAtLevel_batched.
  - intros Hr.
    assert (Hrun : plumbing s
                   = slow_fallback select at_stack call_unbatched
                       "aten::nll_loss_forward" args s).
    { unfold plumbing, nll_loss_forward_plumbing. unfold bind at 1. unfold gets at 1.
      rewrite Hlayer. fold L. rewrite Hcond, Hr. reflexivity. }
    split; [exact Hrun|]. intros batch_size Hbatch. split.
    + intros Hlib. rewrite Hrun.
      by apply (slow_fallback_returns _ args s layer batch_size).
    + intros r0 r1 s'. rewrite Hrun.
      by apply (slow_fallback_results _ args s layer batch_size).
Qed.

End LossFacts.

(** ** The theorems on examples *)

Lemma C1_witness :
  dynamicLayerFrontFallback (probe_callBoxed []) add__schema
    (two_grad_layers [IVTensor tw1; IVTensor (DenseTensor 2)])
  = Throw (TorchCheck (mutation_error "aten::add_.Tensor"))
          (two_grad_layers [IVTensor tw1; IVTensor (DenseTensor 2)]).
Proof.
  refine (proj1 (C1_mutation_on_capture_rejected (probe_callBoxed []) add__schema
                   (two_grad_layers [IVTensor tw1; IVTensor (DenseTensor 2)])
                   inner_layer tw1 [IVTensor (DenseTensor 2)] _ _ _ _) _);
    reflexivity.
Defined.

Lemma C2_witness :
  (exists s' layer,
     initAndPushDynamicLayer Autograd None (Some true) (no_layer_state [])
     = Ret 1 s'
     /\ dynamicLayerStack s' = [layer] /\ layerId layer = 1 /\ key layer = Autograd)
  /\ pushDynamicLayer inner_layer (no_layer_state [])
     = Throw (InternalAssert "layerId == dynamic_layer.layerId()") (no_layer_state []).
Proof.
  split.
  - refine (proj1 (C2_push_assigns_next_level (no_layer_state [])) Autograd None
              (Some true) _).
    split; [discriminate|]. split; [discriminate|]. split; [eauto|]. intros H. by elim H.
  - refine (proj1 (proj2 (proj2 (C2_push_assigns_next_level (no_layer_state []))))
              inner_layer _).
    simpl. lia.
Defined.

Lemma C3_witness :
  front_transform_arguments add__schema
    (one_layer_state Autograd (Some true)
       [IVTensor (DenseTensor 1);
        IVList OptionalTensorType [IVNone; IVTensor (DenseTensor 2)]])
  = Ret tt
      (one_layer_state Autograd (Some true)
         [IVTensor tw1;
          IVList OptionalTensorType
            [IVNone; IVTensor (TensorWrapper (DenseTensor 2) 1 0%nat)]])
  /\ exists e,
       (e = BadOptionalAccess \/ e = InternalAssert "escaped?")
       /\ front_transform_arguments relu_schema (third_grad_state [IVTensor wrapped_twice])
          = Throw e (third_grad_state [IVTensor wrapped_twice])
       /\ dynamicLayerFrontFallback (probe_callBoxed [IVTensor (DenseTensor 9)]) relu_schema
            (third_grad_state [IVTensor wrapped_twice])
          = Throw e (third_grad_state [IVTensor wrapped_twice]).
Proof.
  split.
  - refine (proj1 (proj2 (C3_front_argument_normalization
                            (probe_callBoxed [IVTensor (DenseTensor 9)]) add__schema
                            (one_layer_state Autograd (Some true)
                               [IVTensor (DenseTensor 1);
                                IVList OptionalTensorType [IVNone; IVTensor (DenseTensor 2)]])
                            (grad_layer true) []
                            [IVTensor (DenseTensor 1);
                             IVList OptionalTensorType [IVNone; IVTensor (DenseTensor 2)]]
                            _ _ _ _)) _); try reflexivity.
    repeat constructor.
    intros t Ht.
    apply elem_of_cons in Ht as [Ht|Ht]; [discriminate|].
    apply elem_of_cons in Ht as [Ht|Ht]; [inversion Ht; reflexivity|].
    by apply not_elem_of_nil in Ht.
  - destruct (proj2 (proj2 (proj2 (proj2 (proj2
                (C3_front_argument_normalization
                   (probe_callBoxed [IVTensor (DenseTensor 9)]) relu_schema
                   (third_grad_state [IVTensor wrapped_twice])
                   (mkDynamicLayer Autograd 1 None (Some true) 2%nat) []
                   [IVTensor wrapped_twice] eq_refl eq_refl eq_refl eq_refl)))))
                [] (IVTensor wrapped_twice) [] wrapped_twice eq_refl)
      as (e & s' & He & Hs' & Hpass & Hfront);
      [constructor|by left|reflexivity|].
    exists e. split; [exact He|]. subst s'. split; [exact Hpass|].
    apply Hfront. reflexivity.
Defined.

Lemma C4_witness :
  exists s',
    dynamicLayerBackFallback (probe_callBoxed [IVTensor (DenseTensor 9)]) probe_refresh
      relu_schema (one_layer_state Autograd (Some false) [IVTensor tw1])
    = Ret tt s'
    /\ dynamicLayerStack s' = [grad_layer false]
    /\ dynamicLayerStack
         (back_call_state (one_layer_state Autograd (Some false) [IVTensor tw1])
            empty_keyset true) = []
    /\ grad_mode
         (back_call_state (one_layer_state Autograd (Some false) [IVTensor tw1])
            empty_keyset true) = false
    /\ grad_mode s' = true.
Proof.
  destruct (C4_back_fallback_without_top (probe_callBoxed [IVTensor (DenseTensor 9)])
              probe_refresh relu_schema
              (one_layer_state Autograd (Some false) [IVTensor tw1])
              [] (grad_layer false) eq_refl) as (H1 & _ & H3).
  destruct (H3 empty_keyset ltac:(discriminate) eq_refl)
    as (_ & Hl & _ & _ & _ & _ & _ & Hg & _).
  eexists. split; [vm_compute; reflexivity|].
  split.
  - apply H1; [intros x; reflexivity|]. left. vm_compute. reflexivity.
  - split; [exact Hl|]. split; [exact Hg|reflexivity].
Defined.



Lemma C7_witness :
  exists s',
    popDynamicLayerAndDeleteMetadata (one_layer_state Autograd (Some true) [])
    = Ret (grad_layer true) s'
    /\ dynamicLayerStack s' = []
    /\ cell_alive (life_cells s') 0%nat = false
    /\ prev_local_keyset_ s' = None
    /\ areTransformsActive s' = false.
Proof.
  destruct (proj1 (proj2 (C7_pop_marks_dead (one_layer_state Autograd (Some true) [])))
              [] (grad_layer true) eq_refl ltac:(discriminate))
    as (s' & Hr & Hd & Hc & _ & He & _).
  destruct (He eq_refl) as (Hp & _ & _ & Ha).
  exists s'. split; [exact Hr|]. split; [exact Hd|]. split; [exact Hc|].
  split; [exact Hp|exact Ha].
Defined.

Lemma C8_witness :
  (exists w,
     dynamicLayerFrontFallback (probe_callBoxed [IVTensor (DenseTensor 9)]) relu_schema
       (between_layers_state [IVTensor tw1])
     = Throw (InternalAssert w) (between_layers_state [IVTensor tw1]))
  /\ dynamicLayerFrontFallback (probe_callBoxed [IVTensor (DenseTensor 9)]) relu_schema
       (between_layers_state [IVTensor (DenseTensor 1)])
     = Ret tt
         (mkState [] (Some empty_keyset) front_back_included true []
            [IVTensor (DenseTensor 9)]
            [Called [] empty_keyset true [IVTensor (DenseTensor 1)]]).
Proof.
  split.
  - refine (proj1 (C8_front_fallback_empty_stack
                     (probe_callBoxed [IVTensor (DenseTensor 9)]) relu_schema
                     (between_layers_state [IVTensor tw1]) eq_refl) _).
    right. reflexivity.
  - destruct (proj1 (proj2 (C8_front_fallback_empty_stack
                     (probe_callBoxed [IVTensor (DenseTensor 9)]) relu_schema
                     (between_layers_state [IVTensor (DenseTensor 1)]) eq_refl))
                ltac:(simpl; lia) eq_refl empty_keyset eq_refl) as (_ & _ & H).
    exact H.
Defined.

Lemma C9_witness :
  nll_loss_forward_plumbing stub_dim stub_size stub_reshape stub_reshape
    stub_nll_loss_forward stub_reduce stub_reduce stub_new_full
    (slow_fallback stub_select stub_stack stub_unbatched)
    (BatchedTensorImpl (DenseTensor 1) 0 1) (BatchedTensorImpl (DenseTensor 2) 0 1)
    None Reduction_Mean (-100) (vmap_state 2 [])
  = Ret (BatchedTensorImpl (DenseTensor 1) 0 1, DenseTensor 4) (vmap_state 2 [])
  /\ (exists r s',
        nll_loss_forward_plumbing stub_dim stub_size stub_reshape stub_reshape
          stub_nll_loss_forward stub_reduce stub_reduce stub_new_full
          (slow_fallback stub_select stub_stack stub_unbatched)
          (BatchedTensorImpl (DenseTensor 1) 0 1) (DenseTensor 2)
          None Reduction_Mean (-100) (vmap_state 2 [])
        = Ret r s')
  /\ nll_loss_forward_plumbing stub_dim stub_size stub_reshape stub_reshape
       stub_nll_loss_forward stub_reduce stub_reduce stub_new_full
       (slow_fallback stub_select stub_stack stub_unbatched)
       (BatchedTensorImpl (DenseTensor 1) 0 1) (DenseTensor 2)
       None Reduction_Mean (-100) (vmap_state 2 [])
     = Ret (BatchedTensorImpl (DenseTensor 1213) 0 1, BatchedTensorImpl (DenseTensor 101) 0 1)
         (vmap_state 2 []).
Proof.
  split; [|split].
  - destruct (proj1 (C9_nll_loss_forward_rule_or_fallback stub_dim stub_size stub_reshape
                       stub_reshape stub_nll_loss_forward stub_reduce stub_reduce
                       stub_new_full stub_select stub_stack stub_unbatched
                       (BatchedTensorImpl (DenseTensor 1) 0 1)
                       (BatchedTensorImpl (DenseTensor 2) 0 1)
                       None Reduction_Mean (-100) (vmap_state 2 [])
                       (mkDynamicLayer FuncTorchBatched 1 (Some 2) None 0%nat)
                       eq_refl) eq_refl)
      as (sv & sb & tv & tb & Hs & Ht & Hp).
    injection Hs as <- <-. injection Ht as <- <-.
    etransitivity; [exact Hp|]. vm_compute. reflexivity.
  - apply (proj1 (proj2 (proj2 (C9_nll_loss_forward_rule_or_fallback stub_dim stub_size
                       stub_reshape stub_reshape stub_nll_loss_forward stub_reduce
                       stub_reduce stub_new_full stub_select stub_stack stub_unbatched
                       (BatchedTensorImpl (DenseTensor 1) 0 1) (DenseTensor 2)
                       None Reduction_Mean (-100) (vmap_state 2 [])
                       (mkDynamicLayer FuncTorchBatched 1 (Some 2) None 0%nat)
                       eq_refl) eq_refl) 2 eq_refl)).
    split; [|split].
    + intros t d i s. by eexists _, _.
    + intros ts s. by eexists _, _.
    + intros op args s. unfold stub_unbatched.
      destruct args as [|[|a| | | |] [|[|b| | | |] rest]]; by eexists _, _.
  - apply (proj2 (proj2 (proj2 (C9_nll_loss_forward_rule_or_fallback stub_dim
                       stub_size stub_reshape stub_reshape stub_nll_loss_forward
                       stub_reduce stub_reduce stub_new_full stub_select stub_stack
                       stub_unbatched
                       (BatchedTensorImpl (DenseTensor 1) 0 1) (DenseTensor 2)
                       None Reduction_Mean (-100) (vmap_state 2 [])
                       (mkDynamicLayer FuncTorchBatched 1 (Some 2) None 0%nat)
                       eq_refl) eq_refl) 2 eq_refl)).
    exists [(DenseTensor 12, DenseTensor 1); (DenseTensor 13, DenseTensor 1)],
      (vmap_state 2 []), (DenseTensor 1213), (vmap_state 2 []), (DenseTensor 101).
    split; [|by repeat split].
    eapply (runs_on_slices_next _ _ _ _ _ _ _ _
              [IVTensor (DenseTensor 10); IVTensor (DenseTensor 2); IVNone;
               IVInt Reduction_Mean; IVInt (-100)]);
      [|reflexivity|].
    { apply slices_at_batched with (s1 := vmap_state 2 []); [reflexivity|].
      repeat (apply slices_at_other; [discriminate|]). constructor. }
    eapply (runs_on_slices_next _ _ _ _ _ _ _ _
              [IVTensor (DenseTensor 11); IVTensor (DenseTensor 2); IVNone;
               IVInt Reduction_Mean; IVInt (-100)]);
      [|reflexivity|].
    { apply slices_at_batched with (s1 := vmap_state 2 []); [reflexivity|].
      repeat (apply slices_at_other; [discriminate|]). constructor. }
    constructor.
Defined.

(** ** Key sets, bit by bit *)

Lemma testbit_ks_of k n :
  k <> Undefined -> 0 <= n -> Z.testbit (ks_of k) n = (n =? key_value k - 1).
Proof.
  intros Hk Hn.
  replace (ks_of k) with (Z.shiftl 1 (key_value k - 1)) by (destruct k; done).
  pose proof (key_value_pos k Hk) as Hp.
  rewrite Z.shiftl_spec by done. rewrite testbit_one.
  destruct (Z.eqb_spec (n - (key_value k - 1)) 0), (Z.eqb_spec n (key_value k - 1)); lia.
Qed.

Lemma ks_add_has_id i k : ks_has i k = true -> ks_add i k = i.
Proof.
  intros H. destruct (decide (k = Undefined)) as [->|Hk].
  { by rewrite ks_has_undefined in H. }
  rewrite ks_has_testbit in H by done.
  unfold ks_add, ks_or. apply Z.bits_inj'. intros n Hn.
  rewrite Z.lor_spec, testbit_ks_of by done.
  destruct (Z.eqb_spec n (key_value k - 1)) as [->|]; [by rewrite H|apply orb_false_r].
Qed.

Lemma ks_remove_has_id i k : ks_has i k = false -> ks_remove i k = i.
Proof.
  intros H. unfold ks_remove, ks_sub. destruct (decide (k = Undefined)) as [->|Hk].
  { simpl. apply Z.ldiff_0_r. }
  rewrite ks_has_testbit in H by done.
  apply Z.bits_inj'. intros n Hn.
  rewrite Z.ldiff_spec, testbit_ks_of by done.
  destruct (Z.eqb_spec n (key_value k - 1)) as [->|]; [by rewrite H|apply andb_true_r].
Qed.

Lemma ks_remove_add i k : ks_has i k = false -> ks_remove (ks_add i k) k = i.
Proof.
  intros H. unfold ks_remove, ks_add, ks_sub, ks_or.
  destruct (decide (k = Undefined)) as [->|Hk].
  { simpl. by rewrite Z.lor_0_r, Z.ldiff_0_r. }
  rewrite ks_has_testbit in H by done.
  apply Z.bits_inj'. intros n Hn.
  rewrite Z.ldiff_spec, Z.lor_spec, testbit_ks_of by done.
  destruct (Z.eqb_spec n (key_value k - 1)) as [->|]; [rewrite H|]; first [done | by destruct (Z.testbit i n)].
Qed.

Lemma ks_add_remove i k : ks_has i k = true -> ks_add (ks_remove i k) k = i.
Proof.
  intros H. destruct (decide (k = Undefined)) as [->|Hk].
  { by rewrite ks_has_undefined in H. }
  rewrite ks_has_testbit in H by done.
  unfold ks_remove, ks_add, ks_sub, ks_or.
  apply Z.bits_inj'. intros n Hn.
  rewrite Z.lor_spec, Z.ldiff_spec, testbit_ks_of by done.
  destruct (Z.eqb_spec n (key_value k - 1)) as [->|]; [rewrite H|]; first [done | by destruct (Z.testbit i n)].
Qed.

(** Resetting is idempotent, and resetting a key set that differs from
    the snapshot in the mode keys only gives the snapshot. *)
Lemma reset_keyset_idem cur prev :
  reset_keyset (reset_keyset cur prev) prev = reset_keyset cur prev.
Proof.
  unfold reset_keyset, ks_or, ks_sub, ks_and. simpl.
  f_equal; apply Z.bits_inj'; intros n Hn;
    rewrite !Z.lor_spec, !Z.ldiff_spec, !Z.lor_spec, !Z.ldiff_spec, !Z.land_spec;
    by destruct (Z.testbit _ n), (Z.testbit all_dynlayer_keyset n), (Z.testbit _ n).
Qed.

Lemma reset_keyset_mode_keys (b : bool) ks : reset_keyset (mode_keys b ks) ks = ks.
Proof.
  destruct ks as [i e]. unfold reset_keyset, mode_keys. simpl.
  assert (HF : Z.testbit all_dynlayer_keyset (key_value kDynamicLayerFrontModeKey - 1) = true)
    by reflexivity.
  assert (HB : Z.testbit all_dynlayer_keyset (key_value kDynamicLayerBackModeKey - 1) = true)
    by reflexivity.
  unfold ks_or, ks_sub, ks_and, ks_add, ks_remove, ks_or, ks_sub.
  f_equal; apply Z.bits_inj'; intros n Hn.
  - destruct b;
      rewrite ?Z.lor_spec, ?Z.ldiff_spec, ?Z.land_spec, ?Z.lor_spec, ?Z.ldiff_spec,
        ?Z.lor_spec, ?Z.ldiff_spec, ?testbit_ks_of by done;
      (destruct (Z.eqb_spec n (key_value kDynamicLayerFrontModeKey - 1)) as [->|];
       [rewrite HF; by destruct (Z.testbit i _)|]);
      (destruct (Z.eqb_spec n (key_value kDynamicLayerBackModeKey - 1)) as [->|];
       [rewrite HB; by destruct (Z.testbit i _)|]);
      by destruct (Z.testbit i n), (Z.testbit all_dynlayer_keyset n).
  - rewrite Z.lor_spec, Z.ldiff_spec, Z.land_spec.
    by destruct (Z.testbit e n), (Z.testbit all_dynlayer_keyset n).
Qed.

Section KeySetBits.
Context {Ext : Type}.
Implicit Types s : @State Ext.

(** [tls_set_dispatch_key_included] in one formula: adding a key that is
    there, or removing one that is not, gives the same word. *)
Lemma tls_set_dispatch_key_included_eq x (d : bool) s :
  tls_set_dispatch_key_included x d s
  = force_tls_local_dispatch_key_set
      (mkLocalDispatchKeySet
         (if d then ks_add (included_ (tls_local_dispatch_key_set s)) x
          else ks_remove (included_ (tls_local_dispatch_key_set s)) x)
         (excluded_ (tls_local_dispatch_key_set s))) s.
Proof.
  unfold tls_set_dispatch_key_included.
  destruct (ks_has (included_ (tls_local_dispatch_key_set s)) x) eqn:Hh, d; simpl.
  - rewrite ks_add_has_id by done. by destruct s as [? ? [] ? ? ? ?].
  - done.
  - done.
  - rewrite ks_remove_has_id by done. by destruct s as [? ? [] ? ? ? ?].
Qed.

Lemma setFrontBack_eq (b : bool) s :
  setDynamicLayerFrontBackKeysIncluded b s
  = force_tls_local_dispatch_key_set (mode_keys b (tls_local_dispatch_key_set s)) s.
Proof.
  unfold setDynamicLayerFrontBackKeysIncluded, mode_keys.
  rewrite !tls_set_dispatch_key_included_eq. simpl. by destruct b.
Qed.

(** Taking both mode keys out after putting them in gives the key set of
    before when neither was in it; putting them in after taking them out
    gives the key set of before when both were in it. *)
Lemma mode_keys_on_off ks :
  ks_has (included_ ks) kDynamicLayerFrontModeKey = false ->
  ks_has (included_ ks) kDynamicLayerBackModeKey = false ->
  mode_keys false (mode_keys true ks) = ks.
Proof.
  intros Hf Hb. destruct ks as [i e]. unfold mode_keys. simpl in *. f_equal.
  unfold ks_remove, ks_add, ks_sub, ks_or.
  rewrite ks_has_testbit in Hf, Hb by done.
  apply Z.bits_inj'. intros n Hn.
  rewrite !Z.ldiff_spec, !Z.lor_spec, !testbit_ks_of by done.
  destruct (Z.eqb_spec n (key_value kDynamicLayerFrontModeKey - 1)) as [->|];
    [rewrite Hf; reflexivity|].
  destruct (Z.eqb_spec n (key_value kDynamicLayerBackModeKey - 1)) as [->|];
    [rewrite Hb; reflexivity|].
  by destruct (Z.testbit i n).
Qed.

Lemma mode_keys_off_on ks :
  ks_has (included_ ks) kDynamicLayerFrontModeKey = true ->
  ks_has (included_ ks) kDynamicLayerBackModeKey = true ->
  mode_keys true (mode_keys false ks) = ks.
Proof.
  intros Hf Hb. destruct ks as [i e]. unfold mode_keys. simpl in *. f_equal.
  unfold ks_remove, ks_add, ks_sub, ks_or.
  rewrite ks_has_testbit in Hf, Hb by done.
  apply Z.bits_inj'. intros n Hn.
  rewrite !Z.lor_spec, !Z.ldiff_spec, !testbit_ks_of by done.
  destruct (Z.eqb_spec n (key_value kDynamicLayerFrontModeKey - 1)) as [->|];
    [rewrite Hf; reflexivity|].
  destruct (Z.eqb_spec n (key_value kDynamicLayerBackModeKey - 1)) as [->|];
    [rewrite Hb; reflexivity|].
  by destruct (Z.testbit i n).
Qed.

Lemma mode_keys_has (b : bool) ks k :
  ks_has (included_ (mode_keys b ks)) k
  = if decide (k = kDynamicLayerFrontModeKey \/ k = kDynamicLayerBackModeKey) then b
    else ks_has (included_ ks) k.
Proof.
  unfold mode_keys.
  destruct b; simpl; rewrite ?ks_has_add, ?ks_has_remove;
    (destruct (decide _) as [[->| ->]|Hn];
     [destruct (ks_has (included_ ks) _); reflexivity..|]);
    rewrite (bool_decide_eq_false_2 (kDynamicLayerFrontModeKey = k)) by naive_solver;
    rewrite (bool_decide_eq_false_2 (kDynamicLayerBackModeKey = k)) by naive_solver;
    simpl; by rewrite ?orb_false_r, ?andb_true_r.
Qed.

Lemma setFrontBack_on_off s :
  ks_has (included_ (tls_local_dispatch_key_set s)) kDynamicLayerFrontModeKey = false ->
  ks_has (included_ (tls_local_dispatch_key_set s)) kDynamicLayerBackModeKey = false ->
  setDynamicLayerFrontBackKeysIncluded false (setDynamicLayerFrontBackKeysIncluded true s)
  = s.
Proof.
  intros Hf Hb. rewrite (setFrontBack_eq true s). rewrite setFrontBack_eq.
  cbn [tls_local_dispatch_key_set force_tls_local_dispatch_key_set].
  rewrite mode_keys_on_off by done. by destruct s as [? ? [] ? ? ? ?].
Qed.

Lemma setFrontBack_off_on s :
  ks_has (included_ (tls_local_dispatch_key_set s)) kDynamicLayerFrontModeKey = true ->
  ks_has (included_ (tls_local_dispatch_key_set s)) kDynamicLayerBackModeKey = true ->
  setDynamicLayerFrontBackKeysIncluded true (setDynamicLayerFrontBackKeysIncluded false s)
  = s.
Proof.
  intros Hf Hb. rewrite (setFrontBack_eq false s). rewrite setFrontBack_eq.
  cbn [tls_local_dispatch_key_set force_tls_local_dispatch_key_set].
  rewrite mode_keys_off_on by done. by destruct s as [? ? [] ? ? ? ?].
Qed.

End KeySetBits.

(** ** Entering and leaving, further properties *)

Section MoreStackFacts.
Context {Ext : Type}.
Implicit Types s : @State Ext.

Lemma insert_snoc_cell (cells : list bool) (b b' : bool) :
  <[length cells := b']> (cells ++ [b]) = cells ++ [b'].
Proof. rewrite insert_app_r_alt by lia. by rewrite Nat.sub_diag. Qed.

(** X1. Entering a transform and leaving it again is a round trip: the
    layer that [maybeCurrentDynamicLayer] shows after
    [initAndPushDynamicLayer] carries the returned level, the key, the
    batch size and the grad mode it was entered with, and is alive;
    [popDynamicLayerAndDeleteMetadata] returns that same layer, and the
    thread is then in the state of before the enter (layer stack, snapshot,
    key set, grad mode, boxed stack), except that one more liveness cell
    exists, which holds [false]. *)
Theorem enter_then_leave_round_trip k b p s :
  enter_allowed k p s ->
  (dynamicLayerStack s = [] ->
   prev_local_keyset_ s = None
   /\ ks_has (included_ (tls_local_dispatch_key_set s)) kDynamicLayerFrontModeKey = false
   /\ ks_has (included_ (tls_local_dispatch_key_set s)) kDynamicLayerBackModeKey = false) ->
  exists id s1 layer,
    initAndPushDynamicLayer k b p s = Ret id s1
    /\ maybeCurrentDynamicLayer s1 = Some layer
    /\ layerId layer = id /\ key layer = k /\ prevGradMode layer = p
    /\ batchSize layer
       = match b with Some n => Ok n | None => Err (InternalAssert "batchSize_") end
    /\ cell_alive (life_cells s1) (lifeHandle layer) = true
    /\ popDynamicLayerAndDeleteMetadata s1
       = Ret layer (set_life_cells (life_cells s ++ [false]) s).
Proof.
  intros Ha He.
  exists (1 + Z.of_nat (length (dynamicLayerStack s))), (entered_state k b p s),
    (new_layer k b p s).
  split; [by apply initAndPushDynamicLayer_ok|].
  split. { unfold maybeCurrentDynamicLayer. by rewrite entered_state_stack, last_snoc. }
  split; [done|]. split; [done|]. split; [done|].
  split. { unfold batchSize. simpl. by destruct b. }
  split. { rewrite entered_state_cells. apply cell_alive_alloc_new. }
  rewrite (popDynamicLayerAndDeleteMetadata_ok _ (dynamicLayerStack s) (new_layer k b p s)).
  2:{ apply entered_state_stack. }
  2:{ simpl. apply Ha. }
  f_equal.
  unfold left_state.
  assert (Hps : dynamicLayerStack (pop_state (entered_state k b p s)) = dynamicLayerStack s).
  { eapply pop_state_stack. apply entered_state_stack. }
  cbn [dynamicLayerStack set_life_cells]. rewrite Hps.
  rewrite pop_state_cells, entered_state_cells. simpl lifeHandle.
  rewrite insert_snoc_cell.
  unfold pop_state. rewrite entered_state_stack, removelast_snoc.
  unfold entered_state, push_state, snapshot_taken.
  destruct (dynamicLayerStack s) as [|l0 ls] eqn:Hs.
  - destruct (He eq_refl) as (Hp & Hf & Hb).
    repeat (cbn [length Nat.eqb app dynamicLayerStack set_life_cells
                 set_prev_local_keyset]; rewrite ?Hs).
    rewrite (setFrontBack_eq true). rewrite setFrontBack_eq.
    cbn [tls_local_dispatch_key_set force_tls_local_dispatch_key_set set_dynamicLayerStack
         set_life_cells set_prev_local_keyset].
    rewrite mode_keys_on_off by done.
    destruct s as [dls prev [inc exc] gm cells st x]. simpl in *. by subst dls prev.
  - simpl. destruct s as [dls prev [inc exc] gm cells st x]. simpl in *. by subst dls.
Qed.

(** X2. A rejected enter is not free of effects: on an empty stack
    [initAndPushDynamicLayer] records the snapshot before it checks the
    key, so a call with the key [Undefined] or [Batched], or with
    [Autograd] and no grad mode, fails with an internal assertion and
    leaves the current key set stored as the snapshot; nothing else
    changes, and on a stack that is not empty nothing changes at all. *)
Theorem rejected_enter_records_snapshot k b p s :
  k = Undefined \/ k = Batched \/ (k = Autograd /\ p = None) ->
  exists w,
    initAndPushDynamicLayer k b p s
    = Throw (InternalAssert w)
        (if bool_decide (dynamicLayerStack s = [])
         then set_prev_local_keyset (Some (tls_local_dispatch_key_set s)) s
         else s).
Proof.
  intros H. unfold initAndPushDynamicLayer, DynamicLayer_ctor, bind, gets, modify,
    TORCH_INTERNAL_ASSERT, ret, throw.
  destruct (dynamicLayerStack s) as [|l ls] eqn:Hs; simpl.
  - destruct H as [->|[->|[-> ->]]]; simpl; eauto.
  - destruct (prev_local_keyset_ s) eqn:Hp; simpl; [|eauto].
    destruct H as [->|[->|[-> ->]]]; simpl; eauto.
Qed.

Lemma entered_state_tls k b p s :
  tls_local_dispatch_key_set (entered_state k b p s)
  = if bool_decide (dynamicLayerStack s = []) then mode_keys true (tls_local_dispatch_key_set s)
    else tls_local_dispatch_key_set s.
Proof.
  unfold entered_state, push_state, snapshot_taken.
  destruct (dynamicLayerStack s) as [|l ls] eqn:Hs; simpl; rewrite ?Hs; simpl; [|done].
  by rewrite setFrontBack_eq.
Qed.

Lemma entered_state_prev k b p s :
  prev_local_keyset_ (entered_state k b p s)
  = if bool_decide (dynamicLayerStack s = []) then Some (tls_local_dispatch_key_set s)
    else prev_local_keyset_ s.
Proof.
  unfold entered_state, push_state, snapshot_taken.
  destruct (dynamicLayerStack s) as [|l ls] eqn:Hs; simpl; rewrite ?Hs; simpl; [|done].
  by rewrite setFrontBack_eq.
Qed.

Lemma left_state_tls s rest top :
  dynamicLayerStack s = rest ++ [top] ->
  tls_local_dispatch_key_set (left_state top s)
  = if bool_decide (rest = []) then mode_keys false (tls_local_dispatch_key_set s)
    else tls_local_dispatch_key_set s.
Proof.
  intros Hs. unfold left_state, pop_state. rewrite Hs, removelast_snoc.
  destruct rest as [|l ls]; simpl; [|done].
  by rewrite setFrontBack_eq.
Qed.

Lemma left_state_prev s rest top :
  dynamicLayerStack s = rest ++ [top] ->
  prev_local_keyset_ (left_state top s)
  = if bool_decide (rest = []) then None else prev_local_keyset_ s.
Proof.
  intros Hs. unfold left_state, pop_state. rewrite Hs, removelast_snoc.
  destruct rest as [|l ls]; simpl; [|done].
  by rewrite setFrontBack_eq.
Qed.

(** The key set and the snapshot in the states that entering and leaving
    reach from a thread whose key set was [tls0] while no transform was
    entered. *)
Lemma stack_step_keys tls0 s o :
  ks_has (included_ tls0) kDynamicLayerFrontModeKey = false ->
  ks_has (included_ tls0) kDynamicLayerBackModeKey = false ->
  match dynamicLayerStack s with
  | [] => tls_local_dispatch_key_set s = tls0
  | _ => tls_local_dispatch_key_set s = mode_keys true tls0
         /\ prev_local_keyset_ s = Some tls0
  end ->
  match dynamicLayerStack (stack_step s o) with
  | [] => tls_local_dispatch_key_set (stack_step s o) = tls0
  | _ => tls_local_dispatch_key_set (stack_step s o) = mode_keys true tls0
         /\ prev_local_keyset_ (stack_step s o) = Some tls0
  end.
Proof.
  intros Hf Hb HK. pose proof (stack_step_cases s o) as Hc.
  destruct o as [k b p|].
  - destruct Hc as [[Ha ->]|[->|[He ->]]]; [|done|].
    + rewrite entered_state_stack, entered_state_tls, entered_state_prev.
      destruct (dynamicLayerStack s) as [|l ls]; simpl.
      * by rewrite HK.
      * by destruct HK as [-> ->].
    + rewrite snapshot_taken_stack, He. rewrite He in HK.
      unfold snapshot_taken. rewrite He. simpl. done.
  - destruct Hc as [(rest & top & Hs & Hk & ->) | -> ]; [|done].
    rewrite (left_state_stack _ _ _ Hs), (left_state_tls _ _ _ Hs),
      (left_state_prev _ _ _ Hs).
    rewrite Hs in HK. destruct rest as [|l ls]; simpl in *.
    + destruct HK as [-> _]. by apply mode_keys_on_off.
    + done.
Qed.

Lemma run_ops_keys ops : forall s,
  dynamicLayerStack s = [] ->
  ks_has (included_ (tls_local_dispatch_key_set s)) kDynamicLayerFrontModeKey = false ->
  ks_has (included_ (tls_local_dispatch_key_set s)) kDynamicLayerBackModeKey = false ->
  let s' := run_ops ops s in
  match dynamicLayerStack s' with
  | [] => tls_local_dispatch_key_set s' = tls_local_dispatch_key_set s
  | _ => tls_local_dispatch_key_set s' = mode_keys true (tls_local_dispatch_key_set s)
         /\ prev_local_keyset_ s' = Some (tls_local_dispatch_key_set s)
  end.
Proof.
  intros s He Hf Hb.
  set (tls0 := tls_local_dispatch_key_set s) in *.
  assert (HK : match dynamicLayerStack s with
               | [] => tls_local_dispatch_key_set s = tls0
               | _ => tls_local_dispatch_key_set s = mode_keys true tls0
                      /\ prev_local_keyset_ s = Some tls0
               end) by (by rewrite He).
  clearbody tls0. clear He. revert s HK.
  induction ops as [|o ops IH]; intros s HK; simpl; [done|].
  apply IH. by apply stack_step_keys.
Qed.

(** X3. From a thread that has no transform entered and neither mode key
    included, after any sequence of entering and leaving (rejected calls
    among them) [areTransformsActive] answers exactly whether the layer
    stack is non-empty, and the key set is the one of the start, with both
    mode keys added while a layer is on the stack; the snapshot then holds
    the key set of the start. *)
Theorem areTransformsActive_iff_layers s ops :
  dynamicLayerStack s = [] ->
  ks_has (included_ (tls_local_dispatch_key_set s)) kDynamicLayerFrontModeKey = false ->
  areTransformsActive s = false ->
  let s' := run_ops ops s in
  areTransformsActive s' = negb (bool_decide (dynamicLayerStack s' = []))
  /\ tls_local_dispatch_key_set s'
     = (if bool_decide (dynamicLayerStack s' = []) then tls_local_dispatch_key_set s
        else mode_keys true (tls_local_dispatch_key_set s))
  /\ (dynamicLayerStack s' <> [] ->
      prev_local_keyset_ s' = Some (tls_local_dispatch_key_set s)).
Proof.
  intros He Hf Hb s'. pose proof (run_ops_keys ops s He Hf Hb) as HK. simpl in HK.
  fold s' in HK. unfold areTransformsActive in *.
  destruct (dynamicLayerStack s') as [|l ls]; simpl.
  - rewrite HK. done.
  - destruct HK as [-> ->]. rewrite mode_keys_has. done.
Qed.

(** X4. The reset guard composes with itself: a
    [resetFunctorchLocalDispatchKeySetRAII] scope directly inside another
    one (the front fallback on an empty stack, reached from the
    re-dispatch of the back fallback) forces the key set that is already
    in force, so the body runs and the scope is left exactly as with one
    guard. *)
Theorem nested_reset_is_reset {A} (body : M (@State Ext) A) s :
  with_resetFunctorchLocalDispatchKeySetRAII
    (with_resetFunctorchLocalDispatchKeySetRAII body) s
  = with_resetFunctorchLocalDispatchKeySetRAII body s.
Proof.
  destruct (prev_local_keyset_ s) as [prev|] eqn:Hp.
  - rewrite !(with_reset_Some _ s prev) by done.
    set (cur := tls_local_dispatch_key_set s).
    rewrite (with_reset_Some _ _ prev) by (by destruct s).
    cbn [tls_local_dispatch_key_set force_tls_local_dispatch_key_set].
    rewrite reset_keyset_idem.
    replace (force_tls_local_dispatch_key_set (reset_keyset cur prev)
               (force_tls_local_dispatch_key_set (reset_keyset cur prev) s))
      with (force_tls_local_dispatch_key_set (reset_keyset cur prev) s) by (by destruct s).
    by destruct (body _).
  - by rewrite !with_reset_None.
Qed.

(** X5. What the comment on [resetFunctorchLocalDispatchKeySetRAII]
    promises: in every state reached by entering and leaving transforms
    that has a layer on the stack, the guard gives its scope exactly the
    key set the thread had before the first transform was entered, and
    forces the current key set back when the scope is left. *)
Theorem reset_gives_pre_transform_keyset {A} (body : M (@State Ext) A) s ops :
  dynamicLayerStack s = [] ->
  ks_has (included_ (tls_local_dispatch_key_set s)) kDynamicLayerFrontModeKey = false ->
  ks_has (included_ (tls_local_dispatch_key_set s)) kDynamicLayerBackModeKey = false ->
  let s' := run_ops ops s in
  dynamicLayerStack s' <> [] ->
  with_resetFunctorchLocalDispatchKeySetRAII body s'
  = leave_forcing (tls_local_dispatch_key_set s')
      (body (force_tls_local_dispatch_key_set (tls_local_dispatch_key_set s) s')).
Proof.
  intros He Hf Hb s' Hne. pose proof (run_ops_keys ops s He Hf Hb) as HK. simpl in HK.
  fold s' in HK. destruct (dynamicLayerStack s') as [|l ls]; [done|].
  destruct HK as [Ht Hp].
  rewrite (with_reset_Some _ _ _ Hp). by rewrite Ht, reset_keyset_mode_keys.
Qed.

Lemma getLifeHandleForLevel_in_range s (level : Z) :
  1 <= level <= Z.of_nat (length (dynamicLayerStack s)) ->
  exists l, dynamicLayerStack s !! Z.to_nat (level - 1) = Some l
            /\ getLifeHandleForLevel s level = Ok (lifeHandle l).
Proof.
  intros H. unfold getLifeHandleForLevel.
  destruct (Z.leb_spec 1 level); [|lia]. simpl.
  destruct (Z.ltb_spec (level - 1) (Z.of_nat (length (dynamicLayerStack s)))); [|lia].
  simpl.
  destruct (lookup_lt_is_Some_2 (dynamicLayerStack s) (Z.to_nat (level - 1))) as [l Hl];
    [lia|].
  exists l. by rewrite Hl.
Qed.

(** X6. [getLifeHandleForLevel] in the states reached by entering and
    leaving transforms: a level below 1 or above the depth of the stack is
    an internal assertion failure; a level in between gives the liveness
    cell of the layer that carries this level, that cell holds [true], and
    two different levels never give the same cell. *)
Theorem getLifeHandleForLevel_reached s ops (level : Z) :
  dynamicLayerStack s = [] ->
  let s' := run_ops ops s in
  let depth := Z.of_nat (length (dynamicLayerStack s')) in
  (level < 1 -> getLifeHandleForLevel s' level = Err (InternalAssert "level >= 1"))
  /\ (depth < level ->
      exists w, getLifeHandleForLevel s' level = Err (InternalAssert w))
  /\ (1 <= level <= depth ->
      exists l, l ∈ dynamicLayerStack s' /\ layerId l = level
                /\ getLifeHandleForLevel s' level = Ok (lifeHandle l)
                /\ cell_alive (life_cells s') (lifeHandle l) = true)
  /\ (forall level' h, level <> level' ->
        getLifeHandleForLevel s' level = Ok h -> getLifeHandleForLevel s' level' <> Ok h).
Proof.
  intros He s' depth.
  assert (Hinv : stack_inv s') by (apply run_ops_inv; by apply stack_inv_empty).
  destruct Hinv as (Hlv & Hnd & Hal & _).
  assert (Hin : forall lv h, getLifeHandleForLevel s' lv = Ok h ->
            1 <= lv <= depth
            /\ exists l, dynamicLayerStack s' !! Z.to_nat (lv - 1) = Some l
                         /\ h = lifeHandle l).
  { intros lv h. unfold getLifeHandleForLevel.
    destruct (Z.leb_spec 1 lv); simpl; [|done].
    destruct (Z.ltb_spec (lv - 1) (Z.of_nat (length (dynamicLayerStack s')))); simpl;
      [|done].
    destruct (dynamicLayerStack s' !! Z.to_nat (lv - 1)) as [l|] eqn:Hl; [|done].
    intros [= <-]. split; [unfold depth; lia|]. by exists l. }
  split; [|split; [|split]].
  - intros Hlt. unfold getLifeHandleForLevel. by destruct (Z.leb_spec 1 level); [lia|].
  - intros Hgt. unfold getLifeHandleForLevel.
    destruct (Z.leb_spec 1 level); simpl; [|eauto].
    destruct (Z.ltb_spec (level - 1) (Z.of_nat (length (dynamicLayerStack s')))); simpl;
      [unfold depth in Hgt; lia|eauto].
  - intros Hr. destruct (getLifeHandleForLevel_in_range s' level Hr) as (l & Hl & Hg).
    exists l. split; [by eapply list_elem_of_lookup_2|].
    split; [rewrite (Hlv _ _ Hl); lia|]. split; [done|].
    apply Hal. by eapply list_elem_of_lookup_2.
  - intros level' h Hne H1 H2.
    destruct (Hin _ _ H1) as (Hr1 & l1 & Hl1 & ->).
    destruct (Hin _ _ H2) as (Hr2 & l2 & Hl2 & Hh).
    assert (Z.to_nat (level - 1) = Z.to_nat (level' - 1)); [|lia].
    eapply NoDup_lookup; [exact Hnd| |]; rewrite list_lookup_fmap.
    + by rewrite Hl1.
    + by rewrite Hl2, Hh.
Qed.

(** X7. [WithoutTop] on an empty stack fails before the scope is entered.
    Otherwise the scope runs without the top layer, and leaving it pushes
    that layer back, whether the scope returned or threw; but when the
    scope left a stack of another depth, or emptied the snapshot under the
    last layer, the assertion of [pushDynamicLayer] fails inside the
    destructor and the process terminates. *)
Theorem WithoutTop_needs_balanced_scope {A} (body : M (@State Ext) A) s :
  (dynamicLayerStack s = [] ->
   with_WithoutTop body s = Throw (InternalAssert "dynamicLayerStack.size() > 0") s)
  /\ forall rest top,
       dynamicLayerStack s = rest ++ [top] -> key top <> Undefined ->
       layerId top = 1 + Z.of_nat (length rest) ->
       match body (pop_state s) with
       | Ret a s2 =>
           (length (dynamicLayerStack s2) <> length rest ->
            with_WithoutTop body s = Terminate)
           /\ (dynamicLayerStack s2 = [] -> prev_local_keyset_ s2 = None ->
               with_WithoutTop body s = Terminate)
           /\ (length (dynamicLayerStack s2) = length rest ->
               (dynamicLayerStack s2 = [] -> is_Some (prev_local_keyset_ s2)) ->
               exists s3, with_WithoutTop body s = Ret a s3
                          /\ dynamicLayerStack s3 = dynamicLayerStack s2 ++ [top])
       | Throw e s2 =>
           (length (dynamicLayerStack s2) <> length rest ->
            with_WithoutTop body s = Terminate)
           /\ (dynamicLayerStack s2 = [] -> prev_local_keyset_ s2 = None ->
               with_WithoutTop body s = Terminate)
           /\ (length (dynamicLayerStack s2) = length rest ->
               (dynamicLayerStack s2 = [] -> is_Some (prev_local_keyset_ s2)) ->
               exists s3, with_WithoutTop body s = Throw e s3
                          /\ dynamicLayerStack s3 = dynamicLayerStack s2 ++ [top])
       | Terminate => with_WithoutTop body s = Terminate
       | UB => with_WithoutTop body s = UB
       end.
Proof.
  split.
  { intros He. unfold with_WithoutTop, bind. by rewrite popDynamicLayer_empty. }
  intros rest top Hs Hk Hid.
  unfold with_WithoutTop, bind. rewrite (popDynamicLayer_ok _ _ _ Hs Hk).
  unfold with_dtor, bind, ret.
  assert (Hbad1 : forall s2, length (dynamicLayerStack s2) <> length rest ->
            exists e, pushDynamicLayer top s2 = Throw e s2).
  { intros s2 Hne. eexists. apply pushDynamicLayer_mismatch. lia. }
  assert (Hbad2 : forall s2, dynamicLayerStack s2 = [] -> prev_local_keyset_ s2 = None ->
            exists e s3, pushDynamicLayer top s2 = Throw e s3).
  { intros s2 He2 Hp2.
    destruct (decide (layerId top = 1)) as [H1|H1].
    - eexists _, _. by apply pushDynamicLayer_no_snapshot.
    - eexists _, _. apply pushDynamicLayer_mismatch. rewrite He2. simpl. lia. }
  assert (Hgood : forall s2, length (dynamicLayerStack s2) = length rest ->
            (dynamicLayerStack s2 = [] -> is_Some (prev_local_keyset_ s2)) ->
            pushDynamicLayer top s2 = Ret (layerId top) (push_state top s2)).
  { intros s2 Hl Hp2. apply pushDynamicLayer_ok; [lia|done]. }
  destruct (body (pop_state s)) as [a s2|e s2| |]; try done.
  - split; [|split].
    + intros Hne. destruct (Hbad1 s2 Hne) as [e ->]. done.
    + intros He2 Hp2. destruct (Hbad2 s2 He2 Hp2) as (e & s3 & ->). done.
    + intros Hl Hp2. rewrite (Hgood s2 Hl Hp2). eexists. split; [done|].
      apply push_state_stack.
  - split; [|split].
    + intros Hne. destruct (Hbad1 s2 Hne) as [e' ->]. done.
    + intros He2 Hp2. destruct (Hbad2 s2 He2 Hp2) as (e' & s3 & ->). done.
    + intros Hl Hp2. rewrite (Hgood s2 Hl Hp2). eexists. split; [done|].
      apply push_state_stack.
Qed.

(** X8. [setDynamicLayerStack] replaces the layer stack and nothing else:
    when a stack saved with [getDynamicLayerStack] is installed again
    after its top layer has been popped by
    [popDynamicLayerAndDeleteMetadata], that layer is the current layer
    again but its liveness cell still holds [false], and key set and
    snapshot stay as the pop left them, so that after the pop of the last
    layer [areTransformsActive] is [false] and no snapshot exists although
    the stack is not empty. *)
Theorem setDynamicLayerStack_does_not_revive s rest top :
  dynamicLayerStack s = rest ++ [top] -> key top <> Undefined ->
  exists s1,
    popDynamicLayerAndDeleteMetadata s = Ret top s1
    /\ let s2 := setDynamicLayerStack (dynamicLayerStack s) s1 in
       dynamicLayerStack s2 = dynamicLayerStack s
       /\ maybeCurrentDynamicLayer s2 = Some top
       /\ cell_alive (life_cells s2) (lifeHandle top) = false
       /\ tls_local_dispatch_key_set s2 = tls_local_dispatch_key_set s1
       /\ prev_local_keyset_ s2 = prev_local_keyset_ s1
       /\ (rest = [] -> areTransformsActive s2 = false /\ prev_local_keyset_ s2 = None).
Proof.
  intros Hs Hk. exists (left_state top s).
  split; [by eapply popDynamicLayerAndDeleteMetadata_ok|].
  cbn zeta. unfold setDynamicLayerStack, maybeCurrentDynamicLayer.
  cbn [set_dynamicLayerStack dynamicLayerStack life_cells tls_local_dispatch_key_set
       prev_local_keyset_].
  split; [done|]. split; [by rewrite Hs, last_snoc|].
  split; [rewrite left_state_cells; apply cell_alive_kill|].
  split; [done|]. split; [done|].
  intros ->. unfold areTransformsActive.
  cbn [set_dynamicLayerStack tls_local_dispatch_key_set].
  rewrite (left_state_tls _ _ _ Hs), (left_state_prev _ _ _ Hs).
  rewrite !bool_decide_eq_true_2 by done.
  split; [by rewrite mode_keys_has|done].
Qed.

End MoreStackFacts.

(** ** [foreachTensorInplace], further properties *)

Lemma same_shape_refl v : same_shape v v.
Proof. by destruct v. Qed.

Lemma same_shape_trans v1 v2 v3 : same_shape v1 v2 -> same_shape v2 v3 -> same_shape v1 v3.
Proof.
  destruct v1, v2; simpl; try done; try (by intros <-); destruct v3; simpl; try done.
  intros [-> ->] [-> ->]. done.
Qed.

Lemma foreach_in_list_length func elems copy m :
  foreach_in_list func elems = Ok (copy, m) -> length copy = length elems.
Proof.
  revert copy m. induction elems as [|elt rest IH]; intros copy m; simpl.
  { by intros [= <- <-]. }
  destruct elt as [|t|n|b|ty es|d];
    try (destruct (foreach_in_list func rest) as [[rest' m']|e]; [|done];
         intros [= <- <-]; simpl; f_equal; by eapply IH).
  destruct (func t) as [t'|e]; [|done].
  destruct (foreach_in_list func rest) as [[rest' m']|e]; [|done].
  intros [= <- <-]. simpl. f_equal. by eapply IH.
Qed.

(** What one iteration can do to the stack: it leaves it alone or
    replaces the value at [idx] by one of the same shape. *)
Lemma foreach_body_frame func (idx : nat) args :
  match foreach_body func idx args with
  | Ret _ args' | Throw _ args' =>
      exists v v', args !! idx = Some v /\ same_shape v v' /\ args' = <[idx := v']> args
  | Terminate => False
  | UB => (length args <= idx)%nat
  end.
Proof.
  unfold foreach_body. destruct (args !! idx) as [v|] eqn:Hv.
  2:{ by apply lookup_ge_None. }
  assert (Hid : args = <[idx := v]> args) by (by rewrite list_insert_id).
  destruct v as [|t|n|b|ty es|d]; simpl.
  - exists IVNone, IVNone. done.
  - destruct (func t) as [t'|e].
    + destruct (defined t && negb (defined t')); by exists (IVTensor t), (IVTensor t').
    + by exists (IVTensor t), (IVTensor t).
  - by exists (IVInt n), (IVInt n).
  - by exists (IVBool b), (IVBool b).
  - destruct (foreach_in_list func es) as [[copy m]|e] eqn:Hl.
    + destruct m.
      * exists (IVList ty es), (IVList ty copy). split; [done|]. split; [|done].
        simpl. split; [done|]. symmetry. by eapply foreach_in_list_length.
      * exists (IVList ty es), (IVList ty es). split; [done|]. split; [|done].
        apply same_shape_refl.
    + exists (IVList ty es), (IVList ty es). split; [done|]. split; [|done].
      apply same_shape_refl.
  - by exists (IVGenericDict d), (IVGenericDict d).
Qed.

(** The frame of a run of the loop. *)
Definition loop_frame (idx count : nat) (args args' : list IValue) : Prop :=
  length args' = length args
  /\ (forall i : nat, (i < idx \/ idx + count <= i)%nat -> args' !! i = args !! i)
  /\ (forall (i : nat) v, args !! i = Some v ->
        exists v', args' !! i = Some v' /\ same_shape v v').

Lemma loop_frame_refl idx count args : loop_frame idx count args args.
Proof.
  split; [done|]. split; [done|]. intros i v Hv. exists v. split; [done|].
  apply same_shape_refl.
Qed.

Lemma loop_frame_step (idx count : nat) args v v' args'' :
  args !! idx = Some v -> same_shape v v' ->
  loop_frame (S idx) count (<[idx := v']> args) args'' ->
  loop_frame idx (S count) args args''.
Proof.
  intros Hv Hsh (Hlen & Hout & Hin). split; [|split].
  - by rewrite Hlen, length_insert.
  - intros i Hi. rewrite Hout by lia. apply list_lookup_insert_ne. lia.
  - intros i w Hw. destruct (decide (i = idx)) as [->|Hne].
    + assert (w = v) as -> by congruence.
      destruct (Hin idx v') as (v'' & Hv'' & Hsh'').
      { apply list_lookup_insert_eq. by eapply lookup_lt_Some. }
      exists v''. split; [done|]. by eapply same_shape_trans.
    + apply Hin. by rewrite list_lookup_insert_ne.
Qed.

Lemma foreach_loop_frame func count : forall (idx : nat) args,
  match foreach_loop func count idx args with
  | Ret _ args' | Throw _ args' => loop_frame idx count args args'
  | Terminate => False
  | UB => (length args < idx + count)%nat
  end.
Proof.
  induction count as [|count IH]; intros idx args; simpl.
  { apply loop_frame_refl. }
  unfold bind. pose proof (foreach_body_frame func idx args) as Hb.
  destruct (foreach_body func idx args) as [[] args1|e args1| |]; [| |done|lia].
  - destruct Hb as (v & v' & Hv & Hsh & ->).
    specialize (IH (S idx) (<[idx := v']> args)).
    destruct (foreach_loop func count (S idx) _) as [[] args2|e args2| |]; [| |done|].
    + by eapply loop_frame_step.
    + by eapply loop_frame_step.
    + rewrite length_insert in IH. lia.
  - destruct Hb as (v & v' & Hv & Hsh & ->).
    eapply loop_frame_step; [done..|]. apply loop_frame_refl.
Qed.

(** X9. The frame of [foreachTensorInplace], for every [func], whether
    the pass returns or stops at an exception: the stack keeps its size,
    the positions outside [begin, end) keep their values, and every
    position keeps the shape of its value (a tensor stays a tensor, a list
    keeps its element type and length, any other value is unchanged).
    The pass never terminates the process; it runs into undefined
    behaviour only when [end] lies beyond the stack. *)
Theorem foreachTensorInplace_frame func (begin end_ : Z) args :
  match foreachTensorInplace begin end_ func args with
  | Ret _ args' | Throw _ args' =>
      length args' = length args
      /\ (forall i : nat, (Z.of_nat i < begin \/ end_ <= Z.of_nat i) ->
            args' !! i = args !! i)
      /\ (forall (i : nat) v, args !! i = Some v ->
            exists v', args' !! i = Some v' /\ same_shape v v')
  | Terminate => False
  | UB => Z.of_nat (length args) < end_
  end.
Proof.
  assert (Hrefl : length args = length args
                  /\ (forall i : nat, (Z.of_nat i < begin \/ end_ <= Z.of_nat i) ->
                        args !! i = args !! i)
                  /\ (forall (i : nat) v, args !! i = Some v ->
                        exists v', args !! i = Some v' /\ same_shape v v')).
  { split; [done|]. split; [done|]. intros i v Hv. exists v. split; [done|].
    apply same_shape_refl. }
  unfold foreachTensorInplace, bind, TORCH_INTERNAL_ASSERT, ret, throw.
  destruct (Z.leb_spec 0 begin); [|exact Hrefl].
  destruct (Z.leb_spec 0 end_); [|exact Hrefl].
  destruct (Z.leb_spec begin end_); [|exact Hrefl].
  pose proof (foreach_loop_frame func (Z.to_nat (end_ - begin)) (Z.to_nat begin) args) as Hl.
  destruct (foreach_loop _ _ _ _) as [[] args'|e args'| |]; [| |done|lia].
  - destruct Hl as (Hlen & Hout & Hin). split; [done|]. split; [|done].
    intros i Hi. apply Hout. lia.
  - destruct Hl as (Hlen & Hout & Hin). split; [done|]. split; [|done].
    intros i Hi. apply Hout. lia.
Qed.

(** X10. The bounds of [foreachTensorInplace]: a negative [begin], a
    negative [end] or [begin > end] is an internal assertion failure that
    leaves the stack untouched, whatever [func] is; an empty range returns
    at once, also when it lies beyond the stack; and a range that starts
    at or beyond the end of the stack and is not empty indexes outside the
    vector. *)
Theorem foreachTensorInplace_bounds func (begin end_ : Z) args :
  (begin < 0 ->
   foreachTensorInplace begin end_ func args = Throw (InternalAssert "begin >= 0") args)
  /\ (0 <= begin -> end_ < 0 ->
      foreachTensorInplace begin end_ func args = Throw (InternalAssert "end >= 0") args)
  /\ (0 <= begin -> 0 <= end_ -> end_ < begin ->
      foreachTensorInplace begin end_ func args
      = Throw (InternalAssert "begin <= end") args)
  /\ (0 <= begin -> foreachTensorInplace begin begin func args = Ret tt args)
  /\ (Z.of_nat (length args) <= begin -> begin < end_ ->
      foreachTensorInplace begin end_ func args = UB).
Proof.
  unfold foreachTensorInplace, bind, TORCH_INTERNAL_ASSERT, ret, throw.
  split; [|split; [|split; [|split]]].
  - intros H. by destruct (Z.leb_spec 0 begin); [lia|].
  - intros H1 H2. destruct (Z.leb_spec 0 begin); [|lia].
    by destruct (Z.leb_spec 0 end_); [lia|].
  - intros H1 H2 H3. destruct (Z.leb_spec 0 begin); [|lia].
    destruct (Z.leb_spec 0 end_); [|lia].
    by destruct (Z.leb_spec begin end_); [lia|].
  - intros H1. destruct (Z.leb_spec 0 begin); [|lia].
    destruct (Z.leb_spec begin begin); [|lia].
    by rewrite Z.sub_diag.
  - intros H1 H2. destruct (Z.leb_spec 0 begin); [|lia].
    destruct (Z.leb_spec 0 end_); [|lia].
    destruct (Z.leb_spec begin end_); [|lia].
    destruct (Z.to_nat (end_ - begin)) as [|n] eqn:Hn; [lia|].
    simpl. unfold bind, foreach_body.
    rewrite lookup_ge_None_2 by lia. done.
Qed.

Lemma foreach_loop_app func (n m : nat) : forall (idx : nat) args,
  foreach_loop func (n + m) idx args
  = (run foreach_loop func n idx; foreach_loop func m (idx + n)) args.
Proof.
  induction n as [|n IH]; intros idx args; simpl.
  { unfold bind, ret. by rewrite Nat.add_0_r. }
  unfold bind at 1 2 3. destruct (foreach_body func idx args) as [[] args1|e args1| |];
    try done.
  rewrite IH. unfold bind. by rewrite Nat.add_succ_r.
Qed.

(** X11. Two passes over adjacent ranges compose to one pass over their
    union: for [0 <= begin <= mid <= end], running [foreachTensorInplace]
    on [begin, mid) and then on [mid, end) is running it on [begin, end),
    with the same stack and the same outcome, for every [func]. *)
Theorem foreachTensorInplace_split func (begin mid end_ : Z) args :
  0 <= begin -> begin <= mid -> mid <= end_ ->
  foreachTensorInplace begin end_ func args
  = (run foreachTensorInplace begin mid func;
     foreachTensorInplace mid end_ func) args.
Proof.
  intros H1 H2 H3.
  unfold foreachTensorInplace, TORCH_INTERNAL_ASSERT.
  destruct (Z.leb_spec 0 begin); [|lia]. destruct (Z.leb_spec 0 end_); [|lia].
  destruct (Z.leb_spec begin end_); [|lia]. destruct (Z.leb_spec 0 mid); [|lia].
  destruct (Z.leb_spec begin mid); [|lia]. destruct (Z.leb_spec mid end_); [|lia].
  unfold bind at 1 2 3 4 5 6 7 8 9 10. unfold ret at 1 2 3 4 5 6.
  replace (Z.to_nat (end_ - begin))
    with (Z.to_nat (mid - begin) + Z.to_nat (end_ - mid))%nat by lia.
  rewrite foreach_loop_app. unfold bind.
  destruct (foreach_loop func (Z.to_nat (mid - begin)) (Z.to_nat begin) args); try done.
  simpl. by replace (Z.to_nat begin + Z.to_nat (mid - begin))%nat with (Z.to_nat mid) by lia.
Qed.

Lemma foreach_in_list_err func f l1 t l2 e :
  (forall t', IVTensor t' ∈ l1 -> func t' = Ok (f t')) -> func t = Err e ->
  foreach_in_list func (l1 ++ IVTensor t :: l2) = Err e.
Proof.
  intros Hok He. induction l1 as [|elt l1 IH]; simpl.
  { by rewrite He. }
  assert (IH' : foreach_in_list func (l1 ++ IVTensor t :: l2) = Err e).
  { apply IH. intros t' Ht'. apply Hok. by apply elem_of_cons; right. }
  destruct elt as [|t0|n|b|ty es|d]; rewrite ?IH'; try done.
  by rewrite (Hok t0) by (by apply elem_of_cons; left).
Qed.

Lemma foreach_loop_stops func f mid v e : forall pre post count,
  Forall (value_ok func f) mid ->
  foreach_body func (length (pre ++ (map_ivalue f <$> mid)))
    ((pre ++ (map_ivalue f <$> mid)) ++ v :: post)
  = Throw e ((pre ++ (map_ivalue f <$> mid)) ++ v :: post) ->
  foreach_loop func (length mid + S count) (length pre) (pre ++ mid ++ v :: post)
  = Throw e (pre ++ (map_ivalue f <$> mid) ++ v :: post).
Proof.
  intros pre post count Hmid Hbody.
  rewrite foreach_loop_app. unfold bind at 1.
  rewrite (foreach_loop_ok func f mid pre (v :: post) Hmid).
  simpl. unfold bind.
  replace (length pre + length mid)%nat with (length (pre ++ (map_ivalue f <$> mid)))
    by (by rewrite length_app, length_fmap).
  rewrite (app_assoc pre). by rewrite Hbody.
Qed.

(** X12. The pass is not atomic.  When [func] throws at a tensor of the
    range, [foreachTensorInplace] stops there with that exception: the
    values of the range before it have been replaced already, the tensor
    itself and everything after it are untouched.  A list is replaced as a
    whole: when [func] throws at a tensor inside a list, the list stays
    as it was, also the tensors of it that [func] had accepted. *)
Theorem foreachTensorInplace_stops_at_first_error func f pre mid post e (end_ : Z) :
  Forall (value_ok func f) mid ->
  Z.of_nat (length pre + length mid) < end_ ->
  (forall t, func t = Err e ->
     foreachTensorInplace (Z.of_nat (length pre)) end_ func
       (pre ++ mid ++ IVTensor t :: post)
     = Throw e (pre ++ (map_ivalue f <$> mid) ++ IVTensor t :: post))
  /\ (forall ty l1 t l2,
        (forall t', IVTensor t' ∈ l1 -> func t' = Ok (f t')) -> func t = Err e ->
        foreachTensorInplace (Z.of_nat (length pre)) end_ func
          (pre ++ mid ++ IVList ty (l1 ++ IVTensor t :: l2) :: post)
        = Throw e (pre ++ (map_ivalue f <$> mid)
                   ++ IVList ty (l1 ++ IVTensor t :: l2) :: post)).
Proof.
  intros Hmid Hend.
  assert (Hrun : forall v,
            foreach_body func (length (pre ++ (map_ivalue f <$> mid)))
              ((pre ++ (map_ivalue f <$> mid)) ++ v :: post)
            = Throw e ((pre ++ (map_ivalue f <$> mid)) ++ v :: post) ->
            foreachTensorInplace (Z.of_nat (length pre)) end_ func (pre ++ mid ++ v :: post)
            = Throw e (pre ++ (map_ivalue f <$> mid) ++ v :: post)).
  { intros v Hbody. unfold foreachTensorInplace, bind, TORCH_INTERNAL_ASSERT, ret.
    destruct (Z.leb_spec 0 (Z.of_nat (length pre))); [|lia].
    destruct (Z.leb_spec 0 end_); [|lia].
    destruct (Z.leb_spec (Z.of_nat (length pre)) end_); [|lia].
    rewrite Nat2Z.id.
    replace (Z.to_nat (end_ - Z.of_nat (length pre)))
      with (length mid + S (Z.to_nat (end_ - Z.of_nat (length pre)) - length mid - 1))%nat
      by lia.
    by eapply foreach_loop_stops. }
  split.
  - intros t He. apply Hrun. unfold foreach_body.
    rewrite list_lookup_middle by done. simpl. by rewrite He.
  - intros ty l1 t l2 Hok He. apply Hrun. unfold foreach_body.
    rewrite list_lookup_middle by done.
    by rewrite (foreach_in_list_err func f l1 t l2 e Hok He).
Qed.

(** With a [func] that never throws, the only exceptions of the pass are
    its own internal assertions. *)
Lemma foreach_in_list_total func elems :
  (forall t, exists t', func t = Ok t') ->
  exists copy m, foreach_in_list func elems = Ok (copy, m).
Proof.
  intros Hf. induction elems as [|elt rest (copy & m & IH)]; simpl; [eauto|].
  rewrite IH.
  destruct elt as [|t|n|b|ty es|d]; eauto.
  destruct (Hf t) as [t' ->]. eauto.
Qed.

Lemma foreach_body_total func (idx : nat) args :
  (forall t, exists t', func t = Ok t') ->
  match foreach_body func idx args with
  | Throw e _ => exists w, e = InternalAssert w
  | _ => True
  end.
Proof.
  intros Hf. unfold foreach_body. destruct (args !! idx) as [v|]; [|done].
  destruct v as [|t|n|b|ty es|d]; simpl; try done.
  - destruct (Hf t) as [t' ->]. destruct (defined t && negb (defined t')); eauto.
  - destruct (foreach_in_list_total func es Hf) as (copy & m & ->). done.
  - eauto.
Qed.

Lemma foreach_loop_total func count : forall (idx : nat) args,
  (forall t, exists t', func t = Ok t') ->
  match foreach_loop func count idx args with
  | Throw e _ => exists w, e = InternalAssert w
  | _ => True
  end.
Proof.
  induction count as [|count IH]; intros idx args Hf; simpl; [done|].
  unfold bind. pose proof (foreach_body_total func idx args Hf) as Hb.
  destruct (foreach_body func idx args) as [[] args1|e args1| |]; try done.
  by apply IH.
Qed.

Lemma foreachTensorInplace_total func (begin end_ : Z) args :
  (forall t, exists t', func t = Ok t') ->
  match foreachTensorInplace begin end_ func args with
  | Throw e _ => exists w, e = InternalAssert w
  | _ => True
  end.
Proof.
  intros Hf. unfold foreachTensorInplace, bind, TORCH_INTERNAL_ASSERT, ret, throw.
  destruct (0 <=? begin); [|eauto]. destruct (0 <=? end_); [|eauto].
  destruct (begin <=? end_); [|eauto].
  by apply foreach_loop_total.
Qed.

(** ** [allTensors] and [anyTensors] *)

Lemma forallb_list_tensors (pred : Tensor -> bool) elems :
  existsb (fun elt => match elt with
                      | IVTensor t => negb (pred t)
                      | _ => false
                      end) elems
  = negb (forallb pred (tensors_of_ivalue (IVList AnyType elems))).
Proof.
  simpl. induction elems as [|elt rest IH]; [done|].
  destruct elt as [|t|n|b|ty es|d]; simpl; try done.
  rewrite IH. by destruct (pred t).
Qed.

Lemma forallb_negb_existsb {A} (p : A -> bool) l :
  forallb (fun x => negb (p x)) l = negb (existsb p l).
Proof. induction l as [|x l IH]; simpl; [done|]. rewrite IH. by destruct (p x). Qed.

Lemma allTensors_app pre rest (pred : Tensor -> bool) :
  Forall (fun v => isGenericDict v = false) pre ->
  allTensors (pre ++ rest) pred
  = if forallb pred (tensors_of pre) then allTensors rest pred else Ok false.
Proof.
  induction 1 as [|v pre Hv Hpre IH]; [done|].
  change (tensors_of (v :: pre)) with (tensors_of_ivalue v ++ tensors_of pre).
  rewrite forallb_app.
  destruct v as [|t|n|b|ty es|d]; simpl; try done.
  - rewrite IH. by destruct (pred t).
  - rewrite IH. rewrite forallb_list_tensors. simpl.
    by destruct (forallb pred (omap _ es)).
Qed.

(** X13. [allTensors] and [anyTensors] on arguments without a dictionary:
    [allTensors] answers whether [pred] holds of every tensor among the
    values and directly inside their lists, [anyTensors] whether it holds
    of one of them; neither looks at anything else, and on no tensors at
    all they answer [true] and [false]. *)
Theorem allTensors_anyTensors_without_dict args (pred : Tensor -> bool) :
  Forall (fun v => isGenericDict v = false) args ->
  allTensors args pred = Ok (forallb pred (tensors_of args))
  /\ anyTensors args pred = Ok (existsb pred (tensors_of args)).
Proof.
  intros H. unfold anyTensors.
  pose proof (allTensors_app args [] pred H) as H1.
  pose proof (allTensors_app args [] (fun self => negb (pred self)) H) as H2.
  rewrite app_nil_r in H1, H2. rewrite H1, H2. simpl.
  rewrite forallb_negb_existsb.
  split; [by destruct (forallb _ _)|by destruct (existsb _ _)].
Qed.

(** X14. A dictionary among the arguments is an internal assertion
    failure only if the loop gets to it: [allTensors] answers [false]
    when a tensor before the dictionary fails [pred], and [anyTensors]
    answers [true] when a tensor before it satisfies [pred]; otherwise
    both raise, whatever comes after the dictionary. *)
Theorem allTensors_anyTensors_at_dict pre d post (pred : Tensor -> bool) :
  Forall (fun v => isGenericDict v = false) pre ->
  allTensors (pre ++ IVGenericDict d :: post) pred
  = (if forallb pred (tensors_of pre)
     then Err (InternalAssert "No operators can accept GenericDict") else Ok false)
  /\ anyTensors (pre ++ IVGenericDict d :: post) pred
     = (if existsb pred (tensors_of pre)
        then Ok true else Err (InternalAssert "No operators can accept GenericDict")).
Proof.
  intros H. unfold anyTensors. rewrite !allTensors_app by done. simpl.
  rewrite forallb_negb_existsb.
  split; [done|by destruct (existsb _ _)].
Qed.

(** ** [isInplaceOp] and the mutation check *)

(** X15. [isInplaceOp] accepts exactly the schemas with one return,
    whose first argument is written to, whose other arguments carry no
    alias annotation at all, and whose return is annotated as written to.
    The test [is_mutable], which comes first, follows from the second of
    these; what it does is keep [arguments().begin()] from being
    dereferenced on a schema without arguments. *)
Theorem isInplaceOp_iff schema :
  isInplaceOp schema = true
  <-> exists first others r,
        arguments schema = first :: others /\ returns schema = [r]
        /\ writes first = true
        /\ Forall (fun a => alias_info a = None) others
        /\ writes r = true.
Proof.
  unfold isInplaceOp, is_mutable. split.
  - destruct (existsb writes (arguments schema)) eqn:Hm; simpl; [|done].
    destruct (returns schema) as [|r [|r' rs]] eqn:Hr; simpl; try done.
    destruct (arguments schema) as [|first others] eqn:Ha; [done|].
    destruct (writes first) eqn:Hw; simpl; [|done].
    destruct (existsb _ others) eqn:Hex; [done|].
    intros Hret. exists first, others, r. repeat split; try done.
    apply Forall_forall. intros a Hin.
    destruct (alias_info a) as [ai|] eqn:Hai; [|done].
    assert (existsb (fun a => bool_decide (is_Some (alias_info a))) others = true);
      [|congruence].
    apply existsb_exists. exists a. split; [by apply list_elem_of_In|].
    apply bool_decide_eq_true_2. by rewrite Hai.
  - intros (first & others & r & -> & -> & Hw & Hothers & Hr). simpl.
    rewrite Hw. simpl.
    assert (existsb (fun a => bool_decide (is_Some (alias_info a))) others = false) as ->;
      [|done].
    induction Hothers as [|a others Ha _ IH]; [done|]. simpl. rewrite IH, Ha.
    by rewrite bool_decide_eq_false_2 by (by intros []).
Qed.

Section MutationCheck.
Context {Ext : Type}.
Implicit Types s : @State Ext.

(** X16. The mutation check raises only where it is meant to: when
    [checkForInvalidMutationOnCaptures] throws, the top layer is of kind
    [Autograd] and the operation is one that [isInplaceOp] accepts; and it
    throws with the thread state untouched.  So no operation that writes
    to another argument than the first (an [out=] variant) or that has no
    single written return is ever rejected, whatever its arguments are. *)
Theorem mutation_check_raises_only_for_inplace op s e s' :
  checkForInvalidMutationOnCaptures op (dynamicLayerStack s) s = Throw e s' ->
  s' = s
  /\ isInplaceOp op = true
  /\ exists top, last (dynamicLayerStack s) = Some top /\ key top = Autograd.
Proof.
  unfold checkForInvalidMutationOnCaptures.
  destruct (last (dynamicLayerStack s)) as [top|] eqn:Hl; [|done].
  destruct (decide (key top = Autograd)) as [Hk|Hk].
  2:{ by rewrite bool_decide_eq_false_2 by done. }
  rewrite bool_decide_eq_true_2 by done. simpl.
  destruct (isInplaceOp op) eqn:Hi; simpl; [|done].
  unfold bind, gets, lift_res, ret, throw.
  destruct (jit_last (stack s) (length (arguments op))) as [[|arg0 rest]|]; try done.
  intros H. assert (s' = s) as ->.
  { destruct arg0 as [|t|n|b|ty es|d]; simpl in H; try by inversion H.
    destruct (maybeGetTensorWrapper (unwrapIfDead s t)) as [[[v l] h]|];
      [|by inversion H].
    destruct (wrapper_level (life_cells s) l h) as [lv|]; [|by inversion H].
    destruct (lv =? layerId top); by inversion H. }
  split; [done|]. split; [done|]. by exists top.
Qed.

End MutationCheck.

(** ** What the fallbacks leave behind *)

Lemma ks_guard_round_trip e x :
  ks_sub (ks_or e (ks_sub x e)) (ks_sub x e) = e.
Proof.
  unfold ks_sub, ks_or. apply Z.bits_inj'. intros n Hn.
  rewrite !Z.ldiff_spec, !Z.lor_spec, !Z.ldiff_spec.
  by destruct (Z.testbit e n), (Z.testbit x n).
Qed.

Section Related.
Context {Ext : Type}.
Implicit Types s : @State Ext.

(** The calls that only read the thread state, or only write the boxed
    stack and what lies behind the tensors, are related to their start by
    every relation that these writes respect. *)
Variable R : @State Ext -> @State Ext -> Prop.
Hypothesis R_refl : forall s, R s s.
Hypothesis R_trans : forall s1 s2 s3, R s1 s2 -> R s2 s3 -> R s1 s3.
Hypothesis R_stack : forall s st, R s (set_stack st s).
Hypothesis R_ext : forall s x, R s (set_ext x s).

Lemma rel_at_bind {A B} (m : M (@State Ext) A) (k : A -> M (@State Ext) B) s :
  rel_at R m s -> (forall a s1, m s = Ret a s1 -> rel_at R (k a) s1) ->
  rel_at R (bind m k) s.
Proof.
  unfold rel_at, bind. intros Hm Hk. destruct (m s) as [a s1|e s1| |]; try done.
  specialize (Hk a s1 eq_refl). destruct (k a s1); try done; by eapply R_trans.
Qed.

Lemma rel_at_ret {A} (a : A) s : rel_at R (ret a) s.
Proof. apply R_refl. Qed.

Lemma rel_at_throw {A} e s : rel_at R (@throw (@State Ext) A e) s.
Proof. apply R_refl. Qed.

Lemma rel_at_ub {A} s : rel_at R (@undefined_behaviour (@State Ext) A) s.
Proof. done. Qed.

Lemma rel_at_gets {A} (f : @State Ext -> A) s : rel_at R (gets f) s.
Proof. apply R_refl. Qed.

Lemma rel_at_lift_res {A} (r : Res A) s : rel_at R (lift_res r) s.
Proof. destruct r; apply R_refl. Qed.

Lemma rel_at_assert c w s : rel_at R (@TORCH_INTERNAL_ASSERT (@State Ext) c w) s.
Proof. destruct c; apply R_refl. Qed.

Lemma rel_at_on_stack {A} (m : M (list IValue) A) s : rel_at R (on_stack m) s.
Proof. unfold rel_at, on_stack. destruct (m (stack s)); try done; apply R_stack. Qed.

Lemma rel_at_sanityCheckStack op s : rel_at R (sanityCheckStack op) s.
Proof.
  unfold sanityCheckStack. apply rel_at_bind; [apply rel_at_gets|].
  intros st s1 _. apply rel_at_on_stack.
Qed.

Lemma rel_at_checkForInvalidMutationOnCaptures op dls s :
  rel_at R (checkForInvalidMutationOnCaptures op dls) s.
Proof.
  unfold checkForInvalidMutationOnCaptures.
  destruct (last dls) as [back|]; [|apply rel_at_ub].
  destruct (negb _); [apply rel_at_ret|]. destruct (negb _); [apply rel_at_ret|].
  apply rel_at_bind; [apply rel_at_gets|]. intros st s1 _.
  destruct (jit_last st _) as [[|arg0 rest]|]; try apply rel_at_ub.
  apply rel_at_bind; [apply rel_at_lift_res|]. intros t s2 _.
  apply rel_at_bind; [apply rel_at_gets|]. intros s0 s3 _.
  destruct (maybeGetTensorWrapper _) as [[[v l] h]|]; [|apply rel_at_throw].
  destruct (wrapper_level _ _ _) as [lv|]; [|apply rel_at_throw].
  destruct (lv =? _); [apply rel_at_ret|apply rel_at_throw].
Qed.

Lemma rel_at_front_transform_arguments op s : rel_at R (front_transform_arguments op) s.
Proof.
  unfold front_transform_arguments. apply rel_at_bind; [apply rel_at_gets|].
  intros s0 s1 _. apply rel_at_on_stack.
Qed.

Lemma rel_at_front_include_exclude op layer s :
  rel_at R (front_include_exclude op layer) s.
Proof.
  unfold front_include_exclude. apply rel_at_bind; [apply rel_at_lift_res|].
  intros ie s1 _. destruct (decide _); [|apply rel_at_ret].
  apply rel_at_bind; [apply rel_at_gets|]. intros s0 s2 _.
  destruct (jit_last _ _); [|apply rel_at_ub].
  apply rel_at_bind; [apply rel_at_lift_res|]. intros any s3 _. apply rel_at_ret.
Qed.

Lemma rel_at_back_copy_and_unwrap op lvl s : rel_at R (back_copy_and_unwrap op lvl) s.
Proof.
  unfold back_copy_and_unwrap. apply rel_at_bind; [apply rel_at_gets|].
  intros st s1 _. destruct (jit_last st _); [|apply rel_at_ub].
  apply rel_at_bind; [apply R_stack|]. intros _ s2 _.
  apply rel_at_bind; [apply rel_at_gets|]. intros s0 s3 _. apply rel_at_on_stack.
Qed.

Lemma rel_at_back_wrap_refresh_erase refreshMetadata op lvl s :
  rel_at R (back_wrap_refresh_erase refreshMetadata op lvl) s.
Proof.
  unfold back_wrap_refresh_erase. apply rel_at_bind; [apply rel_at_gets|].
  intros s0 s1 _. apply rel_at_bind; [apply rel_at_on_stack|]. intros _ s2 _.
  apply rel_at_bind; [apply rel_at_gets|]. intros st s3 _.
  destruct (_ <? _)%nat; [apply rel_at_ub|].
  apply rel_at_bind; [apply R_ext|]. intros _ s4 _. apply R_stack.
Qed.

End Related.

Section FallbackKeySets.
Context {Ext : Type}.
Implicit Types s : @State Ext.
Variable callBoxed : FunctionSchema -> M (@State Ext) unit.
Variable refreshMetadata : Tensor -> Ext -> Ext.

Lemma same_keyset_refl s : same_keyset s s.
Proof. done. Qed.

Lemma same_keyset_trans s1 s2 s3 : same_keyset s1 s2 -> same_keyset s2 s3 -> same_keyset s1 s3.
Proof. unfold same_keyset. congruence. Qed.

Lemma same_keyset_stack s st : same_keyset s (set_stack st s).
Proof. done. Qed.

Lemma same_keyset_ext s (x : Ext) : same_keyset s (set_ext x s).
Proof. done. Qed.

(** The reset guard forces back the key set it found, whatever its scope
    did to the key set. *)
Lemma with_reset_restores {A} (body : M (@State Ext) A) s :
  rel_at same_keyset (with_resetFunctorchLocalDispatchKeySetRAII body) s.
Proof.
  unfold rel_at. destruct (prev_local_keyset_ s) as [prev|] eqn:Hp.
  - rewrite (with_reset_Some _ _ _ Hp). by destruct (body _).
  - by rewrite with_reset_None.
Qed.

(** The exclude and include guards take out again exactly the keys they
    put in. *)
Lemma with_ExcludeDispatchKeyGuard_keeps {A} exclude (body : M (@State Ext) A) :
  keeps_keyset body -> keeps_keyset (with_ExcludeDispatchKeyGuard exclude body).
Proof.
  intros Hb s. unfold rel_at. rewrite with_ExcludeDispatchKeyGuard_eq.
  specialize (Hb (enter_exclude exclude s)). unfold rel_at, same_keyset in *.
  unfold enter_exclude, leave_exclude, set_excluded in *.
  destruct (body _) as [a s1|e s1| |]; simpl; try done;
    (destruct (negb (ks_empty _)); [|done]); simpl in *; rewrite Hb; simpl;
    rewrite ks_guard_round_trip; by destruct (tls_local_dispatch_key_set s).
Qed.

Lemma with_IncludeDispatchKeyGuard_keeps {A} include (body : M (@State Ext) A) :
  keeps_keyset body -> keeps_keyset (with_IncludeDispatchKeyGuard include body).
Proof.
  intros Hb s. unfold rel_at. rewrite with_IncludeDispatchKeyGuard_eq.
  specialize (Hb (enter_include include s)). unfold rel_at, same_keyset in *.
  unfold enter_include, leave_include, set_included in *.
  destruct (body _) as [a s1|e s1| |]; simpl; try done;
    (destruct (negb (ks_empty _)); [|done]); simpl in *; rewrite Hb; simpl;
    rewrite ks_guard_round_trip; by destruct (tls_local_dispatch_key_set s).
Qed.

(** X17. The front fallback gives the key set back.  With an empty layer
    stack the key set after the fallback, on return and on exception, is
    the one of before, whatever the operation did to it; with a layer on
    the stack the exclude and include guards undo what they added, so the
    key set is the one of before whenever the re-dispatched operation
    leaves the key set as it finds it. *)
Theorem front_fallback_restores_keyset op :
  (forall s, dynamicLayerStack s = [] ->
     match dynamicLayerFrontFallback callBoxed op s with
     | Ret _ s' | Throw _ s' =>
         tls_local_dispatch_key_set s' = tls_local_dispatch_key_set s
     | _ => True
     end)
  /\ (keeps_keyset (callBoxed op) ->
      forall s,
        match dynamicLayerFrontFallback callBoxed op s with
        | Ret _ s' | Throw _ s' =>
            tls_local_dispatch_key_set s' = tls_local_dispatch_key_set s
        | _ => True
        end).
Proof.
  assert (Hb : forall {A B} (m : M (@State Ext) A) (k : A -> M (@State Ext) B) s,
            rel_at same_keyset m s ->
            (forall a s1, m s = Ret a s1 -> rel_at same_keyset (k a) s1) ->
            rel_at same_keyset (bind m k) s).
  { intros A B m k s. apply rel_at_bind. apply same_keyset_trans. }
  split.
  - intros s He.
    change (rel_at same_keyset (dynamicLayerFrontFallback callBoxed op) s).
    unfold dynamicLayerFrontFallback. apply Hb; [done|]. intros dls s1 [= <- <-].
    rewrite He. simpl. apply Hb; [|intros; apply with_reset_restores].
    apply rel_at_sanityCheckStack; [apply same_keyset_refl|apply same_keyset_trans|done].
  - intros Hc s.
    change (rel_at same_keyset (dynamicLayerFrontFallback callBoxed op) s).
    unfold dynamicLayerFrontFallback. apply Hb; [done|]. intros dls s1 [= <- <-].
    destruct (length (dynamicLayerStack s) =? 0)%nat.
    { apply Hb; [|intros; apply with_reset_restores].
      apply rel_at_sanityCheckStack; [apply same_keyset_refl|apply same_keyset_trans|done]. }
    apply Hb.
    { apply rel_at_checkForInvalidMutationOnCaptures;
        [apply same_keyset_refl|apply same_keyset_trans]. }
    intros _ s2 _. apply Hb.
    { apply rel_at_front_transform_arguments;
        [apply same_keyset_refl|apply same_keyset_trans|done]. }
    intros _ s3 _. destruct (last (dynamicLayerStack s)) as [layer|]; [|done].
    apply Hb.
    { apply rel_at_front_include_exclude;
        [apply same_keyset_refl|apply same_keyset_trans]. }
    intros ie s4 _.
    by apply with_ExcludeDispatchKeyGuard_keeps, with_IncludeDispatchKeyGuard_keeps.
Qed.

Lemma pop_state_tls s rest top :
  dynamicLayerStack s = rest ++ [top] ->
  tls_local_dispatch_key_set (pop_state s)
  = if bool_decide (rest = []) then mode_keys false (tls_local_dispatch_key_set s)
    else tls_local_dispatch_key_set s.
Proof.
  intros Hs. unfold pop_state. rewrite Hs, removelast_snoc.
  destruct rest; simpl; [by rewrite setFrontBack_eq|done].
Qed.

Lemma push_state_tls dl s :
  tls_local_dispatch_key_set (push_state dl s)
  = if bool_decide (dynamicLayerStack s = []) then mode_keys true (tls_local_dispatch_key_set s)
    else tls_local_dispatch_key_set s.
Proof.
  unfold push_state. destruct (dynamicLayerStack s); simpl; [by rewrite setFrontBack_eq|done].
Qed.

Lemma push_state_grad dl s : grad_mode (push_state dl s) = grad_mode s.
Proof.
  unfold push_state. destruct (_ =? _)%nat; [by rewrite setFrontBack_eq|done].
Qed.

Lemma same_keyset_and_grad_refl g s : same_keyset_and_grad g s s.
Proof. done. Qed.

Lemma same_keyset_and_grad_trans g s1 s2 s3 :
  same_keyset_and_grad g s1 s2 -> same_keyset_and_grad g s2 s3 ->
  same_keyset_and_grad g s1 s3.
Proof.
  unfold same_keyset_and_grad. intros [H1 G1] [H2 G2].
  split; [congruence|]. intros Hg. rewrite G2, G1; done.
Qed.

(** The scope of the reset guard in the back fallback: the key set is
    forced back, and so is the grad mode when the scope forced it off. *)
Lemma back_scope_restores op (ia : bool) pgm s :
  rel_at (same_keyset_and_grad (ia && bool_decide (pgm = Some false)))
    (with_resetFunctorchLocalDispatchKeySetRAII
       (run modify (setDynamicLayerFrontBackKeysIncluded true);
        if ia && bool_decide (pgm = Some false)
        then with_AutoGradMode false (callBoxed op) else callBoxed op)) s.
Proof.
  unfold rel_at. destruct (prev_local_keyset_ s) as [prev|] eqn:Hp.
  2:{ by rewrite with_reset_None. }
  rewrite (with_reset_Some _ _ _ Hp). unfold bind at 1. unfold modify at 1.
  destruct (ia && bool_decide (pgm = Some false)).
  - unfold with_AutoGradMode, bind, gets, modify, with_dtor.
    rewrite setFrontBack_eq. simpl.
    destruct (callBoxed op _) as [a s1|e s1| |]; simpl; done.
  - destruct (callBoxed op _) as [a s1|e s1| |]; simpl; done.
Qed.

Lemma back_redispatch_restores op (ia : bool) pgm s rest top :
  dynamicLayerStack s = rest ++ [top] ->
  layerId top = 1 + Z.of_nat (length rest) ->
  (rest = [] ->
   ks_has (included_ (tls_local_dispatch_key_set s)) kDynamicLayerFrontModeKey = true
   /\ ks_has (included_ (tls_local_dispatch_key_set s)) kDynamicLayerBackModeKey = true) ->
  rel_at (same_keyset_and_grad (ia && bool_decide (pgm = Some false)))
    (back_redispatch callBoxed op ia pgm) s.
Proof.
  intros Hs Hid Hinc. unfold rel_at, back_redispatch, with_WithoutTop. unfold bind at 1.
  destruct (decide (key top = Undefined)) as [Hk|Hk].
  { by rewrite (popDynamicLayer_undefined_key _ _ _ Hs Hk). }
  rewrite (popDynamicLayer_ok _ _ _ Hs Hk). unfold with_dtor.
  pose proof (back_scope_restores op ia pgm (pop_state s)) as Hsc. unfold rel_at in Hsc.
  set (g := ia && bool_decide (pgm = Some false)) in *.
  assert (Hpush : forall s2 s3 i,
            same_keyset_and_grad g (pop_state s) s2 ->
            pushDynamicLayer top s2 = Ret i s3 -> same_keyset_and_grad g s s3).
  { intros s2 s3 i [Ht Hg] Hp. apply pushDynamicLayer_Ret in Hp as (Hi & Hl & ->).
    split.
    - rewrite push_state_tls, Ht, (pop_state_tls _ _ _ Hs).
      assert (Hlen : length (dynamicLayerStack s2) = length rest) by lia.
      destruct rest as [|l ls].
      + destruct (dynamicLayerStack s2); [|done]. simpl.
        destruct (Hinc eq_refl). by apply mode_keys_off_on.
      + by destruct (dynamicLayerStack s2).
    - intros Hgt. rewrite push_state_grad, (Hg Hgt). apply pop_state_grad. }
  destruct (with_resetFunctorchLocalDispatchKeySetRAII _ (pop_state s))
    as [a s2|e s2| |]; try done; unfold bind, ret;
    destruct (pushDynamicLayer top s2) as [i s3|e' s3| |] eqn:Hp; try done;
    by eapply Hpush.
Qed.

(** X18. The back fallback gives the key set back, whatever the
    re-dispatched operation does to it: under a top layer whose level is
    the depth of the stack (and, when it is the only layer, with both mode
    keys included, as they are whenever the fallback is reached), the key
    set after the fallback, on return and on exception, is the one of
    before; and when grad mode was forced off for the call, the grad mode
    is the one of before as well. *)
Theorem back_fallback_restores_keyset_and_grad_mode op s rest top :
  dynamicLayerStack s = rest ++ [top] ->
  layerId top = 1 + Z.of_nat (length rest) ->
  (rest = [] ->
   ks_has (included_ (tls_local_dispatch_key_set s)) kDynamicLayerFrontModeKey = true
   /\ ks_has (included_ (tls_local_dispatch_key_set s)) kDynamicLayerBackModeKey = true) ->
  match dynamicLayerBackFallback callBoxed refreshMetadata op s with
  | Ret _ s' | Throw _ s' =>
      tls_local_dispatch_key_set s' = tls_local_dispatch_key_set s
      /\ (key top = Autograd -> prevGradMode top = Some false ->
          grad_mode s' = grad_mode s)
  | _ => True
  end.
Proof.
  intros Hs Hid Hinc.
  set (g := bool_decide (key top = Autograd) && bool_decide (prevGradMode top = Some false)).
  assert (Hgoal : rel_at (same_keyset_and_grad g)
                    (dynamicLayerBackFallback callBoxed refreshMetadata op) s).
  2:{ unfold rel_at, same_keyset_and_grad in Hgoal.
      destruct (dynamicLayerBackFallback _ _ _ _) as [a s'|e s'| |]; try done;
        (destruct Hgoal as [Ht Hg]; split; [done|]; intros Hk Hp; apply Hg; unfold g;
         by rewrite !bool_decide_eq_true_2). }
  assert (Hst : forall s0 st, same_keyset_and_grad g s0 (set_stack st s0)) by done.
  assert (Hex : forall s0 (x : Ext), same_keyset_and_grad g s0 (set_ext x s0)) by done.
  pose proof (same_keyset_and_grad_refl g) as Hrefl.
  pose proof (same_keyset_and_grad_trans g) as Htrans.
  unfold dynamicLayerBackFallback.
  apply (rel_at_bind _ Htrans); [apply Hrefl|]. intros dls s1 [= <- <-].
  rewrite Hs, last_snoc.
  apply (rel_at_bind _ Htrans).
  { destruct (bool_decide _); [by apply rel_at_assert|by apply rel_at_ret]. }
  intros [] s1 H1.
  assert (s1 = s) as ->.
  { revert H1. unfold TORCH_INTERNAL_ASSERT, ret, throw.
    destruct (bool_decide (key top = Autograd));
      [destruct (bool_decide (is_Some (prevGradMode top)))|]; simpl; congruence. }
  clear H1.
  pose proof (preserves_layers_back_copy_and_unwrap (Ext:=Ext) op (layerId top) s) as Hpl.
  pose proof (rel_at_back_copy_and_unwrap _ Hrefl Htrans Hst op (layerId top) s) as Hrc.
  apply (rel_at_bind _ Htrans).
  { destruct (bool_decide _); [done|by apply rel_at_ret]. }
  intros [] s2 H2.
  assert (Hs2 : dynamicLayerStack s2 = rest ++ [top]
                /\ tls_local_dispatch_key_set s2 = tls_local_dispatch_key_set s).
  { destruct (bool_decide (key top = Autograd)).
    - unfold rel_at in Hrc. rewrite H2 in Hpl, Hrc. split; [congruence|apply Hrc].
    - unfold ret in H2. by assert (s2 = s) as -> by congruence. }
  destruct Hs2 as [Hs2 Ht2].
  apply (rel_at_bind _ Htrans).
  { apply (back_redispatch_restores _ _ _ _ rest top); [done..|]. by rewrite Ht2. }
  intros _ s3 _.
  destruct (bool_decide _); [|by apply rel_at_ret].
  by apply rel_at_back_wrap_refresh_erase.
Qed.

End FallbackKeySets.

Section FrontAutograd.
Context {Ext : Type}.
Implicit Types s : @State Ext.
Variable callBoxed : FunctionSchema -> M (@State Ext) unit.

(** X19. The front fallback under a top layer of kind [Autograd], once
    the mutation check has passed: the operation is re-dispatched on the
    normalized arguments with the front-mode key, the grad-wrapper key and
    the batching key excluded on top of what was excluded before (so not
    the back-mode key, the autograd keys or [ADInplaceOrView]), nothing is
    added to the included set, the layer stack is the same, and leaving
    the scope gives the key set of before when the operation kept the one
    it was called with. *)
Theorem front_fallback_autograd_redispatch op s top base args :
  last (dynamicLayerStack s) = Some top -> key top = Autograd ->
  layerId top = Z.of_nat (length (dynamicLayerStack s)) ->
  stack s = base ++ args -> length args = length (arguments op) ->
  checkForInvalidMutationOnCaptures op (dynamicLayerStack s) s = Ret tt s ->
  Forall (value_normalizable s top) args ->
  exists s_call leave,
    dynamicLayerFrontFallback callBoxed op s = map_outcome leave (callBoxed op s_call)
    /\ stack s_call = base ++ (map_ivalue (spec_normalize s top) <$> args)
    /\ dynamicLayerStack s_call = dynamicLayerStack s
    /\ included_ (tls_local_dispatch_key_set s_call)
       = included_ (tls_local_dispatch_key_set s)
    /\ (forall k,
          ks_has (excluded_ (tls_local_dispatch_key_set s_call)) k
          = ks_has (excluded_ (tls_local_dispatch_key_set s)) k
            || bool_decide (k = kDynamicLayerFrontModeKey \/ k = kGradWrapperKey
                            \/ k = kBatchedKey))
    /\ (forall s2,
          tls_local_dispatch_key_set s2 = tls_local_dispatch_key_set s_call ->
          tls_local_dispatch_key_set (leave s2) = tls_local_dispatch_key_set s).
Proof.
  intros Htop Hkey Hlvl Hst Hlen Hcheck Hall.
  set (args' := map_ivalue (spec_normalize s top) <$> args).
  set (exclude := ks_remove
                    (ks_sub (ks_remove all_dynlayer_keyset kDynamicLayerBackModeKey)
                       autograd_dispatch_keyset) ADInplaceOrView).
  assert (Hr : getIncludeExcludeSetsFor Autograd = Ok (0, exclude)) by reflexivity.
  assert (Hex : forall k,
            ks_has exclude k
            = bool_decide (k = kDynamicLayerFrontModeKey \/ k = kGradWrapperKey
                           \/ k = kBatchedKey))
    by (intros k; destruct k; vm_compute; reflexivity).
  clearbody exclude.
  set (s1 := set_stack (base ++ args') s).
  exists (enter_exclude exclude s1), (leave_exclude exclude s1).
  split; [|split; [|split; [|split; [|split]]]].
  - unfold dynamicLayerFrontFallback. unfold bind at 1. unfold gets at 1.
    destruct (dynamicLayerStack s) as [|l0 dls] eqn:E; [done|]. simpl.
    rewrite <- E in *. unfold bind at 1. rewrite Hcheck.
    unfold bind at 1.
    rewrite (front_transform_arguments_ok op s top base args Htop Hlvl Hst Hlen Hall).
    fold args'. fold s1. rewrite Htop.
    unfold bind at 1. unfold front_include_exclude. rewrite Hkey, Hr.
    cbv beta iota delta [bind gets id ret lift_res]. simpl fst. simpl snd.
    destruct (decide (Autograd = kBatchedKey)) as [Hd|_]; [discriminate Hd|].
    rewrite with_ExcludeDispatchKeyGuard_eq, with_IncludeDispatchKeyGuard_eq.
    assert (Hinc : forall s0 : @State Ext, enter_include 0 s0 = s0) by done.
    assert (Hlinc : forall s0 s2 : @State Ext, leave_include 0 s0 s2 = s2) by done.
    rewrite Hinc.
    by destruct (callBoxed op _) as [a s2|e s2| |]; unfold map_outcome; rewrite ?Hlinc.
  - by rewrite enter_exclude_stack.
  - by rewrite enter_exclude_layers.
  - unfold enter_exclude. by destruct (negb _).
  - intros k. by rewrite enter_exclude_has, Hex.
  - intros s2 Hs2. unfold leave_exclude, enter_exclude, set_excluded in *.
    destruct (negb (ks_empty _)); [|done]. simpl in *. rewrite Hs2. simpl.
    rewrite ks_guard_round_trip. by destruct (tls_local_dispatch_key_set s).
Qed.

End FrontAutograd.

Section BackException.
Context {Ext : Type}.
Implicit Types s : @State Ext.
Variable callBoxed : FunctionSchema -> M (@State Ext) unit.
Variable refreshMetadata : Tensor -> Ext -> Ext.

(** X20. The back fallback on the exception path, under a top layer of
    kind [Autograd]: when the re-dispatched operation throws, the
    fallback passes the exception on with the top layer pushed back, but
    steps 4 to 6 do not run: nothing is wrapped, no metadata is
    refreshed, and the copy of the arguments that step 1 pushed is not
    erased.  The boxed stack is left as the operation left it, so an
    operation that throws before it touches the stack leaves the
    arguments followed by their unwrapped copy. *)
Theorem back_fallback_exception_keeps_copy op s rest top base args g prev e s2 :
  dynamicLayerStack s = rest ++ [top] -> key top = Autograd ->
  layerId top = 1 + Z.of_nat (length rest) -> prevGradMode top = Some g ->
  prev_local_keyset_ s = Some prev ->
  stack s = base ++ args -> length args = length (arguments op) ->
  Forall (value_unwrappable s (layerId top)) args ->
  let unwrapped := map_ivalue (spec_unwrap_level s (layerId top)) <$> args in
  let sc := back_call_state (set_stack (base ++ args ++ unwrapped) s) prev (negb g) in
  callBoxed op sc = Throw e s2 ->
  dynamicLayerStack s2 = rest -> (rest = [] -> is_Some (prev_local_keyset_ s2)) ->
  exists s',
    dynamicLayerBackFallback callBoxed refreshMetadata op s = Throw e s'
    /\ dynamicLayerStack s' = dynamicLayerStack s
    /\ stack s' = stack s2
    /\ ext s' = ext s2
    /\ (stack s2 = stack sc -> stack s' = base ++ args ++ unwrapped).
Proof.
  intros Hs Hkey Hlvl Hg Hprev Hst Hlen Hall unwrapped sc Hcall Hd2 Hp2.
  set (s1 := set_stack (base ++ args ++ unwrapped) s) in *.
  assert (Hs1 : dynamicLayerStack s1 = rest ++ [top]) by exact Hs.
  assert (Hk : key top <> Undefined) by (rewrite Hkey; discriminate).
  set (s3 := back_after_call s1 (negb g) s2).
  assert (Hd3 : dynamicLayerStack s3 = rest) by (unfold s3, back_after_call; by destruct g).
  assert (Hq3 : prev_local_keyset_ s3 = prev_local_keyset_ s2)
    by (unfold s3, back_after_call; by destruct g).
  assert (Hj3 : stack s3 = stack s2) by (unfold s3, back_after_call; by destruct g).
  assert (He3 : ext s3 = ext s2) by (unfold s3, back_after_call; by destruct g).
  set (s4 := push_state top s3).
  assert (Hpush : pushDynamicLayer top s3 = Ret (layerId top) s4).
  { apply pushDynamicLayer_ok; rewrite ?Hd3, ?Hq3; [done|]. intros E. by apply Hp2. }
  exists s4. split; [|split; [|split; [|split]]].
  - unfold dynamicLayerBackFallback. unfold bind at 1. unfold gets at 1.
    rewrite Hs, last_snoc. rewrite Hkey, Hg. simpl.
    unfold bind at 1. unfold TORCH_INTERNAL_ASSERT, ret.
    unfold bind at 1.
    rewrite (back_copy_and_unwrap_ok op s (layerId top) base args Hst Hlen Hall).
    fold unwrapped. fold s1. unfold bind at 1.
    rewrite (back_redispatch_eq callBoxed op true (Some g) s1 rest top prev Hs1 Hk Hprev).
    replace (true && bool_decide (Some g = Some false)) with (negb g) by (by destruct g).
    fold sc. rewrite Hcall. unfold map_outcome, repush. fold s3. by rewrite Hpush.
  - unfold s4. by rewrite push_state_stack, Hd3, Hs.
  - unfold s4. by rewrite push_state_jit, Hj3.
  - unfold s4. by rewrite push_state_ext, He3.
  - intros Hsame. unfold s4. rewrite push_state_jit, Hj3, Hsame.
    unfold sc. by rewrite back_call_state_jit.
Qed.

End BackException.

Section OtherKinds.
Context {Ext : Type}.
Implicit Types s : @State Ext.
Variable callBoxed : FunctionSchema -> M (@State Ext) unit.

(** The argument pass under a top layer that is not [Autograd] never
    throws anything but its own internal assertions, and it stays inside
    the stack. *)
Lemma front_transform_arguments_other_kind op s top :
  last (dynamicLayerStack s) = Some top -> key top <> Autograd ->
  (exists st, front_transform_arguments op s = Ret tt (set_stack st s))
  \/ (exists w st, front_transform_arguments op s
                   = Throw (InternalAssert w) (set_stack st s)).
Proof.
  intros Htop Hk. unfold front_transform_arguments, bind, gets, on_stack. simpl.
  set (func := maybeTransformGradWrappers s).
  assert (Hf : forall t, exists t', func t = Ok t').
  { intros t. unfold func, maybeTransformGradWrappers, materializeGradWrappers.
    destruct (negb (defined _)); [eauto|]. rewrite Htop.
    rewrite bool_decide_eq_false_2 by done. eauto. }
  set (b := Z.of_nat (length (stack s)) - Z.of_nat (length (arguments op))).
  pose proof (foreachTensorInplace_total func b (Z.of_nat (length (stack s))) (stack s) Hf)
    as Ht.
  pose proof (foreachTensorInplace_frame func b (Z.of_nat (length (stack s))) (stack s))
    as Hfr.
  destruct (foreachTensorInplace _ _ _ _) as [[] st|e st| |]; [| |done|lia].
  - left. by exists st.
  - right. destruct Ht as [w ->]. by exists w, st.
Qed.

(** X21. A layer of another kind than [Autograd] and [kBatchedKey] can be
    entered ([initAndPushDynamicLayer] only rejects [Undefined] and
    [Batched]), but no operation gets through the front fallback under
    it: the fallback fails with an internal assertion, at the latest the
    one of [getIncludeExcludeSetsFor], without calling the operation, and
    it leaves layer stack and key set as they were. *)
Theorem front_fallback_rejects_other_kinds op s top :
  last (dynamicLayerStack s) = Some top ->
  key top <> Autograd -> key top <> kBatchedKey ->
  exists w s',
    dynamicLayerFrontFallback callBoxed op s = Throw (InternalAssert w) s'
    /\ dynamicLayerStack s' = dynamicLayerStack s
    /\ tls_local_dispatch_key_set s' = tls_local_dispatch_key_set s.
Proof.
  intros Htop Hk Hb.
  assert (Hne : (length (dynamicLayerStack s) =? 0)%nat = false).
  { destruct (dynamicLayerStack s); [discriminate Htop|done]. }
  unfold dynamicLayerFrontFallback. unfold bind at 1. unfold gets at 1. rewrite Hne.
  unfold bind at 1.
  rewrite (checkForInvalidMutationOnCaptures_other_kind op s top Htop Hk).
  unfold bind at 1.
  destruct (front_transform_arguments_other_kind op s top Htop Hk)
    as [[st ->]|(w & st & ->)].
  - rewrite Htop. unfold bind at 1. unfold front_include_exclude.
    unfold getIncludeExcludeSetsFor.
    destruct (decide (key top = Autograd)) as [E|_]; [done|].
    destruct (decide (key top = kBatchedKey)) as [E|_]; [done|].
    unfold bind, lift_res, throw. by exists "false"%string, (set_stack st s).
  - by exists w, (set_stack st s).
Qed.

(** X22. The front fallback keeps the layer stack: whenever the
    re-dispatched operation leaves the layer stack as it finds it, so does
    [dynamicLayerFrontFallback], on return and on exception, with and
    without a layer on the stack. *)
Theorem front_fallback_preserves_layers op :
  preserves_layers (Ext:=Ext) (callBoxed op) ->
  preserves_layers (Ext:=Ext) (dynamicLayerFrontFallback callBoxed op).
Proof.
  intros Hc.
  set (R := fun s s' : @State Ext => dynamicLayerStack s' = dynamicLayerStack s).
  assert (Hrefl : forall s, R s s) by done.
  assert (Htrans : forall s1 s2 s3, R s1 s2 -> R s2 s3 -> R s1 s3)
    by (unfold R; congruence).
  assert (Hst : forall s st, R s (set_stack st s)) by done.
  assert (Hgoal : forall s, rel_at R (dynamicLayerFrontFallback callBoxed op) s).
  2:{ intros s. specialize (Hgoal s). unfold rel_at, R in Hgoal.
      by destruct (dynamicLayerFrontFallback callBoxed op s). }
  intros s. unfold dynamicLayerFrontFallback.
  apply (rel_at_bind _ Htrans); [apply Hrefl|]. intros dls s1 [= <- <-].
  destruct (length (dynamicLayerStack s) =? 0)%nat.
  { apply (rel_at_bind _ Htrans); [by apply rel_at_sanityCheckStack|]. intros _ s1 _.
    pose proof (preserves_layers_with_reset (callBoxed op) Hc s1) as Hr.
    unfold rel_at, R. by destruct (with_resetFunctorchLocalDispatchKeySetRAII _ s1). }
  apply (rel_at_bind _ Htrans); [by apply rel_at_checkForInvalidMutationOnCaptures|].
  intros _ s2 _.
  apply (rel_at_bind _ Htrans); [by apply rel_at_front_transform_arguments|].
  intros _ s3 _. destruct (last (dynamicLayerStack s)) as [layer|]; [|done].
  apply (rel_at_bind _ Htrans); [by apply rel_at_front_include_exclude|].
  intros ie s4 _. unfold rel_at, R.
  rewrite with_ExcludeDispatchKeyGuard_eq, with_IncludeDispatchKeyGuard_eq.
  specialize (Hc (enter_include (fst ie) (enter_exclude (snd ie) s4))).
  rewrite enter_include_layers, enter_exclude_layers in Hc.
  destruct (callBoxed op _) as [a s5|e s5| |]; simpl; try done;
    unfold leave_exclude, leave_include, set_excluded, set_included;
    repeat (destruct (negb (ks_empty _)); simpl); done.
Qed.

End OtherKinds.
(** ** The batch rule of [nll_loss_forward] *)

Section MoreLossFacts.
Context {Ext : Type}.
Variable dim : Tensor -> Z.
Variable size : Tensor -> Z -> Res Z.
Variable reshape_dim_into : Z -> Z -> Tensor -> M (@State Ext) Tensor.
Variable reshape_dim_outof : Z -> Z -> Tensor -> M (@State Ext) Tensor.
Variable at_nll_loss_forward :
  Tensor -> Tensor -> option Tensor -> Z -> Z -> M (@State Ext) (Tensor * Tensor).
Variable sum : Tensor -> Z -> M (@State Ext) Tensor.
Variable mean : Tensor -> Z -> M (@State Ext) Tensor.
Variable new_full : Tensor -> Z -> M (@State Ext) Tensor.
Variable slow_fallback : string -> list IValue -> M (@State Ext) (Tensor * Tensor).

Local Notation "'batch_rule'" :=
  (nll_loss_forward_self_target_batch_rule dim size reshape_dim_into reshape_dim_outof
     at_nll_loss_forward sum mean new_full) (only parsing).
Local Notation "'plumbing'" :=
  (nll_loss_forward_plumbing dim size reshape_dim_into reshape_dim_outof
     at_nll_loss_forward sum mean new_full slow_fallback) (only parsing).

(** The rule on present batch dimensions, after the assertion. *)
Lemma batch_rule_unfold self (sb : Z) target (tb : Z) reduction (s : @State Ext) :
  dim self = 3 -> dim target = 2 ->
  batch_rule self (Some sb) target (Some tb) reduction s
  = (if reduction =? Reduction_None then
       do batch_size <- lift_res (size self sb);
       do self_ <- reshape_dim_into sb 0 self;
       do target_ <- reshape_dim_into tb 0 target;
       do result <- at_nll_loss_forward self_ target_ None reduction (-100);
       do output <- reshape_dim_outof 0 batch_size (fst result);
       ret (output, Some 0, snd result, None)
     else if reduction =? Reduction_Sum then
       do batch_size <- lift_res (size self sb);
       do self_ <- reshape_dim_into sb 0 self;
       do target_ <- reshape_dim_into tb 0 target;
       do res <- at_nll_loss_forward self_ target_ None Reduction_None (-100);
       do output <- reshape_dim_outof 0 batch_size (fst res);
       do last_size <- lift_res (size output (-1));
       do total_weight <- new_full self_ last_size;
       do summed <- sum output (-1);
       ret (summed, Some 0, total_weight, None)
     else if reduction =? Reduction_Mean then
       do batch_size <- lift_res (size self sb);
       do self_ <- reshape_dim_into sb 0 self;
       do target_ <- reshape_dim_into tb 0 target;
       do res <- at_nll_loss_forward self_ target_ None Reduction_None (-100);
       do output <- reshape_dim_outof 0 batch_size (fst res);
       do last_size <- lift_res (size output (-1));
       do total_weight <- new_full self_ last_size;
       do averaged <- mean output (-1);
       ret (averaged, Some 0, total_weight, None)
     else throw (InternalAssert "false")) s.
Proof.
  intros H1 H2. unfold nll_loss_forward_self_target_batch_rule.
  unfold bind at 1. unfold TORCH_INTERNAL_ASSERT. rewrite H1, H2. simpl andb. cbv iota.
  unfold ret at 1.
  destruct (reduction =? Reduction_None); [|destruct (reduction =? Reduction_Sum);
    [|destruct (reduction =? Reduction_Mean); [|done]]];
    unfold deref, bind, ret, lift_res;
    destruct (size self sb) as [bs|e]; try done; unfold ret, throw;
    destruct (reshape_dim_into sb 0 self s) as [self_ s1| | |]; try done;
    destruct (reshape_dim_into tb 0 target s1) as [target_ s2| | |]; done.
Qed.

(** What is known when the rule returns. *)
Lemma batch_rule_returns self self_bdim target target_bdim (reduction : Z)
  (s : @State Ext) output b0 total_weight b1 s' :
  batch_rule self self_bdim target target_bdim reduction s
  = Ret (output, b0, total_weight, b1) s' ->
  b0 = Some 0 /\ b1 = None
  /\ dim self = 3 /\ dim target = 2
  /\ (reduction = Reduction_None \/ reduction = Reduction_Mean
      \/ reduction = Reduction_Sum)
  /\ is_Some self_bdim /\ is_Some target_bdim.
Proof.
  rename total_weight into tw. intros H.
  unfold nll_loss_forward_self_target_batch_rule in H.
  unfold bind at 1 in H. unfold TORCH_INTERNAL_ASSERT in H.
  destruct (Z.eqb_spec (dim self) 3) as [H1|]; [|done].
  destruct (Z.eqb_spec (dim target) 2) as [H2|]; [|done].
  simpl andb in H. cbv iota in H. unfold ret at 1 in H.
  assert (Hshape : forall (k : Z -> Tensor -> Tensor -> M (@State Ext)
                                 (Tensor * option Z * Tensor * option Z)),
            (do sb <- deref self_bdim;
             do batch_size <- lift_res (size self sb);
             do sb <- deref self_bdim;
             do self_ <- reshape_dim_into sb 0 self;
             do tb <- deref target_bdim;
             do target_ <- reshape_dim_into tb 0 target;
             k batch_size self_ target_) s = Ret (output, b0, tw, b1) s' ->
            is_Some self_bdim /\ is_Some target_bdim
            /\ exists bs self_ target_ s2,
                 k bs self_ target_ s2 = Ret (output, b0, tw, b1) s').
  { intros k Hk. destruct self_bdim as [sb|]; [|done].
    destruct target_bdim as [tb|].
    - split; [done|]. split; [done|]. revert Hk. unfold deref, bind, ret, lift_res.
      destruct (size self sb) as [bs|e]; [|done]. unfold ret.
      destruct (reshape_dim_into sb 0 self s) as [self_ s1| | |]; try done.
      destruct (reshape_dim_into tb 0 target s1) as [target_ s2| | |]; try done.
      intros Hk. by exists bs, self_, target_, s2.
    - exfalso. revert Hk. unfold deref, bind, ret, lift_res, undefined_behaviour.
      destruct (size self sb) as [bs|e]; [|done]. unfold ret.
      by destruct (reshape_dim_into sb 0 self s) as [self_ s1| | |]. }
  destruct (Z.eqb_spec reduction Reduction_None) as [Hn|Hn].
  { apply (Hshape (fun batch_size self_ target_ =>
             do result <- at_nll_loss_forward self_ target_ None reduction (-100);
             do output <- reshape_dim_outof 0 batch_size (fst result);
             ret (output, Some 0, snd result, None)))
      in H as (Hs & Ht & bs & self_ & target_ & s2 & H).
    revert H. unfold bind, ret.
    destruct (at_nll_loss_forward _ _ _ _ _ s2) as [r s3| | |]; try done.
    destruct (reshape_dim_outof _ _ _ s3) as [o s4| | |]; try done.
    intros [= <- <- <- <- <-]. repeat split; auto. }
  destruct (Z.eqb_spec reduction Reduction_Sum) as [Hs|Hs].
  { apply (Hshape (fun batch_size self_ target_ =>
             do res <- at_nll_loss_forward self_ target_ None Reduction_None (-100);
             do output <- reshape_dim_outof 0 batch_size (fst res);
             do last_size <- lift_res (size output (-1));
             do total_weight <- new_full self_ last_size;
             do summed <- sum output (-1);
             ret (summed, Some 0, total_weight, None)))
      in H as (Hsb & Ht & bs & self_ & target_ & s2 & H).
    revert H. unfold bind, ret, lift_res.
    destruct (at_nll_loss_forward _ _ _ _ _ s2) as [r s3| | |]; try done.
    destruct (reshape_dim_outof _ _ _ s3) as [o s4| | |]; try done.
    destruct (size o (-1)) as [ls|e]; [|done]. unfold ret.
    destruct (new_full _ _ s4) as [w s5| | |]; try done.
    destruct (sum _ _ s5) as [x s6| | |]; try done.
    intros [= <- <- <- <- <-]. repeat split; auto. }
  destruct (Z.eqb_spec reduction Reduction_Mean) as [Hm|Hm]; [|done].
  apply (Hshape (fun batch_size self_ target_ =>
           do res <- at_nll_loss_forward self_ target_ None Reduction_None (-100);
           do output <- reshape_dim_outof 0 batch_size (fst res);
           do last_size <- lift_res (size output (-1));
           do total_weight <- new_full self_ last_size;
           do averaged <- mean output (-1);
           ret (averaged, Some 0, total_weight, None)))
    in H as (Hsb & Ht & bs & self_ & target_ & s2 & H).
  revert H. unfold bind, ret, lift_res.
  destruct (at_nll_loss_forward _ _ _ _ _ s2) as [r s3| | |]; try done.
  destruct (reshape_dim_outof _ _ _ s3) as [o s4| | |]; try done.
  destruct (size o (-1)) as [ls|e]; [|done]. unfold ret.
  destruct (new_full _ _ s4) as [w s5| | |]; try done.
  destruct (mean _ _ s5) as [x s6| | |]; try done.
  intros [= <- <- <- <- <-]. repeat split; auto.
Qed.

(** X23. The outcome of [nll_loss_forward_self_target_batch_rule].  Unless
    [self] has three dimensions and [target] two it fails with an internal
    assertion, and so it does, after that check, unless the reduction is
    one of [None], [Mean], [Sum]; in both cases no library call is made
    and the thread state is as before.  An exception of the library is
    passed on: when reading the batch size throws, the rule throws the
    same.  And whenever the rule returns, which takes every library call
    of its branch to return, the dimensions and the reduction are as said,
    both batch dimensions were given, the loss comes back batched along
    dimension 0 and the total weight not batched. *)
Theorem batch_rule_outcome self self_bdim target target_bdim (reduction : Z)
  (s : @State Ext) :
  (dim self <> 3 \/ dim target <> 2 ->
   batch_rule self self_bdim target target_bdim reduction s
   = Throw (InternalAssert "self.dim() == 3 && target.dim() == 2") s)
  /\ (dim self = 3 -> dim target = 2 ->
      reduction <> Reduction_None -> reduction <> Reduction_Mean ->
      reduction <> Reduction_Sum ->
      batch_rule self self_bdim target target_bdim reduction s
      = Throw (InternalAssert "false") s)
  /\ (forall sb e,
        dim self = 3 -> dim target = 2 ->
        reduction = Reduction_None \/ reduction = Reduction_Mean
        \/ reduction = Reduction_Sum ->
        self_bdim = Some sb -> size self sb = Err e ->
        batch_rule self self_bdim target target_bdim reduction s = Throw e s)
  /\ (forall output b0 total_weight b1 s',
        batch_rule self self_bdim target target_bdim reduction s
        = Ret (output, b0, total_weight, b1) s' ->
        b0 = Some 0 /\ b1 = None
        /\ dim self = 3 /\ dim target = 2
        /\ (reduction = Reduction_None \/ reduction = Reduction_Mean
            \/ reduction = Reduction_Sum)
        /\ is_Some self_bdim /\ is_Some target_bdim).
Proof.
  split; [|split; [|split]].
  - intros H. unfold nll_loss_forward_self_target_batch_rule, bind, TORCH_INTERNAL_ASSERT.
    destruct (Z.eqb_spec (dim self) 3), (Z.eqb_spec (dim target) 2); simpl;
      try done; lia.
  - intros H1 H2 Hn Hm Hs.
    unfold nll_loss_forward_self_target_batch_rule, bind, TORCH_INTERNAL_ASSERT.
    rewrite H1, H2. simpl.
    destruct (Z.eqb_spec reduction Reduction_None); [done|].
    destruct (Z.eqb_spec reduction Reduction_Sum); [done|].
    by destruct (Z.eqb_spec reduction Reduction_Mean).
  - intros sb e H1 H2 Hr -> He.
    unfold nll_loss_forward_self_target_batch_rule, bind, TORCH_INTERNAL_ASSERT.
    rewrite H1, H2. simpl. rewrite He.
    destruct Hr as [-> | [-> | ->]]; reflexivity.
  - intros output b0 tw b1 s' H. by apply (batch_rule_returns _ _ _ _ _ _ _ _ _ _ _ H).
Qed.

(** X24. How the reductions relate: for [Sum] and [Mean] the rule
    computes the unreduced loss exactly as for [None] (it calls
    [at::nll_loss_forward] with the reduction [None] itself) and then sums
    or averages it over the last dimension; the total weight it returns is
    a scalar filled with the size of that dimension, not the one the
    kernel returned.  So when the rule for [None] returns [output] in the
    state [s'], the rule for [Sum] is: read the last size of [output],
    fill the scalar, sum, all from [s'] on; and so for [Mean].  The
    flattened [self_] that gives the scalar its type is the one the
    branch computed. *)
Theorem batch_rule_reductions self (sb : Z) target (tb : Z) output b tw b'
  (s s' : @State Ext) :
  batch_rule self (Some sb) target (Some tb) Reduction_None s = Ret (output, b, tw, b') s' ->
  exists self_ s0,
    (run lift_res (size self sb); reshape_dim_into sb 0 self) s = Ret self_ s0
    /\ batch_rule self (Some sb) target (Some tb) Reduction_Sum s
       = (do last_size <- lift_res (size output (-1));
          do total_weight <- new_full self_ last_size;
          do summed <- sum output (-1);
          ret (summed, Some 0, total_weight, None)) s'
    /\ batch_rule self (Some sb) target (Some tb) Reduction_Mean s
       = (do last_size <- lift_res (size output (-1));
          do total_weight <- new_full self_ last_size;
          do averaged <- mean output (-1);
          ret (averaged, Some 0, total_weight, None)) s'.
Proof.
  intros H.
  assert (Hd : dim self = 3 /\ dim target = 2).
  { unfold nll_loss_forward_self_target_batch_rule in H.
    unfold bind at 1 in H. unfold TORCH_INTERNAL_ASSERT in H.
    destruct (Z.eqb_spec (dim self) 3) as [H1|]; [|done].
    by destruct (Z.eqb_spec (dim target) 2) as [H2|]. }
  destruct Hd as [H1 H2].
  rewrite (batch_rule_unfold _ _ _ _ _ _ H1 H2) in H.
  rewrite !(batch_rule_unfold _ _ _ _ _ _ H1 H2).
  change (Reduction_None =? Reduction_None) with true in H.
  change (Reduction_Sum =? Reduction_None) with false.
  change (Reduction_Sum =? Reduction_Sum) with true.
  change (Reduction_Mean =? Reduction_None) with false.
  change (Reduction_Mean =? Reduction_Sum) with false.
  change (Reduction_Mean =? Reduction_Mean) with true.
  cbv iota in *.
  revert H. unfold bind, ret, lift_res.
  destruct (size self sb) as [bs|e]; [|done]. unfold ret.
  destruct (reshape_dim_into sb 0 self s) as [self_ s1| | |]; try done.
  destruct (reshape_dim_into tb 0 target s1) as [target_ s2| | |]; try done.
  simpl fst. simpl snd.
  destruct (at_nll_loss_forward self_ target_ None Reduction_None (-100) s2)
    as [r s3| | |]; try done.
  destruct (reshape_dim_outof 0 bs (fst r) s3) as [o s4| | |]; try done.
  intros [= <- <- <- <- <-]. by exists self_, s1.
Qed.

Lemma leave_exclude_restores exclude (s s' : @State Ext) :
  tls_local_dispatch_key_set s' = tls_local_dispatch_key_set (enter_exclude exclude s) ->
  tls_local_dispatch_key_set (leave_exclude exclude s s') = tls_local_dispatch_key_set s.
Proof.
  intros Hs'. unfold leave_exclude, enter_exclude, set_excluded in *.
  destruct (negb (ks_empty _)); [|done]. simpl in *. rewrite Hs'. simpl.
  rewrite ks_guard_round_trip. by destruct (tls_local_dispatch_key_set s).
Qed.

(** The plumbing when the batch rule applies. *)
Lemma plumbing_rule_path sv sb tv tb weight reduction ignore_index
  (s : @State Ext) layer :
  maybeCurrentDynamicLayer s = Some layer ->
  match weight with
  | Some w => batched_at_level w (layerId layer) = false
  | None => True
  end ->
  ignore_index < 0 ->
  plumbing (BatchedTensorImpl sv sb (layerId layer))
    (BatchedTensorImpl tv tb (layerId layer)) weight reduction ignore_index s
  = map_outcome (leave_exclude (ks_of kBatchedKey) s)
      ((do results <- batch_rule sv (Some sb) tv (Some tb) reduction;
        let '(r0, b0, r1, b1) := results in
        ret (makeBatched r0 b0 (layerId layer), makeBatched r1 b1 (layerId layer)))
         (enter_exclude (ks_of kBatchedKey) s)).
Proof.
  intros Hlayer Hw Hi. unfold nll_loss_forward_plumbing. unfold bind at 1. unfold gets at 1.
  rewrite Hlayer. rewrite !unwrapTensorAtLevel_batched. simpl fst. simpl snd.
  assert (Hwb : bool_decide (is_Some match weight with
                                     | Some w => snd (unwrapTensorAtLevel w (layerId layer))
                                     | None => None
                                     end) = false).
  { destruct weight as [w|]; [by rewrite unwrapTensorAtLevel_bdim|].
    apply bool_decide_eq_false_2. by intros []. }
  rewrite Hwb. destruct (Z.ltb_spec ignore_index 0); [|lia].
  rewrite !bool_decide_eq_true_2 by done. simpl negb. simpl andb. cbv iota.
  apply with_ExcludeDispatchKeyGuard_eq.
Qed.

(** X25. On the path of the batch rule the plumbing does not look at the
    weight or at [ignore_index]: with [self] and [target] batched at the
    current level, any two calls whose weights are absent or not batched
    at that level and whose [ignore_index] is negative have the same
    outcome.  (The rule calls [at::nll_loss_forward] without a weight and
    with [ignore_index] -100.) *)
Theorem plumbing_rule_path_ignores_weight sv sb tv tb weight weight'
  reduction ignore_index ignore_index' (s : @State Ext) layer :
  maybeCurrentDynamicLayer s = Some layer ->
  match weight with
  | Some w => batched_at_level w (layerId layer) = false
  | None => True
  end ->
  match weight' with
  | Some w => batched_at_level w (layerId layer) = false
  | None => True
  end ->
  ignore_index < 0 -> ignore_index' < 0 ->
  plumbing (BatchedTensorImpl sv sb (layerId layer))
    (BatchedTensorImpl tv tb (layerId layer)) weight reduction ignore_index s
  = plumbing (BatchedTensorImpl sv sb (layerId layer))
      (BatchedTensorImpl tv tb (layerId layer)) weight' reduction ignore_index' s.
Proof.
  intros Hl Hw Hw' Hi Hi'. by rewrite !plumbing_rule_path.
Qed.

(** X26. The plumbing without a current layer fails with an internal
    assertion.  On the path of the batch rule the rule runs with the
    batching key excluded, and the plumbing leaves that scope whether the
    rule returns or throws: an exception of the rule is passed on; when
    the rule returns, the loss comes back wrapped as batched at the
    current level along dimension 0 and the total weight comes back
    unwrapped; and in both cases the key set is the one of before the call
    whenever the rule left the key set as it found it. *)
Theorem plumbing_rule_path_result self target weight reduction ignore_index
  (s : @State Ext) :
  (maybeCurrentDynamicLayer s = None ->
   plumbing self target weight reduction ignore_index s
   = Throw (InternalAssert "maybe_layer.has_value()") s)
  /\ forall layer sv sb tv tb,
       maybeCurrentDynamicLayer s = Some layer ->
       self = BatchedTensorImpl sv sb (layerId layer) ->
       target = BatchedTensorImpl tv tb (layerId layer) ->
       match weight with
       | Some w => batched_at_level w (layerId layer) = false
       | None => True
       end ->
       ignore_index < 0 ->
       let s_rule := enter_exclude (ks_of kBatchedKey) s in
       ks_has (excluded_ (tls_local_dispatch_key_set s_rule)) kBatchedKey = true
       /\ (forall e s',
             batch_rule sv (Some sb) tv (Some tb) reduction s_rule = Throw e s' ->
             plumbing self target weight reduction ignore_index s
             = Throw e (leave_exclude (ks_of kBatchedKey) s s'))
       /\ (forall output b0 total_weight b1 s',
             batch_rule sv (Some sb) tv (Some tb) reduction s_rule
             = Ret (output, b0, total_weight, b1) s' ->
             plumbing self target weight reduction ignore_index s
             = Ret (BatchedTensorImpl output 0 (layerId layer), total_weight)
                 (leave_exclude (ks_of kBatchedKey) s s'))
       /\ (forall s',
             tls_local_dispatch_key_set s' = tls_local_dispatch_key_set s_rule ->
             tls_local_dispatch_key_set (leave_exclude (ks_of kBatchedKey) s s')
             = tls_local_dispatch_key_set s).
Proof.
  split.
  { intros Hn. unfold nll_loss_forward_plumbing, bind, gets. by rewrite Hn. }
  intros layer sv sb tv tb Hl -> -> Hw Hi s_rule.
  rewrite (plumbing_rule_path sv sb tv tb weight reduction ignore_index s layer Hl Hw Hi).
  fold s_rule.
  split; [|split; [|split]].
  - unfold s_rule. rewrite enter_exclude_has. apply orb_true_r.
  - intros e s' He. unfold bind. by rewrite He.
  - intros output b0 tw b1 s' Hr.
    destruct (batch_rule_returns _ _ _ _ _ _ _ _ _ _ _ Hr) as (-> & -> & _).
    unfold bind. by rewrite Hr.
  - intros s' Hs'. by apply leave_exclude_restores.
Qed.

End MoreLossFacts.

(** ** The argument pass, applied twice *)

Section Idempotence.
Context {Ext : Type}.
Implicit Types s : @State Ext.

(** X27. Under a live top layer of kind [Autograd] whose level is the
    depth of the stack, the lambda of the front fallback's argument pass
    is idempotent: what [maybeTransformGradWrappers] returns for a tensor
    it returns again, unchanged, for that result; a second pass does not
    add a second wrapper of the same level. *)
Theorem maybeTransformGradWrappers_idempotent s top t t' :
  last (dynamicLayerStack s) = Some top -> key top = Autograd ->
  layerId top = Z.of_nat (length (dynamicLayerStack s)) ->
  cell_alive (life_cells s) (lifeHandle top) = true ->
  maybeTransformGradWrappers s t = Ok t' ->
  maybeTransformGradWrappers s t' = Ok t'.
Proof.
  intros Htop Hkey Hlvl Halive.
  pose proof (getLifeHandleForLevel_top s top Htop Hlvl) as Hh.
  assert (Hfix : forall x, maybeTransformGradWrappers s
                             (TensorWrapper x (layerId top) (lifeHandle top))
                           = Ok (TensorWrapper x (layerId top) (lifeHandle top))).
  { intros x. unfold maybeTransformGradWrappers, unwrapIfDead, materializeGradWrappers.
    simpl. rewrite Halive. simpl. rewrite Htop, Hkey. simpl.
    unfold wrapper_level. rewrite Halive.
    destruct (Z.leb_spec (layerId top) (layerId top)); [|lia]. simpl.
    by rewrite Z.eqb_refl. }
  unfold maybeTransformGradWrappers at 1. unfold materializeGradWrappers.
  set (t1 := unwrapIfDead s t).
  destruct (defined t1) eqn:Hd; simpl.
  2:{ intros [= <-]. destruct t1; try done. }
  rewrite Htop, Hkey. simpl. unfold makeTensorWrapper. rewrite Hh.
  destruct (maybeGetTensorWrapper t1) as [[[v l] h]|] eqn:Hw.
  2:{ intros [= <-]. apply Hfix. }
  unfold wrapper_level. destruct (cell_alive (life_cells s) h) eqn:Hal; [|done].
  destruct (Z.leb_spec l (layerId top)); simpl; [|done].
  destruct (Z.eqb_spec l (layerId top)) as [->|Hne].
  2:{ intros [= <-]. apply Hfix. }
  intros [= <-]. destruct t1 as [|i|v' l' h'|v' b' l']; try done.
  simpl in Hw. injection Hw as -> -> ->.
  unfold maybeTransformGradWrappers, unwrapIfDead, materializeGradWrappers.
  simpl. rewrite Hal. simpl. rewrite Htop, Hkey. simpl.
  unfold wrapper_level. rewrite Hal.
  destruct (Z.leb_spec (layerId top) (layerId top)); [|lia]. simpl.
  by rewrite Z.eqb_refl.
Qed.

(** X28. [unwrapIfDead] takes off one dead wrapper, not all of them.  For
    a tensor that escaped two nested grad transforms (a dead wrapper
    around a dead wrapper) it returns the inner dead wrapper, and only a
    second application reaches the value.  The argument pass therefore
    hands the inner dead wrapper on under a top layer that is not
    [Autograd], and under an [Autograd] top layer it fails, with the
    bad-optional-access of [level().value()], on the dead wrapper that is
    left. *)
Theorem unwrapIfDead_removes_one_wrapper s top x l1 h1 l2 h2 :
  last (dynamicLayerStack s) = Some top ->
  cell_alive (life_cells s) h1 = false -> cell_alive (life_cells s) h2 = false ->
  let t := TensorWrapper (TensorWrapper x l1 h1) l2 h2 in
  unwrapIfDead s t = TensorWrapper x l1 h1
  /\ unwrapIfDead s (unwrapIfDead s t) = x
  /\ (key top = Autograd -> maybeTransformGradWrappers s t = Err BadOptionalAccess)
  /\ (key top <> Autograd ->
      maybeTransformGradWrappers s t = Ok (TensorWrapper x l1 h1)).
Proof.
  intros Htop H1 H2 t.
  assert (Hu : unwrapIfDead s t = TensorWrapper x l1 h1).
  { unfold t, unwrapIfDead. simpl. by rewrite H2. }
  split; [done|]. split.
  { rewrite Hu. unfold unwrapIfDead. simpl. by rewrite H1. }
  unfold maybeTransformGradWrappers, materializeGradWrappers. rewrite Hu, Htop. simpl.
  split.
  - intros Hk. rewrite bool_decide_eq_true_2 by done. simpl.
    unfold wrapper_level. by rewrite H1.
  - intros Hk. by rewrite bool_decide_eq_false_2 by done.
Qed.

End Idempotence.

(** ** The further properties on examples *)

Lemma enter_then_leave_round_trip_witness :
  exists id s1 layer,
    initAndPushDynamicLayer kBatchedKey (Some 4) None (no_layer_state []) = Ret id s1
    /\ maybeCurrentDynamicLayer s1 = Some layer
    /\ layerId layer = id /\ key layer = kBatchedKey /\ prevGradMode layer = None
    /\ batchSize layer = Ok 4
    /\ cell_alive (life_cells s1) (lifeHandle layer) = true
    /\ popDynamicLayerAndDeleteMetadata s1
       = Ret layer (set_life_cells [false] (no_layer_state [])).
Proof.
  apply (enter_then_leave_round_trip kBatchedKey (Some 4) None (no_layer_state [])).
  - split; [discriminate|]. split; [discriminate|]. split; [discriminate|].
    intros H. by elim H.
  - intros _. split; [reflexivity|]. split; reflexivity.
Defined.

Lemma rejected_enter_records_snapshot_witness :
  exists w,
    initAndPushDynamicLayer Undefined None None (no_layer_state [])
    = Throw (InternalAssert w)
        (set_prev_local_keyset (Some empty_keyset) (no_layer_state [])).
Proof.
  exact (rejected_enter_records_snapshot Undefined None None (no_layer_state [])
           (or_introl eq_refl)).
Defined.

Lemma areTransformsActive_iff_layers_witness :
  areTransformsActive (run_ops [enter_grad; enter_vmap; Leave] (no_layer_state [])) = true
  /\ areTransformsActive (run_ops [enter_grad; enter_vmap; Leave; Leave] (no_layer_state []))
     = false.
Proof.
  split.
  - refine (eq_trans (proj1 (areTransformsActive_iff_layers (no_layer_state [])
                               [enter_grad; enter_vmap; Leave]
                               eq_refl eq_refl eq_refl)) _).
    vm_compute. reflexivity.
  - refine (eq_trans (proj1 (areTransformsActive_iff_layers (no_layer_state [])
                               [enter_grad; enter_vmap; Leave; Leave]
                               eq_refl eq_refl eq_refl)) _).
    vm_compute. reflexivity.
Defined.

Lemma reset_gives_pre_transform_keyset_witness :
  with_resetFunctorchLocalDispatchKeySetRAII (gets tls_local_dispatch_key_set)
    (run_ops [enter_grad; enter_vmap] (no_layer_state []))
  = Ret empty_keyset (run_ops [enter_grad; enter_vmap] (no_layer_state [])).
Proof.
  refine (eq_trans (reset_gives_pre_transform_keyset (gets tls_local_dispatch_key_set)
                      (no_layer_state []) [enter_grad; enter_vmap]
                      eq_refl eq_refl eq_refl _) _).
  - vm_compute. discriminate.
  - vm_compute. reflexivity.
Defined.

Lemma getLifeHandleForLevel_reached_witness :
  exists l,
    l ∈ dynamicLayerStack (run_ops [enter_grad; enter_vmap] (no_layer_state []))
    /\ layerId l = 2
    /\ getLifeHandleForLevel (run_ops [enter_grad; enter_vmap] (no_layer_state [])) 2
       = Ok (lifeHandle l)
    /\ cell_alive (life_cells (run_ops [enter_grad; enter_vmap] (no_layer_state [])))
         (lifeHandle l) = true.
Proof.
  apply (proj1 (proj2 (proj2 (getLifeHandleForLevel_reached (no_layer_state [])
                                [enter_grad; enter_vmap] 2 eq_refl)))).
  vm_compute. split; discriminate.
Defined.

Lemma setDynamicLayerStack_does_not_revive_witness :
  exists s1,
    popDynamicLayerAndDeleteMetadata (one_layer_state Autograd (Some true) [])
    = Ret (grad_layer true) s1
    /\ maybeCurrentDynamicLayer (setDynamicLayerStack [grad_layer true] s1)
       = Some (grad_layer true)
    /\ cell_alive (life_cells (setDynamicLayerStack [grad_layer true] s1)) 0%nat = false
    /\ areTransformsActive (setDynamicLayerStack [grad_layer true] s1) = false.
Proof.
  destruct (setDynamicLayerStack_does_not_revive (one_layer_state Autograd (Some true) [])
              [] (grad_layer true) eq_refl ltac:(discriminate))
    as (s1 & H1 & _ & H3 & H4 & _ & _ & H7).
  exists s1. split; [exact H1|]. split; [exact H3|]. split; [exact H4|].
  exact (proj1 (H7 eq_refl)).
Defined.

Lemma foreachTensorInplace_split_witness :
  foreachTensorInplace 0 4 wrap_but_3 c10_mixed
  = (run foreachTensorInplace 0 2 wrap_but_3; foreachTensorInplace 2 4 wrap_but_3) c10_mixed.
Proof. apply foreachTensorInplace_split; lia. Defined.

Lemma foreachTensorInplace_stops_at_first_error_witness :
  foreachTensorInplace 0 4 wrap_but_3 c10_mixed
  = Throw (OperatorError 7)
      [IVInt 5; IVTensor (c10_wrap (DenseTensor 1));
       IVList OptionalTensorType [IVNone; IVTensor (c10_wrap (DenseTensor 2))];
       IVTensor (DenseTensor 3)].
Proof.
  refine (proj1 (foreachTensorInplace_stops_at_first_error wrap_but_3 c10_wrap []
                   [IVInt 5; IVTensor (DenseTensor 1);
                    IVList OptionalTensorType [IVNone; IVTensor (DenseTensor 2)]]
                   [] (OperatorError 7) 4 _ _) (DenseTensor 3) eq_refl).
  - repeat constructor.
    intros t Ht.
    apply elem_of_cons in Ht as [Ht|Ht]; [discriminate|].
    apply elem_of_cons in Ht as [Ht|Ht]; [inversion Ht; reflexivity|].
    by apply not_elem_of_nil in Ht.
  - simpl. lia.
Defined.

Lemma allTensors_anyTensors_without_dict_witness :
  allTensors c10_mixed defined = Ok true
  /\ anyTensors c10_mixed (fun t => negb (defined t)) = Ok false.
Proof.
  split.
  - refine (eq_trans (proj1 (allTensors_anyTensors_without_dict c10_mixed defined _)) _);
      [repeat constructor|reflexivity].
  - refine (eq_trans (proj2 (allTensors_anyTensors_without_dict c10_mixed
                               (fun t => negb (defined t)) _)) _);
      [repeat constructor|reflexivity].
Defined.

Lemma allTensors_anyTensors_at_dict_witness :
  allTensors [IVTensor UndefinedTensor; IVGenericDict []] defined = Ok false
  /\ anyTensors [IVTensor UndefinedTensor; IVGenericDict []] defined
     = Err (InternalAssert "No operators can accept GenericDict").
Proof.
  apply (allTensors_anyTensors_at_dict [IVTensor UndefinedTensor] [] [] defined).
  repeat constructor.
Defined.

Lemma mutation_check_raises_only_for_inplace_witness :
  checkForInvalidMutationOnCaptures add__schema
    (dynamicLayerStack (two_grad_layers [IVTensor tw1; IVTensor (DenseTensor 2)]))
    (two_grad_layers [IVTensor tw1; IVTensor (DenseTensor 2)])
  = Throw (TorchCheck (mutation_error "aten::add_.Tensor"))
      (two_grad_layers [IVTensor tw1; IVTensor (DenseTensor 2)])
  /\ isInplaceOp add__schema = true.
Proof.
  assert (H : checkForInvalidMutationOnCaptures add__schema
                (dynamicLayerStack (two_grad_layers [IVTensor tw1; IVTensor (DenseTensor 2)]))
                (two_grad_layers [IVTensor tw1; IVTensor (DenseTensor 2)])
              = Throw (TorchCheck (mutation_error "aten::add_.Tensor"))
                  (two_grad_layers [IVTensor tw1; IVTensor (DenseTensor 2)]))
    by (vm_compute; reflexivity).
  split; [exact H|].
  exact (proj1 (proj2 (mutation_check_raises_only_for_inplace add__schema _ _ _ H))).
Defined.

Lemma back_fallback_restores_keyset_and_grad_mode_witness :
  exists s',
    dynamicLayerBackFallback (probe_callBoxed [IVTensor (DenseTensor 9)]) probe_refresh
      relu_schema (one_layer_state Autograd (Some false) [IVTensor tw1])
    = Ret tt s'
    /\ tls_local_dispatch_key_set s' = front_back_included
    /\ grad_mode s' = true.
Proof.
  pose proof (back_fallback_restores_keyset_and_grad_mode
                (probe_callBoxed [IVTensor (DenseTensor 9)]) probe_refresh relu_schema
                (one_layer_state Autograd (Some false) [IVTensor tw1])
                [] (grad_layer false) eq_refl eq_refl
                (fun _ => conj eq_refl eq_refl)) as H.
  assert (E : exists s', dynamicLayerBackFallback (probe_callBoxed [IVTensor (DenseTensor 9)])
                probe_refresh relu_schema
                (one_layer_state Autograd (Some false) [IVTensor tw1]) = Ret tt s')
    by (eexists; vm_compute; reflexivity).
  destruct E as [s' E]. rewrite E in H. destruct H as [Ht Hg].
  exists s'. split; [exact E|]. split; [exact Ht|exact (Hg eq_refl eq_refl)].
Defined.

Lemma front_fallback_autograd_redispatch_witness :
  exists s_call leave,
    dynamicLayerFrontFallback (probe_callBoxed [IVTensor (DenseTensor 9)]) relu_schema
      (one_layer_state Autograd (Some true) [IVTensor (DenseTensor 1)])
    = map_outcome leave
        (probe_callBoxed [IVTensor (DenseTensor 9)] relu_schema s_call)
    /\ stack s_call = [IVTensor tw1]
    /\ ks_has (excluded_ (tls_local_dispatch_key_set s_call)) kBatchedKey = true
    /\ ks_has (excluded_ (tls_local_dispatch_key_set s_call)) kDynamicLayerBackModeKey
       = false.
Proof.
  destruct (front_fallback_autograd_redispatch
              (probe_callBoxed [IVTensor (DenseTensor 9)]) relu_schema
              (one_layer_state Autograd (Some true) [IVTensor (DenseTensor 1)])
              (grad_layer true) [] [IVTensor (DenseTensor 1)]
              eq_refl eq_refl eq_refl eq_refl eq_refl eq_refl
              ltac:(repeat constructor))
    as (s_call & leave & H1 & H2 & _ & _ & H5 & _).
  exists s_call, leave. split; [exact H1|]. split; [exact H2|].
  split; rewrite H5; reflexivity.
Defined.

Lemma back_fallback_exception_keeps_copy_witness :
  exists s',
    dynamicLayerBackFallback throwing_callBoxed probe_refresh relu_schema
      (one_layer_state Autograd (Some true) [IVTensor tw1])
    = Throw (OperatorError 1) s'
    /\ dynamicLayerStack s' = [grad_layer true]
    /\ stack s' = [IVTensor tw1; IVTensor (DenseTensor 1)].
Proof.
  destruct (back_fallback_exception_keeps_copy throwing_callBoxed probe_refresh relu_schema
              (one_layer_state Autograd (Some true) [IVTensor tw1])
              [] (grad_layer true) [] [IVTensor tw1] true empty_keyset
              (OperatorError 1) _
              eq_refl eq_refl eq_refl eq_refl eq_refl eq_refl eq_refl
              ltac:(repeat constructor) eq_refl eq_refl
              ltac:(intros _; eexists; reflexivity))
    as (s' & H1 & H2 & _ & _ & H5).
  exists s'. split; [exact H1|]. split; [exact H2|]. exact (H5 eq_refl).
Defined.

Lemma batch_rule_outcome_witness :
  nll_loss_forward_self_target_batch_rule stub_dim stub_size stub_reshape stub_reshape
    stub_nll_loss_forward stub_reduce stub_reduce stub_new_full
    (DenseTensor 1) (Some 99) (DenseTensor 2) (Some 0) Reduction_Mean (vmap_state 2 [])
  = Throw (OperatorError 3) (vmap_state 2 [])
  /\ nll_loss_forward_self_target_batch_rule stub_dim stub_size stub_reshape stub_reshape
       stub_nll_loss_forward stub_reduce stub_reduce stub_new_full
       (DenseTensor 1) None (DenseTensor 2) None 7 (vmap_state 2 [])
     = Throw (InternalAssert "false") (vmap_state 2 [])
  /\ stub_dim (DenseTensor 1) = 3.
Proof.
  split; [|split].
  - apply (proj1 (proj2 (proj2 (batch_rule_outcome stub_dim stub_size stub_reshape
                                  stub_reshape stub_nll_loss_forward stub_reduce
                                  stub_reduce stub_new_full
                                  (DenseTensor 1) (Some 99) (DenseTensor 2) (Some 0)
                                  Reduction_Mean (vmap_state 2 []))))
             99 (OperatorError 3)); try reflexivity.
    right. left. reflexivity.
  - apply (proj1 (proj2 (batch_rule_outcome stub_dim stub_size stub_reshape
                           stub_reshape stub_nll_loss_forward stub_reduce
                           stub_reduce stub_new_full
                           (DenseTensor 1) None (DenseTensor 2) None
                           7 (vmap_state 2 [])))); try reflexivity; discriminate.
  - apply (proj2 (proj2 (proj2 (batch_rule_outcome stub_dim stub_size stub_reshape
                                  stub_reshape stub_nll_loss_forward stub_reduce
                                  stub_reduce stub_new_full
                                  (DenseTensor 1) (Some 0) (DenseTensor 2) (Some 1)
                                  Reduction_Sum (vmap_state 2 []))))
             (DenseTensor 1) (Some 0) (DenseTensor 4) None (vmap_state 2 []) eq_refl).
Defined.

Lemma batch_rule_reductions_witness :
  nll_loss_forward_self_target_batch_rule stub_dim stub_size stub_reshape stub_reshape
    stub_nll_loss_forward (fun _ _ => ret (DenseTensor 7)) (fun _ _ => ret (DenseTensor 8))
    stub_new_full
    (DenseTensor 1) (Some 0) (DenseTensor 2) (Some 0) Reduction_Sum (vmap_state 2 [])
  = Ret (DenseTensor 7, Some 0, DenseTensor 4, None) (vmap_state 2 [])
  /\ nll_loss_forward_self_target_batch_rule stub_dim stub_size stub_reshape stub_reshape
       stub_nll_loss_forward (fun _ _ => ret (DenseTensor 7))
       (fun _ _ => ret (DenseTensor 8)) stub_new_full
       (DenseTensor 1) (Some 0) (DenseTensor 2) (Some 0) Reduction_Mean (vmap_state 2 [])
     = Ret (DenseTensor 8, Some 0, DenseTensor 4, None) (vmap_state 2 []).
Proof.
  destruct (batch_rule_reductions stub_dim stub_size stub_reshape stub_reshape
              stub_nll_loss_forward (fun _ _ => ret (DenseTensor 7))
              (fun _ _ => ret (DenseTensor 8)) stub_new_full
              (DenseTensor 1) 0 (DenseTensor 2) 0
              (DenseTensor 1) (Some 0) (DenseTensor 2) None
              (vmap_state 2 []) (vmap_state 2 []) eq_refl)
    as (self_ & s0 & _ & Hsum & Hmean).
  split; [exact Hsum|exact Hmean].
Defined.

Lemma plumbing_rule_path_ignores_weight_witness :
  nll_loss_forward_plumbing stub_dim stub_size stub_reshape stub_reshape
    stub_nll_loss_forward stub_reduce stub_reduce stub_new_full stub_slow_fallback
    (BatchedTensorImpl (DenseTensor 1) 0 1) (BatchedTensorImpl (DenseTensor 2) 0 1)
    (Some (DenseTensor 5)) Reduction_Mean (-1)
    (one_layer_state FuncTorchBatched None [])
  = nll_loss_forward_plumbing stub_dim stub_size stub_reshape stub_reshape
      stub_nll_loss_forward stub_reduce stub_reduce stub_new_full stub_slow_fallback
      (BatchedTensorImpl (DenseTensor 1) 0 1) (BatchedTensorImpl (DenseTensor 2) 0 1)
      None Reduction_Mean (-100)
      (one_layer_state FuncTorchBatched None []).
Proof.
  apply (plumbing_rule_path_ignores_weight stub_dim stub_size stub_reshape stub_reshape
           stub_nll_loss_forward stub_reduce stub_reduce stub_new_full stub_slow_fallback
           (DenseTensor 1) 0 (DenseTensor 2) 0 (Some (DenseTensor 5)) None
           Reduction_Mean (-1) (-100)
           (one_layer_state FuncTorchBatched None []) vmap_layer);
    try reflexivity; try exact I; lia.
Defined.

Lemma plumbing_rule_path_result_witness :
  nll_loss_forward_plumbing stub_dim stub_size stub_reshape stub_reshape
    stub_nll_loss_forward stub_reduce stub_reduce stub_new_full stub_slow_fallback
    (BatchedTensorImpl (DenseTensor 1) 0 1) (BatchedTensorImpl (DenseTensor 2) 1 1)
    None Reduction_Sum (-100) (vmap_state 2 [])
  = Ret (BatchedTensorImpl (DenseTensor 1) 0 1, DenseTensor 4) (vmap_state 2 [])
  /\ nll_loss_forward_plumbing stub_dim stub_size stub_reshape stub_reshape
       stub_nll_loss_forward stub_reduce stub_reduce stub_new_full stub_slow_fallback
       (BatchedTensorImpl (DenseTensor 1) 99 1) (BatchedTensorImpl (DenseTensor 2) 1 1)
       None Reduction_Sum (-100) (vmap_state 2 [])
     = Throw (OperatorError 3) (vmap_state 2 []).
Proof.
  split.
  - destruct (proj2 (plumbing_rule_path_result stub_dim stub_size stub_reshape stub_reshape
                       stub_nll_loss_forward stub_reduce stub_reduce stub_new_full
                       stub_slow_fallback
                       (BatchedTensorImpl (DenseTensor 1) 0 1)
                       (BatchedTensorImpl (DenseTensor 2) 1 1)
                       None Reduction_Sum (-100) (vmap_state 2 []))
                (mkDynamicLayer FuncTorchBatched 1 (Some 2) None 0%nat)
                (DenseTensor 1) 0 (DenseTensor 2) 1 eq_refl eq_refl eq_refl I eq_refl)
      as (_ & _ & Hret & _).
    etransitivity; [apply (Hret (DenseTensor 1) (Some 0) (DenseTensor 4) None); reflexivity|].
    vm_compute. reflexivity.
  - destruct (proj2 (plumbing_rule_path_result stub_dim stub_size stub_reshape stub_reshape
                       stub_nll_loss_forward stub_reduce stub_reduce stub_new_full
                       stub_slow_fallback
                       (BatchedTensorImpl (DenseTensor 1) 99 1)
                       (BatchedTensorImpl (DenseTensor 2) 1 1)
                       None Reduction_Sum (-100) (vmap_state 2 []))
                (mkDynamicLayer FuncTorchBatched 1 (Some 2) None 0%nat)
                (DenseTensor 1) 99 (DenseTensor 2) 1 eq_refl eq_refl eq_refl I eq_refl)
      as (_ & Hthrow & _).
    etransitivity; [apply (Hthrow (OperatorError 3)); reflexivity|].
    vm_compute. reflexivity.
Defined.

Lemma maybeTransformGradWrappers_idempotent_witness :
  maybeTransformGradWrappers (one_layer_state Autograd (Some true) []) tw1 = Ok tw1.
Proof.
  apply (maybeTransformGradWrappers_idempotent (one_layer_state Autograd (Some true) [])
           (grad_layer true) (DenseTensor 1) tw1); reflexivity.
Defined.

Lemma unwrapIfDead_removes_one_wrapper_witness :
  unwrapIfDead (after_two_grads Autograd (Some true)) escaped_twice
  = TensorWrapper (DenseTensor 1) 1 1%nat
  /\ maybeTransformGradWrappers (after_two_grads Autograd (Some true)) escaped_twice
     = Err BadOptionalAccess
  /\ maybeTransformGradWrappers (after_two_grads kBatchedKey None) escaped_twice
     = Ok (TensorWrapper (DenseTensor 1) 1 1%nat).
Proof.
  destruct (unwrapIfDead_removes_one_wrapper (after_two_grads Autograd (Some true))
              (mkDynamicLayer Autograd 1 None (Some true) 0%nat)
              (DenseTensor 1) 1 1%nat 2 2%nat eq_refl eq_refl eq_refl)
    as (H1 & _ & H3 & _).
  destruct (unwrapIfDead_removes_one_wrapper (after_two_grads kBatchedKey None)
              (mkDynamicLayer kBatchedKey 1 None None 0%nat)
              (DenseTensor 1) 1 1%nat 2 2%nat eq_refl eq_refl eq_refl)
    as (_ & _ & _ & H4).
  split; [exact H1|]. split; [exact (H3 eq_refl)|]. apply H4. discriminate.
Defined.

Lemma front_fallback_rejects_other_kinds_witness :
  exists w s',
    dynamicLayerFrontFallback (probe_callBoxed [IVTensor (DenseTensor 9)]) relu_schema
      (one_layer_state CPU None [IVTensor (DenseTensor 1)])
    = Throw (InternalAssert w) s'
    /\ dynamicLayerStack s'
       = dynamicLayerStack (one_layer_state CPU None [IVTensor (DenseTensor 1)])
    /\ tls_local_dispatch_key_set s' = front_back_included.
Proof.
  apply (front_fallback_rejects_other_kinds (probe_callBoxed [IVTensor (DenseTensor 9)])
           relu_schema (one_layer_state CPU None [IVTensor (DenseTensor 1)])
           (mkDynamicLayer CPU 1 None None 0%nat) eq_refl); discriminate.
Defined.

Lemma front_fallback_preserves_layers_witness :
  preserves_layers
    (dynamicLayerFrontFallback (probe_callBoxed [IVTensor (DenseTensor 9)]) relu_schema).
Proof.
  apply front_fallback_preserves_layers. intros s. reflexivity.
Defined.
